(** * n8n-cli: the REST client core ([src/n8n-client.ts])

    A shallow embedding of the configuration loader, the error
    classification, the request primitive with its retry loop, and the
    workflow and execution operations built on it, followed by the
    properties the specification states about them.

    Conventions of the embedding.
    - JavaScript strings are [string]; [includes] is byte-wise substring
      search, which agrees with [String.prototype.includes] for the ASCII
      needles the client searches for.
    - Values parsed from or sent as JSON are [jsval].  Numbers are integers
      ([Z]); their rendering in template literals is the decimal one, as
      JavaScript gives for integers below 10^21 in magnitude.
    - The platform ([fetch], [JSON.parse], [process.env], the file system,
      [node:path]) is not part of the repository: it is taken as a
      parameter.  Real time is not modelled: a timeout is a [fetch] that
      rejects with an [AbortError], a back-off delay is a [Slept] event.
    - The console is part of the state of a run: what [console.log] and
      [console.error] were called with, in order, debug logging
      ([this.log]) included. *)

From Stdlib Require Import ZArith List String Ascii Bool Lia DecimalString.
Import ListNotations.

Local Open Scope string_scope.
Local Open Scope Z_scope.

(** ** Strings *)

Fixpoint startsWith (s p : string) {struct p} : bool :=
  match p, s with
  | EmptyString, _ => true
  | String _ _, EmptyString => false
  | String b p', String a s' => Ascii.eqb a b && startsWith s' p'
  end.

(** [s.includes(needle)] *)
Fixpoint includes (s needle : string) : bool :=
  startsWith s needle ||
  match s with
  | EmptyString => false
  | String _ s' => includes s' needle
  end.

(** JavaScript truthiness of a string: non-empty. *)
Definition nonEmpty (s : string) : bool :=
  match s with EmptyString => false | String _ _ => true end.

(** Truthiness of an optional string ([undefined] is falsy). *)
Definition truthyStr (o : option string) : bool :=
  match o with Some s => nonEmpty s | None => false end.

(** [`${n}`] for an integer [n]. *)
Definition Z_to_string (n : Z) : string := NilZero.string_of_int (Z.to_int n).

(** The double-quote character, for texts that contain it. *)
Definition dq : string := String (ascii_of_nat 34) EmptyString.

(** [s.replace(/\/$/, '')]: drop one trailing slash. *)
Fixpoint stripTrailingSlash (s : string) : string :=
  match s with
  | EmptyString => EmptyString
  | String c EmptyString => if Ascii.eqb c "/"%char then EmptyString else s
  | String c s' => String c (stripTrailingSlash s')
  end.

(** ** JavaScript values *)

#[warnings="-register-all"]
Inductive jsval : Type :=
| JUndefined
| JNull
| JBool (b : bool)
| JNum (n : Z)
| JStr (s : string)
| JArr (items : list jsval)
| JObj (props : list (string * jsval)).

Fixpoint lookup (k : string) (props : list (string * jsval)) : option jsval :=
  match props with
  | [] => None
  | (k', v) :: rest => if String.eqb k k' then Some v else lookup k rest
  end.

(** [v?.k]: property read with optional chaining.  Reading a property of a
    primitive gives [undefined]; only the properties the client reads
    (none of them defined on arrays, strings or numbers) are looked up. *)
Definition get (v : jsval) (k : string) : jsval :=
  match v with
  | JObj props => match lookup k props with Some x => x | None => JUndefined end
  | _ => JUndefined
  end.

(** [a ?? b] *)
Definition nullish (v : jsval) : bool :=
  match v with JUndefined | JNull => true | _ => false end.

Definition orElse (a b : jsval) : jsval := if nullish a then b else a.

(** Truthiness of a value. *)
Definition truthy (v : jsval) : bool :=
  match v with
  | JUndefined | JNull => false
  | JBool b => b
  | JNum n => negb (n =? 0)
  | JStr s => nonEmpty s
  | JArr _ | JObj _ => true
  end.

(** [String(v)], as template literals and [String()] compute it, for the
    values whose conversion returns: a [JObj] stands for a plain data
    object that does not shadow [toString] or [valueOf]. *)
Fixpoint toStr (v : jsval) : string :=
  match v with
  | JUndefined => "undefined"
  | JNull => "null"
  | JBool true => "true"
  | JBool false => "false"
  | JNum n => Z_to_string n
  | JStr s => s
  | JArr items =>
      String.concat ","
        (map (fun x => if nullish x then "" else toStr x) items)
  | JObj _ => "[object Object]"
  end.

(** ** Thrown values *)

(** An [Error] object, with the [status] the client attaches to API errors.
    Its [cause] is of type [unknown]: any value, or no [cause] property at
    all ([None]). *)
Record JsError : Type := mkError {
  err_name : string;
  err_message : string;
  err_status : option Z;
  err_cause : option jsval
}.

(** [new Error(msg)] *)
Definition newError (msg : string) : JsError := mkError "Error" msg None None.

(** Anything a [catch] can receive: an [Error], or another value. *)
Inductive thrown : Type :=
| ThrownError (e : JsError)
| ThrownValue (v : jsval).

Definition typeError (msg : string) : thrown :=
  ThrownError (mkError "TypeError" msg None None).

(** [w.key] without optional chaining: reading a property of [undefined] or
    [null] throws. *)
Definition prop (w : jsval) (key : string) : thrown + jsval :=
  match w with
  | JUndefined =>
      inl (typeError ("Cannot read properties of undefined (reading '" ++ key ++ "')"))
  | JNull => inl (typeError ("Cannot read properties of null (reading '" ++ key ++ "')"))
  | _ => inr (get w key)
  end.

(** [(err as Error).message] *)
Definition messageField (err : thrown) : thrown + jsval :=
  match err with
  | ThrownError e => inr (JStr (err_message e))
  | ThrownValue v => prop v "message"
  end.

(** [String(err)]; for an [Error] this is [Error.prototype.toString]. *)
Definition String_of (err : thrown) : string :=
  match err with
  | ThrownError e =>
      if negb (nonEmpty (err_name e)) then err_message e
      else if negb (nonEmpty (err_message e)) then err_name e
      else err_name e ++ ": " ++ err_message e
  | ThrownValue v => toStr v
  end.

(** [(err as { status?: number })?.status]; a [status] that is not a number
    is outside the declared type and read as absent. *)
Definition status_of (err : thrown) : option Z :=
  match err with
  | ThrownError e => err_status e
  | ThrownValue v => match get v "status" with JNum n => Some n | _ => None end
  end.

(** ** Error classification for display: [toFriendlyApiError] *)

Definition MSG_UNAUTHORIZED : string :=
  "Invalid API key. Update apiKey in your config (n8n-config.local.json or N8N_API_KEY)." ++
  String "010" "  Create an API key in n8n: Settings → API.".

Definition MSG_FORBIDDEN : string :=
  "Access denied (403). Check that your API key has the required permissions." ++
  String "010" "  Create or regenerate an API key in n8n: Settings → API.".

Definition MSG_NOT_FOUND : string :=
  "n8n instance not found. Check baseUrl in your config (n8n-config.local.json or N8N_BASE_URL)." ++
  String "010" "  Ensure the URL is correct and n8n is running.".

Definition MSG_UNRESOLVED : string :=
  "Cannot resolve n8n hostname. Check baseUrl in your config (n8n-config.local.json or N8N_BASE_URL)." ++
  String "010" "  Ensure the URL is correct and reachable from your network.".

Definition MSG_REFUSED : string :=
  "Cannot connect to n8n. Is it running? Check baseUrl in your config (n8n-config.local.json or N8N_BASE_URL)." ++
  String "010" "  For local: start n8n with `npx n8n` (default port 5678).".

Definition MSG_SELF_SIGNED : string :=
  "Self-signed certificate rejected. For corporate/internal n8n instances:" ++
  String "010" "  Set rejectUnauthorized: false in config, or run with NODE_TLS_REJECT_UNAUTHORIZED=0.".

Definition MSG_TIMEOUT : string :=
  "Request timed out. Check baseUrl and network. Increase timeoutMs in config if needed.".

Definition API_ERROR_HINT : string :=
  String "010" "  Check baseUrl and apiKey in your config.".

Definition CONNECTION_HINT : string :=
  String "010" "  Check baseUrl and apiKey in your config (n8n-config.local.json or env vars).".

(** The argument of [toFriendlyApiError], of type [unknown]: a value of the
    kinds above, or a value that is not an [Error] and whose conversion to
    a string throws [raised] (an object without prototype, or one whose
    [toString] throws). *)
Inductive unknown : Type :=
| Caught (err : thrown)
| Unprintable (raised : thrown).

(** [err instanceof Error ? err.message : String(err)], for a value whose
    conversion returns. *)
Definition messageOf (err : thrown) : string :=
  match err with
  | ThrownError e => err_message e
  | ThrownValue _ => String_of err
  end.

(** [err instanceof Error && 'cause' in err ? err.cause : null] *)
Definition causeOf (err : thrown) : jsval :=
  match err with
  | ThrownError e => match err_cause e with Some cause => cause | None => JNull end
  | ThrownValue _ => JNull
  end.

(** [cause?.message ?? ''] *)
Definition causeMsgOf (err : thrown) : jsval :=
  orElse (get (causeOf err) "message") (JStr "").

(** [cause?.code ?? ''] *)
Definition causeCodeOf (err : thrown) : jsval :=
  orElse (get (causeOf err) "code") (JStr "").

(** [v === s] for a string [s] *)
Definition isString (v : jsval) (s : string) : bool :=
  match v with
  | JStr t => String.eqb t s
  | _ => false
  end.

(** [v.includes(needle)] for a [v] that is neither [undefined] nor [null]:
    substring search on a string, membership in an array, and a
    [TypeError] on any other value, which has no [includes] method. *)
Definition includesOf (v : jsval) (needle : string) : thrown + bool :=
  match v with
  | JStr s => inr (includes s needle)
  | JArr items => inr (existsb (fun x => isString x needle) items)
  | _ => inl (typeError "causeMsg.includes is not a function")
  end.

(** [a || b], where evaluating [b] may throw and is skipped when [a] holds. *)
Definition orElseTry (a : bool) (b : thrown + bool) : thrown + bool :=
  if a then inr true else b.

(** [b || c], where evaluating [b] may throw. *)
Definition tryOr (b : thrown + bool) (c : bool) : thrown + bool :=
  match b with
  | inl e => inl e
  | inr x => inr (x || c)
  end.

(** [if (cond) return yes; rest], where evaluating [cond] may throw. *)
Definition whether {A : Type} (cond : thrown + bool) (yes rest : thrown + A) : thrown + A :=
  match cond with
  | inl e => inl e
  | inr true => yes
  | inr false => rest
  end.

Definition toFriendlyApiError (err : unknown) : thrown + string :=
  match err with
  | Unprintable raised => inl raised
  | Caught err =>
      let msg := messageOf err in
      let causeMsg := causeMsgOf err in
      let causeCode := causeCodeOf err in
      if includes msg "401" || includes msg "unauthorized" then inr MSG_UNAUTHORIZED
      else if includes msg "403" || includes msg "forbidden" then inr MSG_FORBIDDEN
      else if includes msg "404" || includes msg "not found" then inr MSG_NOT_FOUND
      else
        whether (orElseTry (isString causeCode "ENOTFOUND")
                           (tryOr (includesOf causeMsg "ENOTFOUND")
                                  (includes msg "getaddrinfo")))
          (inr MSG_UNRESOLVED)
       (whether (orElseTry (isString causeCode "ECONNREFUSED")
                           (includesOf causeMsg "ECONNREFUSED"))
          (inr MSG_REFUSED)
       (whether (orElseTry (isString causeCode "SELF_SIGNED_CERT_IN_CHAIN")
                           (tryOr (includesOf causeMsg "SELF_SIGNED_CERT")
                                  (includes msg "self-signed")))
          (inr MSG_SELF_SIGNED)
          (if includes msg "timed out" || includes msg "AbortError" then inr MSG_TIMEOUT
           else if includes msg "n8n API error" then inr (msg ++ API_ERROR_HINT)
           else if includes msg "fetch failed" || truthy causeMsg then
             inr ("Connection failed: "
                    ++ (if truthy causeMsg then toStr causeMsg else msg)
                    ++ CONNECTION_HINT)
           else inr msg)))
  end.

(** The categories of the classification, in the order the specification
    lists them, with the trigger and the remediation text of each, over
    the three texts the specification names: the message of the error, the
    message of its cause and the code of its cause (empty when absent). *)
Inductive Category : Type :=
| Unauthorized | Forbidden | NotFound | UnresolvedHost | ConnectionRefused
| SelfSigned | Timeout | BrandedApiError | OtherTransport.

Definition priority : list Category :=
  [Unauthorized; Forbidden; NotFound; UnresolvedHost; ConnectionRefused;
   SelfSigned; Timeout; BrandedApiError; OtherTransport].

Definition triggers (c : Category) (msg causeMsg causeCode : string) : bool :=
  match c with
  | Unauthorized => includes msg "401" || includes msg "unauthorized"
  | Forbidden => includes msg "403" || includes msg "forbidden"
  | NotFound => includes msg "404" || includes msg "not found"
  | UnresolvedHost =>
      String.eqb causeCode "ENOTFOUND"
      || includes causeMsg "ENOTFOUND" || includes msg "getaddrinfo"
  | ConnectionRefused =>
      String.eqb causeCode "ECONNREFUSED" || includes causeMsg "ECONNREFUSED"
  | SelfSigned =>
      String.eqb causeCode "SELF_SIGNED_CERT_IN_CHAIN"
      || includes causeMsg "SELF_SIGNED_CERT" || includes msg "self-signed"
  | Timeout => includes msg "timed out" || includes msg "AbortError"
  | BrandedApiError => includes msg "n8n API error"
  | OtherTransport => includes msg "fetch failed" || nonEmpty causeMsg
  end.

Definition remediation (c : Category) (msg causeMsg : string) : string :=
  match c with
  | Unauthorized => MSG_UNAUTHORIZED
  | Forbidden => MSG_FORBIDDEN
  | NotFound => MSG_NOT_FOUND
  | UnresolvedHost => MSG_UNRESOLVED
  | ConnectionRefused => MSG_REFUSED
  | SelfSigned => MSG_SELF_SIGNED
  | Timeout => MSG_TIMEOUT
  | BrandedApiError => msg ++ API_ERROR_HINT
  | OtherTransport =>
      "Connection failed: " ++ (if nonEmpty causeMsg then causeMsg else msg)
        ++ CONNECTION_HINT
  end.

(** The classification as the specification words it: the first category
    of [priority] whose trigger holds decides; with none, the raw message. *)
Definition classify_spec (msg causeMsg causeCode : string) : string :=
  match find (fun c => triggers c msg causeMsg causeCode) priority with
  | Some c => remediation c msg causeMsg
  | None => msg
  end.

(** An error as the transport layer of Node builds it: [name] and
    [message], with a cause that is an [Error] with its own message and,
    for system errors, a [code]. *)
Definition causedBy (message : string) (code : option string) : jsval :=
  JObj (("message", JStr message) ::
        match code with Some k => [("code", JStr k)] | None => [] end).

(** ** The host platform *)

(** [fetchOptions.dispatcher], as [request] sets it: not at all
    ([DefaultDispatcher]); [new EnvHttpProxyAgent({ connect })], where
    [connect] is [{ rejectUnauthorized: false }] when [insecure] and
    [undefined] otherwise; or
    [new Agent({ connect: { rejectUnauthorized: false } })]
    ([InsecureAgent]).  What undici does with these options is not part of
    the model. *)
Inductive Dispatcher : Type :=
| DefaultDispatcher
| EnvHttpProxyAgent (insecure : bool)
| InsecureAgent.

(** What one call of [fetch(url, fetchOptions)] is given.  The body is kept
    as the value handed to [JSON.stringify]. *)
Record Request : Type := mkRequest {
  req_method : string;
  req_url : string;
  req_headers : list (string * string);
  req_body : option jsval;
  req_dispatcher : Dispatcher
}.

(** A response whose text has been read: [res.status],
    [res.headers.get('content-type')], [await res.text()]. *)
Record Response : Type := mkResponse {
  res_status : Z;
  res_contentType : option string;
  res_text : string
}.

(** [res.ok], which the Fetch standard defines as a status in 200..299. *)
Definition res_ok (r : Response) : bool :=
  (200 <=? res_status r) && (res_status r <=? 299).

(** One transport attempt either yields a response, or [fetch] (or reading
    the body) rejects; a timeout is a rejection with an [AbortError]. *)
Inductive FetchOutcome : Type :=
| Resolved (r : Response)
| Rejected (e : thrown).

(** The services of the host the client runs on.  [W] is the state of the
    outside world (the server and the network); [JSON_parse] returns the
    error it throws on the left. *)
Class Platform (W : Type) : Type := {
  fetch : Request -> W -> FetchOutcome * W;
  JSON_parse : string -> JsError + jsval;
  formEncode : string -> string;
  env : string -> option string;
  String_trim : string -> string;
  readFile : string -> option string;
  cwd : string;
  module_dirname : string;
  path_resolve : string -> list string -> string;
  path_isAbsolute : string -> bool;
  path_join : string -> string -> string;
  path_basename : string -> string
}.

(** ** Configuration and client object *)

Record N8nConfig : Type := mkConfig {
  cfg_baseUrl : string;
  cfg_apiKey : string;
  cfg_rejectUnauthorized : option bool;
  cfg_projectId : option string;
  cfg_timeoutMs : option Z;
  cfg_retries : option Z;
  cfg_debug : option bool
}.

Record N8nClient : Type := mkClient {
  baseUrl : string;
  apiKey : string;
  rejectUnauthorized : bool;
  projectId : option string;
  timeoutMs : Z;
  retries : Z;
  debug : bool
}.

Definition withDefault {A : Type} (o : option A) (d : A) : A :=
  match o with Some a => a | None => d end.

(** The constructor. *)
Definition new_N8nClient (config : N8nConfig) : N8nClient :=
  {| baseUrl := stripTrailingSlash (cfg_baseUrl config);
     apiKey := cfg_apiKey config;
     rejectUnauthorized := withDefault (cfg_rejectUnauthorized config) true;
     projectId := cfg_projectId config;
     timeoutMs := withDefault (cfg_timeoutMs config) 30000;
     retries := withDefault (cfg_retries config) 3;
     debug := withDefault (cfg_debug config) false |}.

Definition API_VERSION : string := "v1".

Definition getUrl (c : N8nClient) (path : string) : string :=
  let base := baseUrl c ++ "/api/" ++ API_VERSION in
  let p := if startsWith path "/" then path else "/" ++ path in
  base ++ p.

(** ** Pure helpers of the request primitive *)

Definition isRetryable (err : thrown) (status : option Z) : bool :=
  match status with
  | Some st => (st =? 429) || ((500 <=? st) && (st <? 600))
  | None => false
  end
  || (let s := String_of err in
      includes s "timed out" || includes s "AbortError" || includes s "ECONNRESET"
      || includes s "ETIMEDOUT" || includes s "fetch failed").

(** [Math.min(1000 * 2 ** attempt, 10000)] *)
Definition backoff (attempt : Z) : Z := Z.min (1000 * 2 ^ attempt) 10000.

(** What the observer of a run sees: transport attempts and delays. *)
Inductive Event : Type :=
| Fetched (r : Request)
| Slept (ms : Z).

Inductive Stream : Type := Stdout | Stderr.

(** One call of [console.log] ([Stdout]) or [console.error] ([Stderr]),
    with its arguments. *)
Record Printed : Type := mkPrinted {
  printed_on : Stream;
  printed_args : list jsval
}.

(** [console.error('[n8n-client]', ...args)] *)
Definition debugLine (args : list jsval) : Printed :=
  mkPrinted Stderr (JStr "[n8n-client]" :: args).

Definition timeoutError (ms : Z) : thrown :=
  ThrownError (newError ("n8n API request timed out after " ++ Z_to_string ms ++ "ms")).

Definition apiErrorMessage (status : Z) (msg : string) : string :=
  "n8n API error " ++ Z_to_string status ++ ": " ++ msg.

(** ** A state-and-exception monad for asynchronous methods

    An [async] method is run to completion from a state and either returns
    a value or throws; [await] is sequencing. *)

Definition M (S A : Type) : Type := S -> (thrown + A) * S.

Definition ret {S A : Type} (a : A) : M S A := fun s => (inr a, s).

Definition throw {S A : Type} (e : thrown) : M S A := fun s => (inl e, s).

Definition bind {S A B : Type} (m : M S A) (k : A -> M S B) : M S B :=
  fun s =>
    match m s with
    | (inr a, s') => k a s'
    | (inl e, s') => (inl e, s')
    end.

(** [try { m } catch (err) { h err }] *)
Definition try_catch {S A : Type} (m : M S A) (h : thrown -> M S A) : M S A :=
  fun s =>
    match m s with
    | (inr a, s') => (inr a, s')
    | (inl e, s') => h e s'
    end.

Notation "x <- m ;; k" := (bind m (fun x => k))
  (at level 61, m at next level, right associativity).
Notation "m ;;; k" := (bind m (fun _ => k))
  (at level 61, right associativity).

(** ** The client *)

Section Engine.

Context {W : Type} {P : Platform W}.

(** The client object together with the world it talks to, the record of
    what it has done to it, and what has been written to the console. *)
Record State : Type := mkState {
  self : N8nClient;
  world : W;
  trace : list Event;
  output : list Printed
}.

Definition Client (A : Type) : Type := M State A.

(** Reading [this]. *)
Definition this : Client N8nClient := fun s => (inr (self s), s).

Definition record (ev : Event) (s : State) : State :=
  {| self := self s; world := world s; trace := trace s ++ [ev]; output := output s |}.

(** The state after [line] was written to the console. *)
Definition say (line : Printed) (s : State) : State :=
  {| self := self s; world := world s; trace := trace s;
     output := output s ++ [line] |}.

(** [this.log(...args)] *)
Definition log (args : list jsval) : Client unit :=
  fun s => (inr tt, if debug (self s) then say (debugLine args) s else s).

(** A value computed without effect, which may throw. *)
Definition evaluate {A : Type} (r : thrown + A) : Client A := fun s => (r, s).

(** [await new Promise((r) => setTimeout(r, delay))] *)
Definition sleep (ms : Z) : Client unit := fun s => (inr tt, record (Slept ms) s).

(** [await fetch(url, fetchOptions)] followed by [await res.text()]. *)
Definition call_fetch (options : Request) : Client Response :=
  fun s =>
    let (outcome, w') := fetch options (world s) in
    let s' := {| self := self s; world := w'; trace := trace s ++ [Fetched options];
                 output := output s |} in
    match outcome with
    | Resolved res => (inr res, s')
    | Rejected e => (inl e, s')
    end.

Definition parseApiError (status : Z) (text : string) : JsError :=
  match JSON_parse text with
  | inr json =>
      let msg := orElse (orElse (get json "message") (get (get json "error") "message"))
                        (JStr text) in
      newError (apiErrorMessage status (toStr msg))
  | inl _ => newError (apiErrorMessage status text)
  end.

(** [Object.assign(e, { status })] *)
Definition withStatus (e : JsError) (status : Z) : JsError :=
  {| err_name := err_name e; err_message := err_message e;
     err_status := Some status; err_cause := err_cause e |}.

Definition hasProxy : bool :=
  truthyStr (env "HTTP_PROXY") || truthyStr (env "HTTPS_PROXY")
  || truthyStr (env "http_proxy") || truthyStr (env "https_proxy").

Definition isAbortError (err : thrown) : bool :=
  match err with
  | ThrownError e => String.eqb (err_name e) "AbortError"
  | ThrownValue _ => false
  end.

Definition isJsonContentType (contentType : option string) : bool :=
  match contentType with
  | Some ct => includes ct "application/json"
  | None => false
  end.

Definition requestHeaders (c : N8nClient) (body : jsval) : list (string * string) :=
  [("Accept", "application/json"); ("X-N8N-API-KEY", apiKey c)] ++
  match body with
  | JUndefined => []
  | _ => [("Content-Type", "application/json")]
  end.

Definition fetchOptionsFor (c : N8nClient) (method url : string)
    (headers : list (string * string)) (body : jsval) (proxy : bool) : Request :=
  {| req_method := method;
     req_url := url;
     req_headers := headers;
     req_body := match body with JUndefined => None | _ => Some body end;
     req_dispatcher :=
       if proxy then EnvHttpProxyAgent (negb (rejectUnauthorized c))
       else if negb (rejectUnauthorized c) then InsecureAgent
       else DefaultDispatcher |}.

(** The closure [doRequest] of [request]: one transport attempt. *)
Definition doRequest (method path url : string) (headers : list (string * string))
    (body : jsval) (proxy : bool) : Client jsval :=
  c <- this ;;
  try_catch
    (log [JStr (method ++ " " ++ path)] ;;;
     res <- call_fetch (fetchOptionsFor c method url headers body proxy) ;;
     if negb (res_ok res) then
       throw (ThrownError
                (withStatus (parseApiError (res_status res) (res_text res))
                            (res_status res)))
     else if isJsonContentType (res_contentType res) then
       data <- (if nonEmpty (res_text res) then
                  match JSON_parse (res_text res) with
                  | inr data => ret data
                  | inl e => throw (ThrownError e)
                  end
                else ret JUndefined) ;;
       log [JStr (method ++ " " ++ path ++ " -> " ++ Z_to_string (res_status res))] ;;;
       ret data
     else ret JUndefined)
    (fun err =>
       if isAbortError err then
         c' <- this ;; throw (timeoutError (timeoutMs c'))
       else throw err).

(** The retry loop of [request].  [remaining] counts the iterations the
    loop condition [attempt <= this.retries] still admits; with none left
    the statement after the loop, [throw lastErr], is reached. *)
Fixpoint attemptLoop (attemptOnce : Client jsval) (remaining : nat) (attempt : Z)
    (lastErr : thrown) : Client jsval :=
  match remaining with
  | O => throw lastErr
  | S n =>
      try_catch attemptOnce
        (fun err =>
           c <- this ;;
           if (attempt <? retries c) && isRetryable err (status_of err) then
             let delay := backoff attempt in
             message <- evaluate (messageField err) ;;
             log [JStr ("Retry " ++ Z_to_string (attempt + 1) ++ "/"
                          ++ Z_to_string (retries c) ++ " in "
                          ++ Z_to_string delay ++ "ms:");
                  message] ;;;
             sleep delay ;;;
             attemptLoop attemptOnce n (attempt + 1) err
           else throw err)
  end.

Definition request (method path : string) (body : jsval) : Client jsval :=
  c <- this ;;
  let url := getUrl c path in
  let headers := requestHeaders c body in
  attemptLoop (doRequest method path url headers body hasProxy)
              (Z.to_nat (retries c + 1)) 0 (ThrownValue JUndefined).

(** *** Workflows *)

(** [params.toString() ? `?${params}` : ''] for a [URLSearchParams] holding
    [params] in insertion order. *)
Definition queryString (params : list (string * string)) : string :=
  match params with
  | [] => ""
  | _ => "?" ++ String.concat "&" (map (fun kv => fst kv ++ "=" ++ formEncode (snd kv)) params)
  end.

Definition emptyPage : jsval := JObj [("data", JArr [])].

Definition workflowListParams (active : option bool) (cursor : jsval)
    (name : option string) : list (string * string) :=
  match active with Some b => [("active", toStr (JBool b))] | None => [] end ++
  (if truthy cursor then [("cursor", toStr cursor)] else []) ++
  (if truthyStr name then [("name", withDefault name "")] else []).

Definition listWorkflowsPaginated (active : option bool) (cursor : jsval)
    (name : option string) : Client jsval :=
  let qs := queryString (workflowListParams active cursor name) in
  c <- this ;;
  let path := if truthyStr (projectId c)
              then "projects/" ++ withDefault (projectId c) "" ++ "/workflows" ++ qs
              else "workflows" ++ qs in
  try_catch
    (res <- request "GET" path JUndefined ;;
     ret (orElse res emptyPage))
    (fun err =>
       c' <- this ;;
       if truthyStr (projectId c') && includes (String_of err) "404" then
         fallback <- request "GET" ("workflows" ++ qs) JUndefined ;;
         ret (orElse fallback emptyPage)
       else throw err).

Definition listWorkflows (active : option bool) (name : option string) : Client jsval :=
  res <- listWorkflowsPaginated active JUndefined name ;;
  ret (orElse (get res "data") (JArr [])).

(** [all.push(...x)]: the elements [x] spreads to.  Only arrays and strings
    are iterable among the values a response can hold. *)
Definition spreadElements (x : jsval) : thrown + list jsval :=
  match x with
  | JArr items => inr items
  | JStr s => inr (map (fun ch => JStr (String ch EmptyString)) (list_ascii_of_string s))
  | _ => inl (ThrownError (mkError "TypeError"
                 "Spread syntax requires ...iterable[Symbol.iterator] to be a function"
                 None None))
  end.

(** The [do ... while (cursor)] loop shared by the two "list all"
    methods.  [fuel] bounds the number of pages fetched; [None] is
    returned when the bound is reached with a next cursor still pending. *)
Fixpoint collectPages (page : jsval -> Client jsval) (fuel : nat)
    (all : list jsval) (cursor : jsval) : Client (option (list jsval)) :=
  match fuel with
  | O => ret None
  | S n =>
      res <- page cursor ;;
      match spreadElements (orElse (get res "data") (JArr [])) with
      | inl e => throw e
      | inr items =>
          let all' := (all ++ items)%list in
          let cursor' := get res "nextCursor" in
          if truthy cursor' then collectPages page n all' cursor'
          else ret (Some all')
      end
  end.

Definition listWorkflowsAll (fuel : nat) (active : option bool) (name : option string)
    : Client (option (list jsval)) :=
  collectPages (fun cursor => listWorkflowsPaginated active cursor name) fuel [] JUndefined.

Definition createCredential (payload : jsval) : Client jsval :=
  request "POST" "credentials" payload.

Definition listCredentials : Client jsval :=
  res <- request "GET" "credentials" JUndefined ;;
  ret (orElse (get res "data") (JArr [])).

Definition notFoundText (err : thrown) : bool :=
  includes (String_of err) "404" || includes (String_of err) "not found".

Definition createWorkflow (workflow : jsval) (projectIdArg : option string) : Client jsval :=
  if truthyStr projectIdArg then
    try_catch
      (request "POST" ("projects/" ++ withDefault projectIdArg "" ++ "/workflows") workflow)
      (fun err =>
         if notFoundText err then request "POST" "workflows" workflow
         else throw err)
  else request "POST" "workflows" workflow.

Definition workflowPath (c : N8nClient) (rest : string) : string :=
  if truthyStr (projectId c)
  then "projects/" ++ withDefault (projectId c) "" ++ "/workflows/" ++ rest
  else "workflows/" ++ rest.

Definition getWorkflow (id : string) : Client jsval :=
  c <- this ;;
  let path := workflowPath c id in
  try_catch
    (request "GET" path JUndefined)
    (fun err =>
       c' <- this ;;
       if truthyStr (projectId c') && notFoundText err then
         request "GET" ("workflows/" ++ id) JUndefined
       else throw err).

Definition updateWorkflow (id : string) (workflow : jsval) : Client jsval :=
  c <- this ;;
  let path := workflowPath c id in
  try_catch
    (request "PUT" path workflow)
    (fun err =>
       c' <- this ;;
       if truthyStr (projectId c') && notFoundText err then
         request "PUT" ("workflows/" ++ id) workflow
       else throw err).

Fixpoint setProp (k : string) (x : jsval) (props : list (string * jsval))
    : list (string * jsval) :=
  match props with
  | [] => [(k, x)]
  | (k', v) :: rest =>
      if String.eqb k k' then (k', x) :: rest else (k', v) :: setProp k x rest
  end.

(** [{ ...w, name: newName }] for a workflow object [w] (or [undefined]). *)
Definition withName (w : jsval) (newName : string) : jsval :=
  JObj (setProp "name" (JStr newName)
          match w with JObj props => props | _ => [] end).

Definition renameWorkflow (id newName : string) : Client jsval :=
  w <- getWorkflow id ;;
  updateWorkflow id (withName w newName).

Definition deleteWorkflow (id : string) : Client jsval :=
  c <- this ;;
  let path := workflowPath c id in
  try_catch
    (request "DELETE" path JUndefined ;;; ret JUndefined)
    (fun err =>
       c' <- this ;;
       if truthyStr (projectId c') && notFoundText err then
         request "DELETE" ("workflows/" ++ id) JUndefined ;;; ret JUndefined
       else throw err).

Definition activateWorkflow (id : string) : Client jsval :=
  c <- this ;;
  let path := workflowPath c (id ++ "/activate") in
  try_catch
    (request "POST" path (JObj []) ;;; ret JUndefined)
    (fun err =>
       c' <- this ;;
       if truthyStr (projectId c') && notFoundText err then
         request "POST" ("workflows/" ++ id ++ "/activate") (JObj []) ;;; ret JUndefined
       else throw err).

Definition deactivateWorkflow (id : string) : Client jsval :=
  c <- this ;;
  let path := workflowPath c (id ++ "/deactivate") in
  try_catch
    (request "POST" path (JObj []) ;;; ret JUndefined)
    (fun err =>
       c' <- this ;;
       if truthyStr (projectId c') && notFoundText err then
         request "POST" ("workflows/" ++ id ++ "/deactivate") (JObj []) ;;; ret JUndefined
       else throw err).

(** *** Executions *)

Definition executionListParams (workflowId : option string) (cursor : jsval)
    (status : option string) : list (string * string) :=
  (if truthyStr workflowId then [("workflowId", withDefault workflowId "")] else []) ++
  (if truthy cursor then [("cursor", toStr cursor)] else []) ++
  (if truthyStr status then [("status", withDefault status "")] else []).

Definition listExecutionsPaginated (workflowId : option string) (cursor : jsval)
    (status : option string) : Client jsval :=
  let qs := queryString (executionListParams workflowId cursor status) in
  res <- request "GET" ("executions" ++ qs) JUndefined ;;
  ret (orElse res emptyPage).

Definition listExecutions (workflowId status : option string) : Client jsval :=
  res <- listExecutionsPaginated workflowId JUndefined status ;;
  ret (orElse (get res "data") (JArr [])).

Definition listExecutionsAll (fuel : nat) (workflowId status : option string)
    : Client (option (list jsval)) :=
  collectPages (fun cursor => listExecutionsPaginated workflowId cursor status) fuel [] JUndefined.

Definition ping : Client bool :=
  try_catch
    (listWorkflowsPaginated None JUndefined None ;;; ret true)
    (fun _ => ret false).

Definition getExecution (id : string) : Client jsval :=
  request "GET" ("executions/" ++ id) JUndefined.

Definition retryExecution (id : string) : Client jsval :=
  res <- request "POST" ("executions/" ++ id ++ "/retry") (JObj []) ;;
  let data := get res "data" in
  let executionId :=
    orElse (orElse (orElse (orElse (get data "id") (get data "executionId"))
                           (get res "id"))
                   (get res "executionId"))
           (JStr "") in
  if negb (truthy executionId) then
    throw (ThrownError (newError "Retry returned no execution ID"))
  else ret (JObj [("executionId", executionId)]).

Definition stopExecution (id : string) : Client jsval :=
  request "POST" ("executions/" ++ id ++ "/stop") (JObj []) ;;; ret JUndefined.

Definition deleteExecution (id : string) : Client jsval :=
  request "DELETE" ("executions/" ++ id) JUndefined ;;; ret JUndefined.

(** *** Tags, variables, audit, transfer *)

Definition dataOrArray (res : jsval) : jsval :=
  match res with
  | JArr _ => res
  | _ => orElse (get res "data") (JArr [])
  end.

Definition listTags : Client jsval :=
  res <- request "GET" "tags" JUndefined ;; ret (dataOrArray res).

Definition audit (options : jsval) : Client jsval :=
  request "POST" "audit" (orElse options (JObj [])).

Definition listVariables : Client jsval :=
  res <- request "GET" "variables" JUndefined ;; ret (dataOrArray res).

Definition createTag (name : string) : Client jsval :=
  request "POST" "tags" (JObj [("name", JStr name)]).

Definition getWorkflowTags (workflowId : string) : Client jsval :=
  res <- request "GET" ("workflows/" ++ workflowId ++ "/tags") JUndefined ;;
  ret (orElse (get res "data") (JArr [])).

Definition updateWorkflowTags (workflowId : string) (tagIds : list string) : Client jsval :=
  res <- request "PUT" ("workflows/" ++ workflowId ++ "/tags")
                 (JObj [("tagIds", JArr (map JStr tagIds))]) ;;
  ret (orElse (get res "data") (JArr [])).

Definition transferWorkflow (workflowId destinationProjectId : string) : Client jsval :=
  request "PUT" ("workflows/" ++ workflowId ++ "/transfer")
          (JObj [("destinationProjectId", JStr destinationProjectId)]) ;;;
  ret JUndefined.

(** *** Running a workflow *)

Definition extractId (res : jsval) : jsval :=
  orElse (orElse (orElse (get (get res "data") "executionId")
                         (get (get res "data") "id"))
                 (get res "id"))
         (JStr "").

Definition noExecutionIdError (c : N8nClient) : thrown :=
  ThrownError (newError
    ("Workflow run returned no execution ID. Check " ++ baseUrl c ++
     "/api/v1/docs for the correct endpoint.")).

Definition runWorkflow (workflowId : string) (data : jsval) : Client jsval :=
  let body := if truthy data then [("data", data)] else [] in
  let runPath := "workflows/" ++ workflowId ++ "/run" in
  let execBody := JObj (("workflowId", JStr workflowId) :: body) in
  found <-
    try_catch
      (res <- request "POST" runPath (JObj body) ;;
       let executionId := extractId res in
       if truthy executionId then ret (Some executionId) else ret None)
      (fun _ =>
         res <- request "POST" "executions" execBody ;;
         let executionId := extractId res in
         if truthy executionId then ret (Some executionId) else ret None) ;;
  match found with
  | Some executionId => ret (JObj [("executionId", executionId)])
  | None => c <- this ;; throw (noExecutionIdError c)
  end.

End Engine.

Arguments State W : clear implicits.
Arguments Client W A : clear implicits.

(** ** Configuration loading: [loadConfig] *)

Section LoadConfig.

Context {W : Type} {P : Platform W}.

(** [process.env.NAME?.trim()] *)
Definition envTrimmed (name : string) : option string :=
  option_map String_trim (env name).

Definition CONFIG_ERROR : string :=
  "Failed to load n8n config. Use N8N_BASE_URL + N8N_API_KEY env vars, or create config/n8n-config.local.json with { "
  ++ dq ++ "baseUrl" ++ dq ++ ": " ++ dq ++ "..." ++ dq ++ ", "
  ++ dq ++ "apiKey" ++ dq ++ ": " ++ dq ++ "..." ++ dq
  ++ " }. Use N8N_CONFIG_FILE for a specific config file.".

Definition configHint : string :=
  if includes cwd "n8n-tools" || includes cwd "n8n-cli" then
    " Create config/n8n-config.local.json in " ++ path_basename cwd ++
    " (copy from config/n8n-config.example.json)."
  else "".

Definition configCandidates : list string :=
  [cwd; path_resolve cwd [".."]; path_resolve module_dirname [".."];
   path_resolve module_dirname [".."; ".."]].

Definition configNames : list string :=
  let configFile := envTrimmed "N8N_CONFIG_FILE" in
  if truthyStr configFile then [withDefault configFile ""]
  else ["config/n8n-config.local.json"; "config/n8n-config.json"].

Definition configPathOf (rootDir name : string) : string :=
  if path_isAbsolute name then name else path_join rootDir name.

(** The body of the inner loop: [Some config] when it returns, [None] when
    anything in the [try] throws and the loop continues. *)
Definition readConfigAt (configPath : string) : option jsval :=
  match readFile configPath with
  | None => None
  | Some content =>
      match JSON_parse content with
      | inl _ => None
      | inr config =>
          if nullish config then None
          else if negb (truthy (get config "baseUrl")) || negb (truthy (get config "apiKey"))
          then None
          else Some config
      end
  end.

Fixpoint searchNames (rootDir : string) (names : list string) : option jsval :=
  match names with
  | [] => None
  | name :: rest =>
      match readConfigAt (configPathOf rootDir name) with
      | Some config => Some config
      | None => searchNames rootDir rest
      end
  end.

Fixpoint searchRoots (roots names : list string) : option jsval :=
  match roots with
  | [] => None
  | rootDir :: rest =>
      match searchNames rootDir names with
      | Some config => Some config
      | None => searchRoots rest names
      end
  end.

Definition loadConfig : thrown + jsval :=
  let baseUrl := envTrimmed "N8N_BASE_URL" in
  let apiKey := envTrimmed "N8N_API_KEY" in
  if truthyStr baseUrl && truthyStr apiKey then
    inr (JObj
      [("baseUrl", JStr (withDefault baseUrl ""));
       ("apiKey", JStr (withDefault apiKey ""));
       ("projectId",
         let p := envTrimmed "N8N_PROJECT_ID" in
         if truthyStr p then JStr (withDefault p "") else JUndefined);
       ("rejectUnauthorized",
         JBool (negb match env "N8N_REJECT_UNAUTHORIZED" with
                     | Some v => String.eqb v "false"
                     | None => false
                     end))])
  else
    match searchRoots configCandidates configNames with
    | Some config => inr config
    | None => inl (ThrownError (newError (CONFIG_ERROR ++ configHint)))
    end.

End LoadConfig.

(** ** A scripted host

    A host whose transport answers from a fixed script, one outcome per
    attempt, as the unit tests stub [fetch]; used to run the client on
    concrete scenarios. *)

Fixpoint stringifyWith (quote : string -> string) (v : jsval) : string :=
  match v with
  | JUndefined | JNull => "null"
  | JBool true => "true"
  | JBool false => "false"
  | JNum n => Z_to_string n
  | JStr s => quote s
  | JArr items => "[" ++ String.concat "," (map (stringifyWith quote) items) ++ "]"
  | JObj props =>
      "{" ++ String.concat ","
               (map (fun kv => quote (fst kv) ++ ":" ++ stringifyWith quote (snd kv)) props)
          ++ "}"
  end.

(** JSON text of a value whose strings need no escaping. *)
Definition stringify (v : jsval) : string :=
  stringifyWith (fun s => dq ++ s ++ dq) v.

Definition syntaxError : JsError :=
  mkError "SyntaxError" "Unexpected token in JSON" None None.

(** [JSON.parse] on the texts of the values [known]; a syntax error on
    every other text. *)
Fixpoint parseKnown (known : list jsval) (text : string) : JsError + jsval :=
  match known with
  | [] => inl syntaxError
  | v :: rest => if String.eqb (stringify v) text then inr v else parseKnown rest text
  end.

Definition fetchFailed : thrown :=
  ThrownError (mkError "TypeError" "fetch failed" None None).

Definition scriptedFetch (_ : Request) (script : list FetchOutcome)
    : FetchOutcome * list FetchOutcome :=
  match script with
  | outcome :: rest => (outcome, rest)
  | [] => (Rejected fetchFailed, [])
  end.

Fixpoint assoc (k : string) (table : list (string * string)) : option string :=
  match table with
  | [] => None
  | (k', v) :: rest => if String.eqb k k' then Some v else assoc k rest
  end.

Definition isSpace (c : ascii) : bool :=
  match c with
  | " "%char | "009"%char | "010"%char | "011"%char | "012"%char | "013"%char => true
  | _ => false
  end.

Fixpoint trimStart (s : string) : string :=
  match s with
  | String c s' => if isSpace c then trimStart s' else s
  | EmptyString => EmptyString
  end.

Fixpoint trimEnd (s : string) : string :=
  match s with
  | EmptyString => EmptyString
  | String c s' =>
      let t := trimEnd s' in
      if isSpace c && negb (nonEmpty t) then EmptyString else String c t
  end.

(** Last component of a slash-separated path. *)
Fixpoint basename (p : string) : string :=
  match p with
  | EmptyString => EmptyString
  | String c p' =>
      if includes p' "/" then basename p'
      else if Ascii.eqb c "/"%char then p' else p
  end.

Definition Scripted (known : list jsval) (vars files : list (string * string))
    : Platform (list FetchOutcome) :=
  {| fetch := scriptedFetch;
     JSON_parse := parseKnown known;
     formEncode := fun s => s;
     env := fun name => assoc name vars;
     String_trim := fun s => trimEnd (trimStart s);
     readFile := fun path => assoc path files;
     cwd := "/work";
     module_dirname := "/opt/n8n-cli/dist";
     path_resolve := fun base segments => String.concat "/" (base :: segments);
     path_isAbsolute := fun p => startsWith p "/";
     path_join := fun a b => a ++ "/" ++ b;
     path_basename := basename |}.

(** ** Vocabulary of the properties *)

Section Vocabulary.

Context {W : Type} {P : Platform W}.

(** The transport call and the single attempt [request method path body]
    makes on client [c]. *)
Definition requestOf (c : N8nClient) (method path : string) (body : jsval) : Request :=
  fetchOptionsFor c method (getUrl c path) (requestHeaders c body) body hasProxy.

Definition attemptOf (c : N8nClient) (method path : string) (body : jsval) : Client W jsval :=
  doRequest method path (getUrl c path) (requestHeaders c body) body hasProxy.

(** The state after [this.log(...args)] on client [c]. *)
Definition noted (c : N8nClient) (args : list jsval) (s : State W) : State W :=
  if debug c then say (debugLine args) s else s.

(** What [this.log(...args)] writes on client [c]. *)
Definition notes (c : N8nClient) (args : list jsval) : list Printed :=
  if debug c then [debugLine args] else [].

(** The [message] of an error that is not [undefined] or [null]. *)
Definition messageArg (err : thrown) : jsval :=
  match err with
  | ThrownError e => JStr (err_message e)
  | ThrownValue v => get v "message"
  end.

(** What is logged before the delay that follows the failed attempt [k]. *)
Definition retryNote (c : N8nClient) (k : Z) (err : thrown) : list jsval :=
  [JStr ("Retry " ++ Z_to_string (k + 1) ++ "/" ++ Z_to_string (retries c) ++ " in "
           ++ Z_to_string (backoff k) ++ "ms:");
   messageArg err].

(** The body of a response can be returned as JSON: it is empty, or
    [JSON.parse] accepts it. *)
Definition parses (text : string) : bool :=
  negb (nonEmpty text) ||
  match JSON_parse text with
  | inr _ => true
  | inl _ => false
  end.

(** What one attempt writes to the console: with [debug] set, the call
    before it is made and, for a JSON response that is [ok] and parsed, the
    status after it. *)
Definition attemptLines (c : N8nClient) (method path : string) (outcome : FetchOutcome)
    : list Printed :=
  if debug c then
    debugLine [JStr (method ++ " " ++ path)] ::
    match outcome with
    | Resolved res =>
        if res_ok res && isJsonContentType (res_contentType res) && parses (res_text res)
        then [debugLine [JStr (method ++ " " ++ path ++ " -> "
                                 ++ Z_to_string (res_status res))]]
        else []
    | Rejected _ => []
    end
  else [].

(** The events of [attempts] consecutive failed-then-retried transport
    attempts starting at attempt index [k]: a delay of [backoff] of the
    index after every attempt but the last. *)
Fixpoint schedule (req : Request) (attempts : nat) (k : Z) : list Event :=
  match attempts with
  | O => []
  | S n =>
      Fetched req ::
      match n with
      | O => []
      | S _ => Slept (backoff k) :: schedule req n (k + 1)
      end
  end.

(** [Attempts c once k s j out]: from state [s], at attempt index [k], the
    retry loop makes [j] attempts and ends with [out], the outcome of the
    last of them.  An attempt is followed by another exactly when it
    threw, its index is below [retries] and its error is retryable; the
    retry is logged, then the delay is waited for. *)
Inductive Attempts (c : N8nClient) (once : Client W jsval)
    : Z -> State W -> nat -> (thrown + jsval) * State W -> Prop :=
| Attempts_returned : forall k s v s',
    once s = (inr v, s') ->
    Attempts c once k s 1 (inr v, s')
| Attempts_thrown : forall k s e s',
    once s = (inl e, s') ->
    ((k <? retries c) && isRetryable e (status_of e)) = false ->
    Attempts c once k s 1 (inl e, s')
| Attempts_retried : forall k s e s1 j out,
    once s = (inl e, s1) ->
    ((k <? retries c) && isRetryable e (status_of e)) = true ->
    Attempts c once (k + 1)
             (record (Slept (backoff k)) (noted c (retryNote c k e) s1)) j out ->
    Attempts c once k s (S j) out.

Fixpoint fetches (evs : list Event) : list Request :=
  match evs with
  | [] => []
  | Fetched r :: rest => r :: fetches rest
  | Slept _ :: rest => fetches rest
  end.

Fixpoint delays (evs : list Event) : list Z :=
  match evs with
  | [] => []
  | Fetched _ :: rest => delays rest
  | Slept ms :: rest => ms :: delays rest
  end.

(** [extends c Q s s']: [s'] is [s] with the same client object [c] and
    with further events, all satisfying [Q]. *)
Definition extends (c : N8nClient) (Q : Event -> Prop) (s s' : State W) : Prop :=
  self s' = c /\ exists evs, trace s' = (trace s ++ evs)%list /\ Forall Q evs.

(** Every run of [m] on client [c] leaves [c] as it is and only adds
    events satisfying [Q]. *)
Definition stable {A : Type} (c : N8nClient) (Q : Event -> Prop) (m : Client W A) : Prop :=
  forall s, self s = c -> extends c Q s (snd (m s)).

(** *** The primary family and its scoped paths *)

Inductive PrimaryOp : Type :=
| ListWorkflows (active : option bool) (cursor : jsval) (name : option string)
| CreateWorkflow (workflow : jsval) (projectIdArg : option string)
| GetWorkflow (id : string)
| UpdateWorkflow (id : string) (workflow : jsval)
| DeleteWorkflow (id : string)
| ActivateWorkflow (id : string)
| DeactivateWorkflow (id : string).

Definition perform (op : PrimaryOp) : Client W jsval :=
  match op with
  | ListWorkflows active cursor name => listWorkflowsPaginated active cursor name
  | CreateWorkflow workflow projectIdArg => createWorkflow workflow projectIdArg
  | GetWorkflow id => getWorkflow id
  | UpdateWorkflow id workflow => updateWorkflow id workflow
  | DeleteWorkflow id => deleteWorkflow id
  | ActivateWorkflow id => activateWorkflow id
  | DeactivateWorkflow id => deactivateWorkflow id
  end.

Definition op_method (op : PrimaryOp) : string :=
  match op with
  | ListWorkflows _ _ _ | GetWorkflow _ => "GET"
  | CreateWorkflow _ _ | ActivateWorkflow _ | DeactivateWorkflow _ => "POST"
  | UpdateWorkflow _ _ => "PUT"
  | DeleteWorkflow _ => "DELETE"
  end.

(** What follows [workflows] in the path of the operation. *)
Definition op_rest (op : PrimaryOp) : string :=
  match op with
  | ListWorkflows active cursor name => queryString (workflowListParams active cursor name)
  | CreateWorkflow _ _ => ""
  | GetWorkflow id | UpdateWorkflow id _ | DeleteWorkflow id => "/" ++ id
  | ActivateWorkflow id => "/" ++ id ++ "/activate"
  | DeactivateWorkflow id => "/" ++ id ++ "/deactivate"
  end.

Definition op_body (op : PrimaryOp) : jsval :=
  match op with
  | ListWorkflows _ _ _ | GetWorkflow _ | DeleteWorkflow _ => JUndefined
  | CreateWorkflow workflow _ | UpdateWorkflow _ workflow => workflow
  | ActivateWorkflow _ | DeactivateWorkflow _ => JObj []
  end.

(** What the operation makes of the body a request returned. *)
Definition op_result (op : PrimaryOp) (v : jsval) : jsval :=
  match op with
  | ListWorkflows _ _ _ => orElse v emptyPage
  | CreateWorkflow _ _ | GetWorkflow _ | UpdateWorkflow _ _ => v
  | DeleteWorkflow _ | ActivateWorkflow _ | DeactivateWorkflow _ => JUndefined
  end.

(** The scope an operation addresses: the profile's, except for create,
    which is scoped by its own argument. *)
Definition op_scope (c : N8nClient) (op : PrimaryOp) : option string :=
  match op with
  | CreateWorkflow _ projectIdArg => projectIdArg
  | _ => projectId c
  end.

(** The text test that sends an operation to the unscoped path. *)
Definition fallsBack (op : PrimaryOp) (err : thrown) : bool :=
  match op with
  | ListWorkflows _ _ _ => includes (String_of err) "404"
  | _ => includes (String_of err) "404" || includes (String_of err) "not found"
  end.

Definition scopedPath (pid : string) (op : PrimaryOp) : string :=
  "projects/" ++ pid ++ "/workflows" ++ op_rest op.

Definition unscopedPath (op : PrimaryOp) : string := "workflows" ++ op_rest op.

Definition liftResult (f : jsval -> jsval) (out : (thrown + jsval) * State W)
    : (thrown + jsval) * State W :=
  match out with
  | (inr v, s) => (inr (f v), s)
  | (inl e, s) => (inl e, s)
  end.

(** The fallback as the specification words it: the scoped request first;
    when it throws and the error passes [fallsBack], one unscoped request,
    whose outcome is the outcome of the operation; any other error is
    thrown on without a further request. *)
Definition scopedThenUnscoped (op : PrimaryOp) (pid : string) (s : State W)
    : (thrown + jsval) * State W :=
  match request (op_method op) (scopedPath pid op) (op_body op) s with
  | (inr v, s1) => (inr (op_result op v), s1)
  | (inl err, s1) =>
      if fallsBack op err then
        liftResult (op_result op)
          (request (op_method op) (unscopedPath op) (op_body op) s1)
      else (inl err, s1)
  end.

(** The error [doRequest] throws for a response that is not [ok]. *)
Definition apiError (status : Z) (text : string) : thrown :=
  ThrownError (withStatus (parseApiError status text) status).

(** What one attempt makes of a transport outcome: the value it returns, or
    the error it throws (through the [catch] that turns an [AbortError]
    into the timeout error). *)
Definition rethrown (c : N8nClient) (err : thrown) : thrown :=
  if isAbortError err then timeoutError (timeoutMs c) else err.

Definition settle (c : N8nClient) (outcome : FetchOutcome) : thrown + jsval :=
  match outcome with
  | Rejected e => inl (rethrown c e)
  | Resolved res =>
      if negb (res_ok res) then inl (apiError (res_status res) (res_text res))
      else if isJsonContentType (res_contentType res) then
        if nonEmpty (res_text res) then
          match JSON_parse (res_text res) with
          | inr data => inr data
          | inl e => inl (rethrown c (ThrownError e))
          end
        else inr JUndefined
      else inr JUndefined
  end.

(** *** The executions family and the whole interface *)

Inductive ExecutionOp : Type :=
| ListExecutionsPage (workflowId : option string) (cursor : jsval) (status : option string)
| ListExecutions (workflowId status : option string)
| ListExecutionsAll (fuel : nat) (workflowId status : option string)
| GetExecution (id : string)
| RetryExecution (id : string)
| StopExecution (id : string)
| DeleteExecution (id : string).

Definition some {A : Type} (m : Client W A) (f : A -> jsval) : Client W (option jsval) :=
  x <- m ;; ret (Some (f x)).

Definition performExecution (op : ExecutionOp) : Client W (option jsval) :=
  match op with
  | ListExecutionsPage workflowId cursor status =>
      some (listExecutionsPaginated workflowId cursor status) (fun v => v)
  | ListExecutions workflowId status => some (listExecutions workflowId status) (fun v => v)
  | ListExecutionsAll fuel workflowId status =>
      all <- listExecutionsAll fuel workflowId status ;; ret (option_map JArr all)
  | GetExecution id => some (getExecution id) (fun v => v)
  | RetryExecution id => some (retryExecution id) (fun v => v)
  | StopExecution id => some (stopExecution id) (fun v => v)
  | DeleteExecution id => some (deleteExecution id) (fun v => v)
  end.

(** Every public method of the client.  The result is [None] only for a
    "list all" loop cut short by its fuel. *)
Inductive Operation : Type :=
| Primary (op : PrimaryOp)
| Execution (op : ExecutionOp)
| ListWorkflowsData (active : option bool) (name : option string)
| ListWorkflowsAll (fuel : nat) (active : option bool) (name : option string)
| RenameWorkflow (id newName : string)
| CreateCredential (payload : jsval)
| ListCredentials
| Ping
| ListTags
| Audit (options : jsval)
| ListVariables
| CreateTag (name : string)
| GetWorkflowTags (workflowId : string)
| UpdateWorkflowTags (workflowId : string) (tagIds : list string)
| TransferWorkflow (workflowId destinationProjectId : string)
| RunWorkflow (workflowId : string) (data : jsval).

Definition run (op : Operation) : Client W (option jsval) :=
  match op with
  | Primary p => some (perform p) (fun v => v)
  | Execution e => performExecution e
  | ListWorkflowsData active name => some (listWorkflows active name) (fun v => v)
  | ListWorkflowsAll fuel active name =>
      all <- listWorkflowsAll fuel active name ;; ret (option_map JArr all)
  | RenameWorkflow id newName => some (renameWorkflow id newName) (fun v => v)
  | CreateCredential payload => some (createCredential payload) (fun v => v)
  | ListCredentials => some listCredentials (fun v => v)
  | Ping => some ping JBool
  | ListTags => some listTags (fun v => v)
  | Audit options => some (audit options) (fun v => v)
  | ListVariables => some listVariables (fun v => v)
  | CreateTag name => some (createTag name) (fun v => v)
  | GetWorkflowTags workflowId => some (getWorkflowTags workflowId) (fun v => v)
  | UpdateWorkflowTags workflowId tagIds =>
      some (updateWorkflowTags workflowId tagIds) (fun v => v)
  | TransferWorkflow workflowId dest => some (transferWorkflow workflowId dest) (fun v => v)
  | RunWorkflow workflowId data => some (runWorkflow workflowId data) (fun v => v)
  end.

(** A URL under the project collection of the API. *)
Definition isScopedUrl (c : N8nClient) (url : string) : bool :=
  startsWith url (getUrl c "projects/").

(** A URL under the workflows of project [pid]. *)
Definition scopedTo (c : N8nClient) (pid : option string) (url : string) : bool :=
  match pid with
  | Some p => startsWith url (getUrl c ("projects/" ++ p ++ "/workflows"))
  | None => false
  end.

(** The transport call [ev], if it is one, is unscoped or scoped by [pid]. *)
Definition scopedOnlyBy (c : N8nClient) (pid : option string) (ev : Event) : Prop :=
  match ev with
  | Fetched r => isScopedUrl c (req_url r) = false \/ scopedTo c pid (req_url r) = true
  | Slept _ => True
  end.

(** The scope that may appear in the calls of an operation. *)
Definition scopeOf (c : N8nClient) (op : Operation) : option string :=
  match op with
  | Primary p => op_scope c p
  | _ => projectId c
  end.

Definition isExecutionsUrl (c : N8nClient) (ev : Event) : Prop :=
  match ev with
  | Fetched r => startsWith (req_url r) (getUrl c "executions") = true
  | Slept _ => True
  end.

(** The texts [isRetryable] looks for in [String(err)]. *)
Definition retrySignatures : list string :=
  ["timed out"; "AbortError"; "ECONNRESET"; "ETIMEDOUT"; "fetch failed"].

(** The first of [candidates] that is neither [undefined] nor [null]. *)
Fixpoint firstPresent (candidates : list jsval) (default : jsval) : jsval :=
  match candidates with
  | [] => default
  | x :: rest => if nullish x then firstPresent rest default else x
  end.

(** What [runWorkflow] makes of a response body. *)
Definition runOutcome (c : N8nClient) (res : jsval) : thrown + jsval :=
  if truthy (extractId res) then inr (JObj [("executionId", extractId res)])
  else inl (noExecutionIdError c).

(** *** Pages *)

(** [Serves page cursor s pages s']: called from [s] with [cursor] and then
    with each returned next cursor, the paginated primitive returns, one
    after the other, pages holding the records [pages]; all but the last
    carry a next cursor, the last does not; [s'] is the state after it. *)
Inductive Serves (page : jsval -> Client W jsval)
    : jsval -> State W -> list (list jsval) -> State W -> Prop :=
| Serves_last : forall cursor s res s' items,
    page cursor s = (inr res, s') ->
    spreadElements (orElse (get res "data") (JArr [])) = inr items ->
    truthy (get res "nextCursor") = false ->
    Serves page cursor s [items] s'
| Serves_more : forall cursor s res s1 items rest s',
    page cursor s = (inr res, s1) ->
    spreadElements (orElse (get res "data") (JArr [])) = inr items ->
    truthy (get res "nextCursor") = true ->
    Serves page (get res "nextCursor") s1 rest s' ->
    Serves page cursor s (items :: rest) s'.

(** *** Responses *)

(** The message of an API error as the specification words it: the
    [message] field of the JSON body, else its [error.message] field, else
    the raw text (also when the body is not JSON). *)
Definition bestEffortMessage (text : string) : string :=
  match JSON_parse text with
  | inl _ => text
  | inr json =>
      if negb (nullish (get json "message")) then toStr (get json "message")
      else if negb (nullish (get (get json "error") "message"))
           then toStr (get (get json "error") "message")
           else text
  end.

(** *** Configuration sources *)

(** The files [loadConfig] tries, in the order it tries them. *)
Definition candidatePaths : list string :=
  flat_map (fun rootDir => map (configPathOf rootDir) configNames) configCandidates.

(** The first of [paths] that holds a valid configuration. *)
Fixpoint firstConfig (paths : list string) : option jsval :=
  match paths with
  | [] => None
  | p :: rest =>
      match readConfigAt p with
      | Some config => Some config
      | None => firstConfig rest
      end
  end.

(** The object built from the environment variables. *)
Definition envConfig (baseUrl apiKey : string) : jsval :=
  JObj [("baseUrl", JStr baseUrl);
        ("apiKey", JStr apiKey);
        ("projectId",
          match envTrimmed "N8N_PROJECT_ID" with
          | Some p => if nonEmpty p then JStr p else JUndefined
          | None => JUndefined
          end);
        ("rejectUnauthorized",
          JBool (negb match env "N8N_REJECT_UNAUTHORIZED" with
                      | Some v => String.eqb v "false"
                      | None => false
                      end))].

End Vocabulary.

(** ** Concrete scenarios on the scripted host *)

Definition okJson (v : jsval) : FetchOutcome :=
  Resolved (mkResponse 200 (Some "application/json") (stringify v)).

Definition failed (status : Z) (text : string) : FetchOutcome :=
  Resolved (mkResponse status (Some "text/plain") text).

Definition exampleClient (pid : option string) (retries : Z) : N8nClient :=
  new_N8nClient (mkConfig "https://n8n.example.com/" "key" None pid None (Some retries) None).

Definition start (c : N8nClient) (script : list FetchOutcome) : State (list FetchOutcome) :=
  mkState c script [] [].

(** The JSON text of [{data: []}]. *)
Definition emptyPageText : string := "{" ++ dq ++ "data" ++ dq ++ ":[]}".

Definition execResponse : jsval := JObj [("data", JObj [("id", JStr "exec-2")])].

Definition recA : jsval := JObj [("id", JStr "A")].
Definition recB : jsval := JObj [("id", JStr "B")].
Definition recC : jsval := JObj [("id", JStr "C")].
Definition page1 : jsval := JObj [("data", JArr [recA; recB]); ("nextCursor", JStr "c1")].
Definition page2 : jsval := JObj [("data", JArr [recC])].

Definition Host : Platform (list FetchOutcome) :=
  Scripted [emptyPage; execResponse; page1; page2; recA] [] [].

Definition overridePath : string := "/nonexistent/override.json".

Definition HostWithOverride : Platform (list FetchOutcome) :=
  Scripted [] [("N8N_CONFIG_FILE", overridePath)] [].

Definition HostWithEnv : Platform (list FetchOutcome) :=
  Scripted [] [("N8N_BASE_URL", " https://n8n.example.com "); ("N8N_API_KEY", "key");
               ("N8N_REJECT_UNAUTHORIZED", "no")] [].

(** A refused connection as the [fetch] of Node reports it. *)
Definition connectionRefused : thrown :=
  ThrownError (mkError "TypeError" "fetch failed" None
                 (Some (causedBy "connect ECONNREFUSED 127.0.0.1:5678"
                                 (Some "ECONNREFUSED")))).

(** ** Further vocabulary: what every call carries *)

Section CallVocabulary.

Context {W : Type} {P : Platform W}.

(** The transport call [ev], if it is one, goes to the API of the profile's
    server and is authenticated with the profile's key; it announces a JSON
    body exactly when it has one. *)
Definition carriesProfile (c : N8nClient) (ev : Event) : Prop :=
  match ev with
  | Fetched r =>
      startsWith (req_url r) (baseUrl c ++ "/api/v1/") = true /\
      In ("Accept", "application/json") (req_headers r) /\
      In ("X-N8N-API-KEY", apiKey c) (req_headers r) /\
      (In ("Content-Type", "application/json") (req_headers r) <-> req_body r <> None)
  | Slept _ => True
  end.

(** The transport call [ev], if it is one, is handed the dispatcher option
    the profile and the proxy variables call for: none without proxy
    variable on a profile with [rejectUnauthorized] set; the proxy agent
    when a proxy variable is set, and the plain agent when none is, built
    with [connect: { rejectUnauthorized: false }] exactly when the profile
    has [rejectUnauthorized] false. *)
Definition dispatchedAsConfigured (c : N8nClient) (ev : Event) : Prop :=
  match ev with
  | Fetched r =>
      match req_dispatcher r with
      | DefaultDispatcher => hasProxy = false /\ rejectUnauthorized c = true
      | EnvHttpProxyAgent insecure =>
          hasProxy = true /\ insecure = negb (rejectUnauthorized c)
      | InsecureAgent => hasProxy = false /\ rejectUnauthorized c = false
      end
  | Slept _ => True
  end.

(** The list a response stands for: its [data] when that is there, the
    empty list when it is missing or [null], also for a response without
    body. *)
Definition dataList (res : jsval) : jsval :=
  if nullish (get res "data") then JArr [] else get res "data".

(** The same for an endpoint that may answer with the bare array. *)
Definition listOrDataList (res : jsval) : jsval :=
  match res with
  | JArr _ => res
  | _ => dataList res
  end.

(** The page a response stands for: the body as it is when there is one,
    and a page without records when there is none. *)
Definition pageOf (res : jsval) : jsval :=
  if nullish res then JObj [("data", JArr [])] else res.

(** Sum of the delays of a run. *)
Definition totalDelay (evs : list Event) : Z := fold_right Z.add 0 (delays evs).

End CallVocabulary.

(** A host whose transport rejects every call with [e]. *)
Definition Down (e : thrown) : Platform unit :=
  {| fetch := fun _ w => (Rejected e, w);
     JSON_parse := fun _ => inl syntaxError;
     formEncode := fun s => s;
     env := fun _ => None;
     String_trim := fun s => trimEnd (trimStart s);
     readFile := fun _ => None;
     cwd := "/work";
     module_dirname := "/opt/n8n-cli/dist";
     path_resolve := fun base segments => String.concat "/" (base :: segments);
     path_isAbsolute := fun p => startsWith p "/";
     path_join := fun a b => a ++ "/" ++ b;
     path_basename := basename |}.

Definition abortError : thrown :=
  ThrownError (mkError "AbortError" "This operation was aborted" None None).

(** ** The command line ([src/cli.ts]) *)

(** [items.find((w) => w.key === value)] for a string [value]; [None] is
    [undefined], nothing found. *)
Fixpoint findByProp (key value : string) (items : list jsval) : thrown + option jsval :=
  match items with
  | [] => inr None
  | w :: rest =>
      match prop w key with
      | inl e => inl e
      | inr (JStr s) => if String.eqb s value then inr (Some w) else findByProp key value rest
      | inr _ => findByProp key value rest
      end
  end.

(** [workflows.find(...)]: only an array has a [find] method. *)
Definition findIn (workflows : jsval) (key value : string) : thrown + option jsval :=
  match workflows with
  | JArr items => findByProp key value items
  | _ => inl (typeError "workflows.find is not a function")
  end.

(** What [resolveWorkflowId] makes of the list of workflows. *)
Definition pickWorkflowId (workflows : jsval) (idOrName : string) : thrown + jsval :=
  match findIn workflows "id" idOrName with
  | inl e => inl e
  | inr (Some byId) => inr (get byId "id")
  | inr None =>
      match findIn workflows "name" idOrName with
      | inl e => inl e
      | inr (Some byName) => inr (orElse (get byName "id") (JStr idOrName))
      | inr None => inr (JStr idOrName)
      end
  end.

(** How a command ends: it returns, throws, ends the process with
    [process.exit(code)], or is still following next cursors when the fuel
    of a "list all" loop runs out. *)
Inductive Outcome (A : Type) : Type :=
| Returned (a : A)
| Threw (e : thrown)
| Exited (code : Z)
| Unfinished.

Arguments Returned {A} a.
Arguments Threw {A} e.
Arguments Exited {A} code.
Arguments Unfinished {A}.

Section CommandLine.

Context {W : Type} {P : Platform W}.

Definition resolveWorkflowId (idOrName : string) : Client W jsval :=
  if negb (nonEmpty idOrName) then ret (JStr "")
  else
    workflows <- listWorkflows None None ;;
    match pickWorkflowId workflows idOrName with
    | inl e => throw e
    | inr id => ret id
    end.

(** A command runs on the state of the client, console included. *)
Definition Cli (A : Type) : Type := State W -> Outcome A * State W.

Definition cret {A : Type} (a : A) : Cli A := fun s => (Returned a, s).

Definition cthrow {A : Type} (e : thrown) : Cli A := fun s => (Threw e, s).

Definition cbind {A B : Type} (m : Cli A) (k : A -> Cli B) : Cli B :=
  fun s =>
    match m s with
    | (Returned a, s') => k a s'
    | (Threw e, s') => (Threw e, s')
    | (Exited code, s') => (Exited code, s')
    | (Unfinished, s') => (Unfinished, s')
    end.

(** [try { m } catch (err) { h err }]; the end of the process is not caught. *)
Definition ctry {A : Type} (m : Cli A) (h : thrown -> Cli A) : Cli A :=
  fun s =>
    match m s with
    | (Threw e, s') => h e s'
    | other => other
    end.

(** [console.log(...args)] on [Stdout], [console.error(...args)] on [Stderr]. *)
Definition print (on : Stream) (args : list jsval) : Cli unit :=
  fun s => (Returned tt, say (mkPrinted on args) s).

(** [process.exit(code)] *)
Definition exit {A : Type} (code : Z) : Cli A := fun s => (Exited code, s).

(** [await client.method(...)] *)
Definition await {A : Type} (m : Client W A) : Cli A :=
  fun s =>
    match m s with
    | (inr a, s') => (Returned a, s')
    | (inl e, s') => (Threw e, s')
    end.

(** [await client.listWorkflowsAll(...)], with the fuel of the loop. *)
Definition awaitAll {A : Type} (m : Client W (option A)) : Cli A :=
  fun s =>
    match m s with
    | (inr (Some a), s') => (Returned a, s')
    | (inr None, s') => (Unfinished, s')
    | (inl e, s') => (Threw e, s')
    end.

(** A value computed without effect, which may throw. *)
Definition evaluated {A : Type} (r : thrown + A) : Cli A :=
  match r with
  | inl e => cthrow e
  | inr a => cret a
  end.

(** The body of the [for (const w of ...)] loops of [activateAllWorkflows]
    and [deactivateAllWorkflows], which differ in the client method they
    call: [switch] is [client.activateWorkflow] or
    [client.deactivateWorkflow]. *)
Definition switchOne (switch : string -> Client W jsval) (w : jsval) (ok : Z) : Cli Z :=
  ctry
    (cbind (evaluated (prop w "id")) (fun id =>
     cbind (await (switch (toStr id))) (fun _ =>
     cbind (evaluated (prop w "name")) (fun name =>
     cbind (print Stdout [JStr ("  ✓ " ++ toStr name)]) (fun _ =>
     cret (ok + 1))))))
    (fun err =>
     cbind (evaluated (prop w "name")) (fun name =>
     cbind (evaluated (messageField err)) (fun message =>
     cbind (print Stderr [JStr ("  ✗ " ++ toStr name ++ ": " ++ toStr message)]) (fun _ =>
     cret ok)))).

Fixpoint switchEach (switch : string -> Client W jsval) (ws : list jsval) (ok : Z) : Cli Z :=
  match ws with
  | [] => cret ok
  | w :: rest => cbind (switchOne switch w ok) (fun ok' => switchEach switch rest ok')
  end.

Definition countOf (done : string) (ok : Z) (total : list jsval) : jsval :=
  JStr (String "010" "  " ++ done ++ " " ++ Z_to_string ok ++ "/"
          ++ Z_to_string (Z.of_nat (List.length total)) ++ " workflow(s)" ++ String "010" "").

Definition activateAllWorkflows (fuel : nat) : Cli unit :=
  cbind (print Stdout [JStr (String "010" "🟢 Activating all workflows..." ++ String "010" "")])
    (fun _ =>
  cbind (awaitAll (listWorkflowsAll fuel (Some false) None)) (fun inactive =>
  match inactive with
  | [] => print Stdout [JStr ("  No inactive workflows to activate." ++ String "010" "")]
  | _ =>
      cbind (switchEach activateWorkflow inactive 0) (fun ok =>
      print Stdout [countOf "Activated" ok inactive])
  end)).

Definition deactivateAllWorkflows (fuel : nat) : Cli unit :=
  cbind (print Stdout [JStr (String "010" "⚪ Deactivating all workflows..." ++ String "010" "")])
    (fun _ =>
  cbind (awaitAll (listWorkflowsAll fuel (Some true) None)) (fun active =>
  match active with
  | [] => print Stdout [JStr ("  No active workflows to deactivate." ++ String "010" "")]
  | _ =>
      cbind (switchEach deactivateWorkflow active 0) (fun ok =>
      print Stdout [countOf "Deactivated" ok active])
  end)).

(** The [ping] command. *)
Definition pingCommand : Cli unit :=
  cbind (print Stdout [JStr (String "010" "🏓 Pinging n8n..." ++ String "010" "")]) (fun _ =>
  cbind (await ping) (fun ok =>
  if ok then print Stdout [JStr ("  ✓ n8n reachable, API key valid" ++ String "010" "")]
  else
    cbind (print Stderr [JStr ("  ✗ n8n not reachable or API key invalid" ++ String "010" "")])
      (fun _ => exit 1))).

(** *** What the two loops are to do *)

(** An error whose [message] can be read: anything thrown but [undefined]
    and [null]. *)
Definition properError (e : thrown) : Prop :=
  match e with
  | ThrownError _ => True
  | ThrownValue v => nullish v = false
  end.

(** Every run of [m] on client [c] leaves [c] as it is, throws proper
    errors only and, when [c] does not have [debug] set, writes nothing to
    the console. *)
Definition sound {A : Type} (c : N8nClient) (m : Client W A) : Prop :=
  forall s, self s = c ->
    self (snd (m s)) = c /\
    match fst (m s) with
    | inl e => properError e
    | inr _ => True
    end /\
    (debug c = false -> output (snd (m s)) = output s).

(** The transport never rejects with [undefined] or [null]. *)
Definition properTransport : Prop :=
  forall req w e w', fetch req w = (Rejected e, w') -> properError e.

Definition startLine (text : string) : Printed :=
  mkPrinted Stdout [JStr (String "010" text ++ String "010" "")].

(** The line for one workflow: a check mark and its name on standard
    output when the call returned, a cross, its name and the message of the
    error on standard error when it threw. *)
Definition reportLine (w : jsval) (result : thrown + jsval) : Printed :=
  match result with
  | inr _ => mkPrinted Stdout [JStr ("  ✓ " ++ toStr (get w "name"))]
  | inl e =>
      mkPrinted Stderr
        [JStr ("  ✗ " ++ toStr (get w "name") ++ ": " ++ toStr (messageArg e))]
  end.

(** The state after [switch] was called for each of [ws] in turn and the
    line of each was printed after its call, failures included. *)
Fixpoint switched (switch : string -> Client W jsval) (ws : list jsval) (st : State W)
    : State W :=
  match ws with
  | [] => st
  | w :: rest =>
      let r := switch (toStr (get w "id")) st in
      switched switch rest (say (reportLine w (fst r)) (snd r))
  end.

(** The lines of the workflows, in order. *)
Fixpoint reports (switch : string -> Client W jsval) (ws : list jsval) (st : State W)
    : list Printed :=
  match ws with
  | [] => []
  | w :: rest =>
      let r := switch (toStr (get w "id")) st in
      reportLine w (fst r) :: reports switch rest (say (reportLine w (fst r)) (snd r))
  end.

(** The number of calls that returned. *)
Fixpoint successes (switch : string -> Client W jsval) (ws : list jsval) (st : State W)
    : Z :=
  match ws with
  | [] => 0
  | w :: rest =>
      let r := switch (toStr (get w "id")) st in
      (match fst r with inr _ => 1 | inl _ => 0 end)
      + successes switch rest (say (reportLine w (fst r)) (snd r))
  end.

Definition printedOn (on : Stream) (line : Printed) : bool :=
  match on, printed_on line with
  | Stdout, Stdout | Stderr, Stderr => true
  | _, _ => false
  end.

End CommandLine.

Arguments Cli W A : clear implicits.

(** A host whose transport answers with the scripted responses in turn and
    fails as the network does once they are used up. *)
Definition Answering (known : list jsval) : Platform (list Response) :=
  {| fetch := fun _ script =>
       match script with
       | r :: rest => (Resolved r, rest)
       | [] => (Rejected fetchFailed, [])
       end;
     JSON_parse := parseKnown known;
     formEncode := fun s => s;
     env := fun _ => None;
     String_trim := fun s => trimEnd (trimStart s);
     readFile := fun _ => None;
     cwd := "/work";
     module_dirname := "/opt/n8n-cli/dist";
     path_resolve := fun base segments => String.concat "/" (base :: segments);
     path_isAbsolute := fun p => startsWith p "/";
     path_join := fun a b => a ++ "/" ++ b;
     path_basename := basename |}.

(** Two workflows, the first of which bears the identifier of the second
    as its name. *)
Definition wfA : jsval := JObj [("id", JStr "A"); ("name", JStr "B")].
Definition wfB : jsval := JObj [("id", JStr "B"); ("name", JStr "Nightly")].
Definition lastPage : jsval := JObj [("data", JArr [wfA; wfB])].

Definition Server : Platform (list Response) := Answering [lastPage; wfA].

Definition jsonResponse (v : jsval) : Response :=
  mkResponse 200 (Some "application/json") (stringify v).

(** *** File names *)

(** A JavaScript string as the sequence of its UTF-16 code units, for the
    code that counts and cuts them. *)
Definition ustring : Type := list N.

Local Open Scope N_scope.

(** The characters [sanitizeFilename] replaces first: less-than,
    greater-than, colon, double quote, slash, backslash, bar, question mark
    and asterisk. *)
Definition isReserved (u : N) : bool :=
  (u =? 60) || (u =? 62) || (u =? 58) || (u =? 34) || (u =? 47) || (u =? 92)
  || (u =? 124) || (u =? 63) || (u =? 42).

(** The class [\s] of regular expressions: white space and line
    terminators. *)
Definition isWhite (u : N) : bool :=
  ((9 <=? u) && (u <=? 13)) || (u =? 32) || (u =? 160) || (u =? 5760)
  || ((8192 <=? u) && (u <=? 8202)) || (u =? 8232) || (u =? 8233) || (u =? 8239)
  || (u =? 8287) || (u =? 12288) || (u =? 65279).

Definition hyphen : N := 45.

(** [s.replace(/\s+/g, '-')]: [inRun] tells that the unit before was white
    space, already replaced. *)
Fixpoint collapseWhite (inRun : bool) (s : ustring) : ustring :=
  match s with
  | [] => []
  | u :: rest =>
      if isWhite u then
        if inRun then collapseWhite true rest else hyphen :: collapseWhite true rest
      else u :: collapseWhite false rest
  end.

Definition sanitizeFilename (name : ustring) : ustring :=
  firstn 80 (collapseWhite false (map (fun u => if isReserved u then hyphen else u) name)).

Local Close Scope N_scope.

(** * Properties *)

(** ** Strings *)

Lemma eqb_ascii_refl (a : ascii) : Ascii.eqb a a = true.
Proof. apply Ascii.eqb_refl. Qed.


Lemma startsWith_self (p t : string) : startsWith (p ++ t) p = true.
Proof.
  induction p as [|b p IH]; simpl; [reflexivity|].
  now rewrite eqb_ascii_refl.
Qed.

Lemma startsWith_cancel (a s p : string) :
  startsWith (a ++ s) (a ++ p) = startsWith s p.
Proof.
  induction a as [|x a IH]; simpl; [reflexivity|].
  now rewrite eqb_ascii_refl.
Qed.




(** ** The monad *)

Section Theory.

Context {W : Type} {P : Platform W}.

Lemma extends_refl (c : N8nClient) (Q : Event -> Prop) (s : State W) :
  self s = c -> extends c Q s s.
Proof.
  intros H; split; [assumption|].
  exists []. now rewrite app_nil_r.
Qed.

Lemma extends_trans (c : N8nClient) (Q : Event -> Prop) (s1 s2 s3 : State W) :
  extends c Q s1 s2 -> extends c Q s2 s3 -> extends c Q s1 s3.
Proof.
  intros [_ (e1 & T1 & F1)] [H3 (e2 & T2 & F2)]; split; [assumption|].
  exists (e1 ++ e2)%list. rewrite T2, T1, app_assoc. split; [reflexivity|].
  apply Forall_app; now split.
Qed.


Lemma stable_ret {A : Type} c Q (a : A) : stable c Q (ret a : Client W A).
Proof. intros s H; now apply extends_refl. Qed.

Lemma stable_throw {A : Type} c Q (e : thrown) : stable c Q (throw e : Client W A).
Proof. intros s H; now apply extends_refl. Qed.

Lemma stable_bind {A B : Type} c Q (m : Client W A) (k : A -> Client W B) :
  stable c Q m -> (forall a, stable c Q (k a)) -> stable c Q (bind m k).
Proof.
  intros Hm Hk s Hs. unfold bind.
  specialize (Hm s Hs). destruct (m s) as [[e|a] s1]; simpl in *; [assumption|].
  eapply extends_trans; [eassumption|].
  apply Hk. now destruct Hm.
Qed.

Lemma stable_try {A : Type} c Q (m : Client W A) (h : thrown -> Client W A) :
  stable c Q m -> (forall e, stable c Q (h e)) -> stable c Q (try_catch m h).
Proof.
  intros Hm Hh s Hs. unfold try_catch.
  specialize (Hm s Hs). destruct (m s) as [[e|a] s1]; simpl in *; [|assumption].
  eapply extends_trans; [eassumption|].
  apply Hh. now destruct Hm.
Qed.

Lemma stable_this {A : Type} c Q (k : N8nClient -> Client W A) :
  stable c Q (k c) -> stable c Q (bind this k).
Proof.
  intros Hk s Hs. unfold bind, this. rewrite Hs. now apply Hk.
Qed.

Lemma stable_sleep c (Q : Event -> Prop) ms : Q (Slept ms) -> stable c Q (sleep ms : Client W unit).
Proof.
  intros HQ s Hs; split; [assumption|].
  exists [Slept ms]; split; [reflexivity|]. now constructor.
Qed.



Lemma stable_evaluate {A : Type} c Q (r : thrown + A) : stable c Q (evaluate r : Client W A).
Proof. intros s H; now apply extends_refl. Qed.

Lemma stable_log c (Q : Event -> Prop) args : stable c Q (log args : Client W unit).
Proof.
  intros s Hs. unfold log. destruct (debug (self s)); simpl;
    (split; [assumption|]; exists []; rewrite app_nil_r; split; [reflexivity|constructor]).
Qed.

Lemma stable_some {A : Type} c Q (m : Client W A) (f : A -> jsval) :
  stable c Q m -> stable c Q (some m f).
Proof. intros Hm. apply stable_bind; [assumption|]. intros a; apply stable_ret. Qed.

(** ** One attempt *)

Lemma parseApiError_name status text : err_name (parseApiError status text) = "Error".
Proof. unfold parseApiError. destruct (JSON_parse text); reflexivity. Qed.

(** An attempt is one transport call, settled; with [debug] set it is
    logged. *)
Lemma attemptOf_eq c method path body (s : State W) :
  self s = c ->
  attemptOf c method path body s =
    (settle c (fst (fetch (requestOf c method path body) (world s))),
     {| self := c;
        world := snd (fetch (requestOf c method path body) (world s));
        trace := trace s ++ [Fetched (requestOf c method path body)];
        output := output s
                    ++ attemptLines c method path
                         (fst (fetch (requestOf c method path body) (world s))) |}).
Proof.
  intros Hs.
  unfold attemptOf, doRequest, requestOf, attemptLines, parses, bind, this, try_catch,
    call_fetch, log, say, throw, ret, rethrown.
  simpl. rewrite Hs.
  destruct (debug c) eqn:Hd; simpl;
    destruct (fetch _ (world s)) as [[res|e] w']; simpl;
    rewrite ?app_nil_r;
    try (destruct (res_ok res); simpl;
         [destruct (isJsonContentType (res_contentType res)); simpl;
          [destruct (nonEmpty (res_text res)); simpl;
           [destruct (JSON_parse (res_text res)) as [e|data]; simpl|]|]
         |rewrite parseApiError_name; simpl]);
    unfold rethrown; simpl;
    try match goal with |- context [(?a =? ?b)%string] => destruct (a =? b)%string end;
    try match goal with |- context [isAbortError ?x] => destruct (isAbortError x) end;
    simpl; rewrite ?Hs, ?Hd; simpl; rewrite ?Hs, <- ?app_assoc; reflexivity.
Qed.

Lemma attemptOf_state c method path body (s : State W) :
  self s = c ->
  self (snd (attemptOf c method path body s)) = c /\
  trace (snd (attemptOf c method path body s))
    = (trace s ++ [Fetched (requestOf c method path body)])%list.
Proof. intros Hs. rewrite (attemptOf_eq _ _ _ _ _ Hs). now split. Qed.

(** ** The retry loop *)

Lemma record_self (ev : Event) (s : State W) : self (record ev s) = self s.
Proof. reflexivity. Qed.

Lemma noted_self c args (s : State W) : self (noted c args s) = self s.
Proof. unfold noted. now destruct (debug c). Qed.

Lemma noted_trace c args (s : State W) : trace (noted c args s) = trace s.
Proof. unfold noted. now destruct (debug c). Qed.

Lemma noted_world c args (s : State W) : world (noted c args s) = world s.
Proof. unfold noted. now destruct (debug c). Qed.

Lemma noted_output c args (s : State W) :
  output (noted c args s) = (output s ++ notes c args)%list.
Proof. unfold noted, notes. destruct (debug c); simpl; [reflexivity|now rewrite app_nil_r]. Qed.

(** A retryable error is neither [undefined] nor [null]: its [message] can
    be read for the log. *)
Lemma retryable_message e :
  isRetryable e (status_of e) = true -> messageField e = inr (messageArg e).
Proof.
  destruct e as [e|v]; [reflexivity|].
  destruct v; try reflexivity; intros H; vm_compute in H; discriminate.
Qed.

(** The handler of the retry loop, on a retryable error below the bound. *)
Lemma retry_step c (once : Client W jsval) n k e (s1 : State W) :
  self s1 = c -> isRetryable e (status_of e) = true ->
  (message <- evaluate (messageField e) ;;
   log [JStr ("Retry " ++ Z_to_string (k + 1) ++ "/" ++ Z_to_string (retries c) ++ " in "
                ++ Z_to_string (backoff k) ++ "ms:");
        message] ;;;
   sleep (backoff k) ;;;
   attemptLoop once n (k + 1) e) s1
  = attemptLoop once n (k + 1) e
      (record (Slept (backoff k)) (noted c (retryNote c k e) s1)).
Proof.
  intros Hs Hy. unfold bind, evaluate, log, sleep. rewrite (retryable_message e Hy), Hs.
  reflexivity.
Qed.

Lemma attemptLoop_Attempts c method path body :
  forall (n : nat) (k : Z) (lastErr : thrown) (s : State W),
    self s = c ->
    Z.of_nat n = retries c + 1 - k ->
    (0 < n)%nat ->
    exists j : nat,
      (1 <= j <= n)%nat /\
      Attempts c (attemptOf c method path body) k s j
               (attemptLoop (attemptOf c method path body) n k lastErr s).
Proof.
  induction n as [|n IH]; intros k lastErr s Hs Hn Hpos; [lia|].
  cbn [attemptLoop]. unfold try_catch.
  destruct (attemptOf_state c method path body s Hs) as [Hself _].
  destruct (attemptOf c method path body s) as [[e|v] s1] eqn:E; simpl in Hself.
  - unfold bind at 1, this. rewrite Hself.
    destruct ((k <? retries c) && isRetryable e (status_of e)) eqn:Hc.
    + apply andb_true_iff in Hc as Hc'. destruct Hc' as [Hk Hy].
      apply Z.ltb_lt in Hk.
      cbv zeta. rewrite (retry_step c _ n k e s1 Hself Hy).
      destruct (IH (k + 1) e (record (Slept (backoff k)) (noted c (retryNote c k e) s1)))
        as (j & Hj & HA);
        [now rewrite record_self, noted_self | lia | lia |].
      exists (S j). split; [lia|].
      eapply Attempts_retried; eauto.
    + exists 1%nat. split; [lia|]. now apply Attempts_thrown.
  - exists 1%nat. split; [lia|]. now apply Attempts_returned.
Qed.

Lemma Attempts_trace c method path body :
  forall k s j out,
    Attempts c (attemptOf c method path body) k s j out ->
    self s = c ->
    self (snd out) = c /\
    trace (snd out) = (trace s ++ schedule (requestOf c method path body) j k)%list.
Proof.
  induction 1 as [k s v s' E | k s e s' E Hc | k s e s1 j out E Hc HA IH]; intros Hs.
  - destruct (attemptOf_state c method path body s Hs) as [H1 H2].
    rewrite E in H1, H2. now split.
  - destruct (attemptOf_state c method path body s Hs) as [H1 H2].
    rewrite E in H1, H2. now split.
  - destruct (attemptOf_state c method path body s Hs) as [H1 H2].
    rewrite E in H1, H2. simpl in H1, H2.
    destruct IH as [I1 I2]; [now rewrite record_self, noted_self|].
    split; [assumption|].
    rewrite I2. simpl trace. rewrite noted_trace, H2.
    inversion HA; subst; simpl; now rewrite <- !app_assoc.
Qed.

Lemma Attempts_exhausted c once :
  forall k (s : State W) j out,
    Attempts c once k s j out ->
    forall e, fst out = inl e -> isRetryable e (status_of e) = true ->
    k <= retries c ->
    Z.of_nat j = retries c - k + 1.
Proof.
  induction 1 as [k s v s' E | k s e s' E Hc | k s e s1 j out E Hc HA IH];
    intros e' Hout Hr Hk; simpl in Hout.
  - discriminate.
  - injection Hout as <-. rewrite Hr, andb_true_r in Hc.
    apply Z.ltb_ge in Hc. lia.
  - apply andb_true_iff in Hc as [Hlt _]. apply Z.ltb_lt in Hlt.
    specialize (IH e' Hout Hr). lia.
Qed.

Lemma request_unfold method path body (s : State W) :
  request method path body s =
    attemptLoop (attemptOf (self s) method path body)
                (Z.to_nat (retries (self s) + 1)) 0 (ThrownValue JUndefined) s.
Proof. reflexivity. Qed.

Lemma request_Attempts c method path body (s : State W) :
  self s = c -> 0 <= retries c ->
  exists j : nat,
    (1 <= j)%nat /\ Z.of_nat j <= retries c + 1 /\
    Attempts c (attemptOf c method path body) 0 s j (request method path body s).
Proof.
  intros Hs Hr. rewrite request_unfold, Hs.
  destruct (attemptLoop_Attempts c method path body (Z.to_nat (retries c + 1)) 0
              (ThrownValue JUndefined) s Hs) as (j & Hj & HA); [lia | lia |].
  exists j. repeat split; [lia | lia | assumption].
Qed.

(** ** What [request] does to the state *)

Lemma stable_attemptOf c (Q : Event -> Prop) method path body :
  Q (Fetched (requestOf c method path body)) ->
  stable c Q (attemptOf c method path body).
Proof.
  intros HQ s Hs.
  destruct (attemptOf_state c method path body s Hs) as [H1 H2].
  split; [assumption|].
  exists [Fetched (requestOf c method path body)]. split; [assumption|]. now constructor.
Qed.

Lemma stable_attemptLoop c (Q : Event -> Prop) (once : Client W jsval) :
  stable c Q once -> (forall ms, Q (Slept ms)) ->
  forall n k lastErr, stable c Q (attemptLoop once n k lastErr).
Proof.
  intros Honce Hsleep. induction n as [|n IH]; intros k lastErr; simpl.
  - apply stable_throw.
  - apply stable_try; [assumption|]. intros e.
    apply stable_this.
    destruct ((k <? retries c) && isRetryable e (status_of e)).
    + cbv zeta. apply stable_bind; [apply stable_evaluate|]. intros message.
      apply stable_bind; [apply stable_log|]. intros _.
      apply stable_bind; [now apply stable_sleep|]. intros _. apply IH.
    + apply stable_throw.
Qed.

Lemma stable_request c (Q : Event -> Prop) method path body :
  Q (Fetched (requestOf c method path body)) -> (forall ms, Q (Slept ms)) ->
  stable c Q (request method path body).
Proof.
  intros HQ Hsleep. unfold request. apply stable_this.
  apply stable_attemptLoop; [|assumption].
  now apply stable_attemptOf.
Qed.

Lemma request_self c method path body (s : State W) :
  self s = c -> self (snd (request method path body s)) = c.
Proof.
  intros Hs.
  now destruct (stable_request c (fun _ => True) method path body I (fun _ => I) s Hs).
Qed.

Lemma stable_collectPages c (Q : Event -> Prop) (page : jsval -> Client W jsval) :
  (forall cursor, stable c Q (page cursor)) ->
  forall fuel all cursor, stable c Q (collectPages page fuel all cursor).
Proof.
  intros Hpage. induction fuel as [|n IH]; intros all cursor; simpl.
  - apply stable_ret.
  - apply stable_bind; [apply Hpage|]. intros res.
    destruct (spreadElements _); [apply stable_throw|].
    destruct (truthy _); [apply IH | apply stable_ret].
Qed.

(** ** URLs *)

Lemma append_assoc (a b c : string) : ((a ++ b) ++ c = a ++ (b ++ c))%string.
Proof. induction a as [|x a IH]; simpl; [reflexivity | now rewrite IH]. Qed.

Lemma getUrl_relative c path :
  startsWith path "/" = false -> getUrl c path = baseUrl c ++ "/api/v1/" ++ path.
Proof.
  intros H. unfold getUrl, API_VERSION. rewrite H.
  now rewrite append_assoc.
Qed.

Lemma url_under c path prefix :
  startsWith path "/" = false -> startsWith prefix "/" = false ->
  startsWith (getUrl c path) (getUrl c prefix) = startsWith path prefix.
Proof.
  intros H1 H2. rewrite !getUrl_relative by assumption.
  rewrite startsWith_cancel.
  apply (startsWith_cancel "/api/v1/").
Qed.

Lemma unscoped_call c pid method path body :
  startsWith path "/" = false -> startsWith path "projects/" = false ->
  scopedOnlyBy c pid (Fetched (requestOf c method path body)).
Proof.
  intros H1 H2. left.
  change (startsWith (getUrl c path) (getUrl c "projects/") = false).
  now rewrite url_under.
Qed.

Lemma scoped_call c pid method rest body :
  truthyStr pid = true ->
  scopedOnlyBy c pid
    (Fetched (requestOf c method ("projects/" ++ withDefault pid "" ++ "/workflows" ++ rest) body)).
Proof.
  intros Hp. right. destruct pid as [p|]; [|discriminate].
  change (startsWith (getUrl c ("projects/" ++ p ++ "/workflows" ++ rest))
                     (getUrl c ("projects/" ++ p ++ "/workflows")) = true).
  rewrite (url_under c ("projects/" ++ p ++ "/workflows" ++ rest)
                       ("projects/" ++ p ++ "/workflows")) by reflexivity.
  change (startsWith ("projects/" ++ (p ++ "/workflows" ++ rest))
                     ("projects/" ++ (p ++ "/workflows")) = true).
  rewrite startsWith_cancel, <- append_assoc. apply startsWith_self.
Qed.

Lemma executions_call c method rest body :
  isExecutionsUrl c (Fetched (requestOf c method ("executions" ++ rest) body)).
Proof.
  change (startsWith (getUrl c ("executions" ++ rest)) (getUrl c "executions") = true).
  rewrite url_under by reflexivity. apply (startsWith_self "executions").
Qed.

(** ** Every operation leaves the client as it is *)

Lemma stable_unscoped c pid method path body :
  startsWith path "/" = false -> startsWith path "projects/" = false ->
  stable c (scopedOnlyBy c pid) (request method path body).
Proof.
  intros H1 H2. apply stable_request; [now apply unscoped_call | intros ms; exact I].
Qed.

Lemma stable_scoped c pid method rest body :
  truthyStr pid = true ->
  stable c (scopedOnlyBy c pid)
    (request method ("projects/" ++ withDefault pid "" ++ "/workflows" ++ rest) body).
Proof.
  intros Hp. apply stable_request; [now apply scoped_call | intros ms; exact I].
Qed.

Lemma stable_executions c method rest body :
  stable c (isExecutionsUrl c) (request method ("executions" ++ rest) body).
Proof.
  apply stable_request; [apply executions_call | intros ms; exact I].
Qed.

Ltac stable_step :=
  lazymatch goal with
  | |- stable _ _ (ret _) => apply stable_ret
  | |- stable _ _ (throw _) => apply stable_throw
  | |- stable _ _ (bind this _) => apply stable_this
  | |- stable _ _ (some _ _) => apply stable_some
  | |- stable _ _ (bind _ _) => apply stable_bind; [|intros ?]
  | |- stable _ _ (try_catch _ _) => apply stable_try; [|intros ?]
  | |- stable _ _ (if ?b then _ else _) => destruct b eqn:?
  | |- stable _ _ (match ?x with _ => _ end) => destruct x eqn:?
  | |- stable _ (scopedOnlyBy _ _) (request _ _ _) => apply stable_unscoped; reflexivity
  | |- stable _ (isExecutionsUrl _) (request _ _ _) =>
      first [ apply stable_executions | apply (stable_executions _ _ "") ]
  end.

Ltac stable_auto := repeat stable_step.

Lemma stable_perform c (op : PrimaryOp) :
  stable c (scopedOnlyBy c (op_scope c op)) (perform op).
Proof.
  destruct op; simpl perform; simpl op_scope.
  - unfold listWorkflowsPaginated.
    apply stable_this. destruct (truthyStr (projectId c)) eqn:Hp; stable_auto.
    now apply (stable_scoped c (projectId c)).
  - unfold createWorkflow.
    destruct (truthyStr projectIdArg) eqn:Hp; stable_auto.
    now apply (stable_scoped c projectIdArg "POST" "").
  - unfold getWorkflow, workflowPath.
    apply stable_this. destruct (truthyStr (projectId c)) eqn:Hp; stable_auto.
    now apply (stable_scoped c (projectId c) "GET" ("/" ++ id)).
  - unfold updateWorkflow, workflowPath.
    apply stable_this. destruct (truthyStr (projectId c)) eqn:Hp; stable_auto.
    now apply (stable_scoped c (projectId c) "PUT" ("/" ++ id)).
  - unfold deleteWorkflow, workflowPath.
    apply stable_this. destruct (truthyStr (projectId c)) eqn:Hp; stable_auto.
    now apply (stable_scoped c (projectId c) "DELETE" ("/" ++ id)).
  - unfold activateWorkflow, workflowPath.
    apply stable_this. destruct (truthyStr (projectId c)) eqn:Hp; stable_auto.
    now apply (stable_scoped c (projectId c) "POST" ("/" ++ id ++ "/activate")).
  - unfold deactivateWorkflow, workflowPath.
    apply stable_this. destruct (truthyStr (projectId c)) eqn:Hp; stable_auto.
    now apply (stable_scoped c (projectId c) "POST" ("/" ++ id ++ "/deactivate")).
Qed.

Lemma stable_performExecution c (Q : Event -> Prop) (op : ExecutionOp) :
  (forall method rest body, stable c Q (request method ("executions" ++ rest) body)) ->
  stable c Q (performExecution op).
Proof.
  intros HQ.
  assert (Hpage : forall workflowId cursor status,
             stable c Q (listExecutionsPaginated workflowId cursor status)).
  { intros. unfold listExecutionsPaginated. apply stable_bind; [apply HQ|].
    intros res. apply stable_ret. }
  destruct op; simpl.
  - apply stable_some, Hpage.
  - apply stable_some. unfold listExecutions.
    apply stable_bind; [apply Hpage | intros res; apply stable_ret].
  - apply stable_bind; [|intros all; apply stable_ret].
    unfold listExecutionsAll. apply stable_collectPages. intros cursor. apply Hpage.
  - apply stable_some. unfold getExecution. apply (HQ "GET" ("/" ++ id)).
  - apply stable_some. unfold retryExecution.
    apply stable_bind; [apply (HQ "POST" ("/" ++ id ++ "/retry"))|].
    intros res. destruct (negb _); [apply stable_throw | apply stable_ret].
  - apply stable_some. unfold stopExecution.
    apply stable_bind; [apply (HQ "POST" ("/" ++ id ++ "/stop")) | intros ?; apply stable_ret].
  - apply stable_some. unfold deleteExecution.
    apply stable_bind; [apply (HQ "DELETE" ("/" ++ id)) | intros ?; apply stable_ret].
Qed.

Lemma stable_run c (op : Operation) :
  stable c (scopedOnlyBy c (scopeOf c op)) (run op).
Proof.
  pose proof (stable_perform c) as Hprimary.
  destruct op; simpl run; simpl scopeOf.
  - apply stable_some, Hprimary.
  - apply stable_performExecution. intros. now apply stable_unscoped.
  - apply stable_some. unfold listWorkflows.
    apply stable_bind; [apply (Hprimary (ListWorkflows active JUndefined name))|].
    intros res. apply stable_ret.
  - apply stable_bind; [|intros all; apply stable_ret].
    unfold listWorkflowsAll. apply stable_collectPages.
    intros cursor. apply (Hprimary (ListWorkflows active cursor name)).
  - apply stable_some. unfold renameWorkflow.
    apply stable_bind; [apply (Hprimary (GetWorkflow id))|].
    intros w. apply (Hprimary (UpdateWorkflow id (withName w newName))).
  - unfold createCredential. stable_auto.
  - unfold listCredentials. stable_auto.
  - apply stable_some. unfold ping.
    apply stable_try; [|intros e; apply stable_ret].
    apply stable_bind; [apply (Hprimary (ListWorkflows None JUndefined None))|].
    intros res. apply stable_ret.
  - unfold listTags. stable_auto.
  - unfold audit. stable_auto.
  - unfold listVariables. stable_auto.
  - unfold createTag. stable_auto.
  - unfold getWorkflowTags. stable_auto.
  - unfold updateWorkflowTags. stable_auto.
  - unfold transferWorkflow. stable_auto.
  - unfold runWorkflow. stable_auto.
Qed.

(** ** The scoped path and its fallback *)

Lemma request_self_eq c method path body (s s1 : State W) r :
  self s = c -> request method path body s = (r, s1) -> self s1 = c.
Proof.
  intros Hs E. pose proof (request_self c method path body s Hs) as H.
  now rewrite E in H.
Qed.


Ltac fallback_case Hs Hscope Hne :=
  unfold scopedThenUnscoped, workflowPath, bind, this, try_catch, liftResult, notFoundText,
         ret, throw;
  rewrite ?Hs, ?Hscope; cbn -[request includes String_of queryString]; rewrite ?Hne;
  cbn -[request includes String_of queryString];
  match goal with
  | |- context [request ?m ?p ?b ?s] =>
      let E := fresh "E" in
      destruct (request m p b s) as [[?|?] ?] eqn:E; [|reflexivity];
      rewrite ?(request_self_eq _ _ _ _ _ _ _ Hs E), ?Hscope;
      cbn -[request includes String_of queryString]; rewrite ?Hne;
      cbn -[request includes String_of queryString]
  end;
  match goal with
  | |- context [if ?b then _ else _] => destruct b; [|reflexivity]
  end;
  match goal with
  | |- context [request ?m ?p ?b ?s] => destruct (request m p b s) as [[?|?] ?]; reflexivity
  end.

Lemma perform_fallback (op : PrimaryOp) c pid (s : State W) :
  self s = c -> op_scope c op = Some pid -> nonEmpty pid = true ->
  perform op s = scopedThenUnscoped op pid s.
Proof.
  intros Hs Hscope Hne.
  destruct op; simpl in Hscope; unfold perform.
  - unfold listWorkflowsPaginated. fallback_case Hs Hscope Hne.
  - unfold createWorkflow. fallback_case Hs Hscope Hne.
  - unfold getWorkflow. fallback_case Hs Hscope Hne.
  - unfold updateWorkflow. fallback_case Hs Hscope Hne.
  - unfold deleteWorkflow. fallback_case Hs Hscope Hne.
  - unfold activateWorkflow. fallback_case Hs Hscope Hne.
  - unfold deactivateWorkflow. fallback_case Hs Hscope Hne.
Qed.

Lemma apiError_404_fallsBack (op : PrimaryOp) (text : string) :
  fallsBack op (apiError 404 text) = true.
Proof.
  unfold apiError, parseApiError.
  destruct (JSON_parse text); destruct op; vm_compute; reflexivity.
Qed.

(** ** The retry policy *)

Lemma backoff_values :
  backoff 0 = 1000 /\ backoff 1 = 2000 /\ backoff 2 = 4000 /\ backoff 3 = 8000 /\
  (forall k, 4 <= k -> backoff k = 10000) /\
  (forall k, backoff k <= 10000).
Proof.
  repeat split; try reflexivity.
  - intros k Hk. unfold backoff. apply Z.min_r.
    assert (2 ^ 4 <= 2 ^ k) by (apply Z.pow_le_mono_r; lia). lia.
  - intros k. unfold backoff. apply Z.le_min_r.
Qed.

Lemma request_first_attempt_final c method path body (s s1 : State W) e :
  self s = c -> 0 <= retries c ->
  attemptOf c method path body s = (inl e, s1) ->
  isRetryable e (status_of e) = false ->
  request method path body s = (inl e, s1).
Proof.
  intros Hs Hr E Hn. rewrite request_unfold, Hs.
  destruct (Z.to_nat (retries c + 1)) as [|n] eqn:En; [lia|].
  simpl. unfold try_catch. rewrite E. unfold bind, this.
  now rewrite Hn, andb_false_r.
Qed.

Lemma request_first_attempt_returns c method path body (s s1 : State W) v :
  self s = c -> 0 <= retries c ->
  attemptOf c method path body s = (inr v, s1) ->
  request method path body s = (inr v, s1).
Proof.
  intros Hs Hr E. rewrite request_unfold, Hs.
  destruct (Z.to_nat (retries c + 1)) as [|n] eqn:En; [lia|].
  simpl. unfold try_catch. now rewrite E.
Qed.

Lemma Attempts_positive c once k (s : State W) j out :
  Attempts c once k s j out -> (1 <= j)%nat.
Proof. destruct 1; lia. Qed.

Lemma request_first_attempt_retried c method path body (s s1 : State W) e :
  self s = c -> 0 < retries c ->
  attemptOf c method path body s = (inl e, s1) ->
  isRetryable e (status_of e) = true ->
  exists j : nat,
    Attempts c (attemptOf c method path body) 0 s (S (S j)) (request method path body s).
Proof.
  intros Hs Hr E Hy.
  destruct (request_Attempts c method path body s Hs) as (j & Hj1 & Hj2 & HA); [lia|].
  remember (request method path body s) as out eqn:Hout. clear Hout.
  pose proof HA as HA0.
  inversion HA as [k s0 v s' E' | k s0 e' s' E' Hc | k s0 e' s' j' out' E' Hc HA'];
    subst.
  - congruence.
  - rewrite E in E'. injection E' as <- <-.
    rewrite Hy, andb_true_r in Hc. apply Z.ltb_ge in Hc. lia.
  - pose proof (Attempts_positive _ _ _ _ _ _ HA') as Hpos.
    destruct j' as [|j'']; [lia|]. now exists j''.
Qed.

Lemma attemptLoop_last c method path body k lastErr (s : State W) :
  self s = c -> retries c <= k ->
  attemptLoop (attemptOf c method path body) 1 k lastErr s = attemptOf c method path body s.
Proof.
  intros Hs Hk. simpl. unfold try_catch.
  destruct (attemptOf_state c method path body s Hs) as [Hself _].
  destruct (attemptOf c method path body s) as [[e|v] s1]; [|reflexivity].
  simpl in Hself. unfold bind, this. rewrite Hself.
  assert ((k <? retries c) = false) as -> by (apply Z.ltb_ge; lia).
  reflexivity.
Qed.

Lemma isRetryable_iff (err : thrown) (status : option Z) :
  isRetryable err status = true <->
  (exists st, status = Some st /\ (st = 429 \/ 500 <= st < 600)) \/
  (exists sig, In sig retrySignatures /\ includes (String_of err) sig = true).
Proof.
  unfold isRetryable, retrySignatures. split.
  - intros H. apply orb_true_iff in H as [H|H].
    + left. destruct status as [st|]; [|discriminate]. exists st. split; [reflexivity|].
      apply orb_true_iff in H as [H|H]; [left; now apply Z.eqb_eq|right].
      apply andb_true_iff in H as [H1 H2].
      apply Z.leb_le in H1. apply Z.ltb_lt in H2. lia.
    + right. repeat (apply orb_true_iff in H as [H|H]);
        eexists; (split; [|exact H]); simpl; tauto.
  - intros [(st & -> & H)|(sig & Hin & H)]; apply orb_true_iff.
    + left. destruct H as [->|[H1 H2]]; [reflexivity|].
      apply orb_true_iff; right. apply andb_true_iff.
      split; [now apply Z.leb_le | now apply Z.ltb_lt].
    + right. simpl in Hin.
      destruct Hin as [<-|[<-|[<-|[<-|[<-|[]]]]]]; rewrite H;
        repeat rewrite ?orb_true_r, ?orb_true_l; reflexivity.
Qed.

Lemma attemptLoop_retry c method path body n k lastErr (s s1 : State W) e :
  self s = c ->
  attemptOf c method path body s = (inl e, s1) ->
  (k <? retries c) && isRetryable e (status_of e) = true ->
  attemptLoop (attemptOf c method path body) (S n) k lastErr s =
  attemptLoop (attemptOf c method path body) n (k + 1) e
              (record (Slept (backoff k)) (noted c (retryNote c k e) s1)).
Proof.
  intros Hs E Hc. cbn [attemptLoop]. unfold try_catch. rewrite E.
  pose proof (attemptOf_state c method path body s Hs) as [Hself _].
  rewrite E in Hself. simpl in Hself.
  unfold bind at 1, this. rewrite Hself, Hc. cbv zeta.
  apply andb_true_iff in Hc as [_ Hy].
  apply (retry_step c _ n k e s1 Hself Hy).
Qed.

Lemma request_retried_once c method path body (s : State W) first second w1 w2 :
  self s = c -> retries c = 1 ->
  fetch (requestOf c method path body) (world s) = (Resolved first, w1) ->
  res_status first = 500 ->
  fetch (requestOf c method path body) w1 = (Resolved second, w2) ->
  request method path body s =
    (settle c (Resolved second),
     {| self := c; world := w2;
        trace := trace s ++ [Fetched (requestOf c method path body); Slept 1000;
                             Fetched (requestOf c method path body)];
        output := output s ++ attemptLines c method path (Resolved first)
                    ++ notes c (retryNote c 0 (apiError 500 (res_text first)))
                    ++ attemptLines c method path (Resolved second) |}).
Proof.
  intros Hs Hr F1 H500 F2.
  rewrite request_unfold, Hs, Hr.
  change (Z.to_nat (1 + 1)) with 2%nat.
  assert (E1 : attemptOf c method path body s =
               (inl (apiError 500 (res_text first)),
                {| self := c; world := w1;
                   trace := trace s ++ [Fetched (requestOf c method path body)];
                   output := output s ++ attemptLines c method path (Resolved first) |})).
  { rewrite (attemptOf_eq c method path body s Hs), F1.
    unfold settle, res_ok. cbn [fst snd]. rewrite H500. reflexivity. }
  rewrite (attemptLoop_retry c method path body 1 0 _ s _ _ Hs E1)
    by (rewrite Hr; reflexivity).
  rewrite (attemptLoop_last c method path body)
    by (rewrite ?record_self, ?noted_self; try reflexivity; lia).
  rewrite attemptOf_eq by (now rewrite record_self, noted_self).
  cbn [world record self trace output].
  rewrite noted_world, noted_trace, noted_output. cbn [world trace output].
  rewrite F2. cbn [fst snd].
  rewrite <- !app_assoc. reflexivity.
Qed.

(** C2. With [retries = r >= 0], [request] makes between 1 and [r + 1]
    transport attempts; after the failed attempt of index [k] it waits
    exactly [backoff k = min (1000 * 2^k) 10000] milliseconds (1000, 2000,
    4000, 8000, then 10000) and nothing else happens in between (with
    [debug] set, the attempts and the retry are logged); its
    outcome is the outcome of the last attempt, so a last error is thrown
    unchanged, and an error that is still retryable is thrown only after
    all [r + 1] attempts.  With [retries = 1], a first response with
    status 500 and a second with status 200 and the text of [{data: []}] make
    [listWorkflowsPaginated] return [{data: []}], which has no
    [nextCursor], after exactly two attempts. *)
Theorem request_retry_schedule :
  (forall c method path body (s : State W),
      self s = c -> 0 <= retries c ->
      exists j : nat,
        (1 <= j)%nat /\ Z.of_nat j <= retries c + 1 /\
        Attempts c (attemptOf c method path body) 0 s j (request method path body s) /\
        trace (snd (request method path body s))
          = (trace s ++ schedule (requestOf c method path body) j 0)%list /\
        (forall e, fst (request method path body s) = inl e ->
                   isRetryable e (status_of e) = true ->
                   Z.of_nat j = retries c + 1)) /\
  (forall k, backoff k = Z.min (1000 * 2 ^ k) 10000) /\
  (backoff 0 = 1000 /\ backoff 1 = 2000 /\ backoff 2 = 4000 /\ backoff 3 = 8000 /\
   (forall k, 4 <= k -> backoff k = 10000) /\ (forall k, backoff k <= 10000)) /\
  (forall c (s : State W) first second w1 w2,
      self s = c -> retries c = 1 ->
      (forall req, fetch req (world s) = (Resolved first, w1)) ->
      res_status first = 500 ->
      (forall req, fetch req w1 = (Resolved second, w2)) ->
      res_status second = 200 ->
      res_text second = emptyPageText ->
      JSON_parse emptyPageText = inr emptyPage ->
      exists req path,
        listWorkflowsPaginated None JUndefined None s =
          (inr (JObj [("data", JArr [])]),
           {| self := c; world := w2;
              trace := trace s ++ [Fetched req; Slept 1000; Fetched req];
              output := output s ++ attemptLines c "GET" path (Resolved first)
                          ++ notes c (retryNote c 0 (apiError 500 (res_text first)))
                          ++ attemptLines c "GET" path (Resolved second) |}) /\
        get (JObj [("data", JArr [])]) "nextCursor" = JUndefined).
Proof.
  split; [|split; [|split]].
  - intros c method path body s Hs Hr.
    destruct (request_Attempts c method path body s Hs Hr) as (j & Hj1 & Hj2 & HA).
    exists j. repeat split; try assumption.
    + now apply (Attempts_trace c method path body 0 s j _ HA).
    + intros e He Hy.
      rewrite (Attempts_exhausted c _ 0 s j _ HA e He Hy); lia.
  - reflexivity.
  - exact backoff_values.
  - intros c s first second w1 w2 Hs Hr F1 H500 F2 H200 Htext Hparse.
    assert (Hsettle : orElse match settle c (Resolved second) with
                             | inr v => v | inl _ => JNull end emptyPage = emptyPage
                      /\ exists v, settle c (Resolved second) = inr v).
    { unfold settle, res_ok. rewrite H200, Htext, Hparse. cbn [negb andb Z.leb Z.compare
        Pos.compare Pos.compare_cont].
      destruct (isJsonContentType (res_contentType second)); cbn; eauto. }
    destruct Hsettle as [Hv (v & Hsv)]. rewrite Hsv in Hv.
    unfold listWorkflowsPaginated, bind at 1, this. rewrite Hs.
    destruct (truthyStr (projectId c)).
    + eexists _, _. unfold try_catch, bind.
      rewrite (request_retried_once c _ _ _ s first second w1 w2 Hs Hr (F1 _) H500 (F2 _)).
      rewrite Hsv. unfold ret. rewrite Hv. split; reflexivity.
    + eexists _, _. unfold try_catch, bind.
      rewrite (request_retried_once c _ _ _ s first second w1 w2 Hs Hr (F1 _) H500 (F2 _)).
      rewrite Hsv. unfold ret. rewrite Hv. split; reflexivity.
Qed.

Lemma parseApiError_message status text :
  parseApiError status text = newError (apiErrorMessage status (bestEffortMessage text)).
Proof.
  unfold parseApiError, bestEffortMessage, orElse.
  destruct (JSON_parse text) as [e|json]; [reflexivity|].
  destruct (nullish (get json "message")) eqn:Ha; cbn [negb].
  - destruct (nullish (get (get json "error") "message")) eqn:Hb; cbn [negb];
      rewrite ?Hb; reflexivity.
  - rewrite Ha. reflexivity.
Qed.

Lemma includes_app_r (a s needle : string) :
  includes s needle = true -> includes (a ++ s) needle = true.
Proof.
  intros H. induction a as [|x a IH]; simpl; [assumption|].
  rewrite IH. apply orb_true_r.
Qed.

Lemma apiError_holds_text status text sig :
  includes (bestEffortMessage text) sig = true ->
  includes (String_of (apiError status text)) sig = true.
Proof.
  intros H. unfold apiError. rewrite parseApiError_message.
  change (String_of _)
    with ("Error: n8n API error " ++ (Z_to_string status ++ ": " ++ bestEffortMessage text)).
  apply includes_app_r, includes_app_r, includes_app_r. exact H.
Qed.

(** C3 (amended). A failed attempt is followed by another exactly when its
    index is below [retries] and [isRetryable] holds of its error, that
    is: the error carries status 429 or a status in 500..599, or the text
    [String(err)] contains one of [timed out], [AbortError], [ECONNRESET],
    [ETIMEDOUT], [fetch failed].  A failure that is not retryable is thrown
    at once, after one attempt, whatever [retries] is; in particular one
    with a status in 400..499 other than 429 whose text has none of the
    five signatures.  A retryable failure is thrown as well once the index
    has reached [retries], so with [retries = 0] every failure is thrown
    after one attempt.  The text test applies to the errors of responses
    too: a response that is not 2xx, whatever its status, whose message
    (the [message] field of the JSON body, else its [error.message] field,
    else the raw text) holds one of the five signatures gives a retryable
    error. *)
Theorem retry_decision :
  (forall err status,
      isRetryable err status = true <->
      (exists st, status = Some st /\ (st = 429 \/ 500 <= st < 600)) \/
      (exists sig, In sig retrySignatures /\ includes (String_of err) sig = true)) /\
  (forall c method path body (s s1 : State W) e,
      self s = c -> 0 <= retries c ->
      attemptOf c method path body s = (inl e, s1) ->
      (isRetryable e (status_of e) = false ->
         request method path body s = (inl e, s1) /\
         trace s1 = (trace s ++ [Fetched (requestOf c method path body)])%list) /\
      (isRetryable e (status_of e) = true -> 0 < retries c ->
         exists j : nat,
           Attempts c (attemptOf c method path body) 0 s (S (S j))
                    (request method path body s))) /\
  (forall e st,
      status_of e = Some st -> 400 <= st < 500 -> st <> 429 ->
      (forall sig, In sig retrySignatures -> includes (String_of e) sig = false) ->
      isRetryable e (status_of e) = false) /\
  (forall c method path body (s s1 : State W) e,
      self s = c -> retries c = 0 ->
      attemptOf c method path body s = (inl e, s1) ->
      request method path body s = (inl e, s1)) /\
  (forall c method path body (s : State W),
      self s = c -> 0 <= retries c ->
      exists j : nat,
        (1 <= j)%nat /\ Z.of_nat j <= retries c + 1 /\
        Attempts c (attemptOf c method path body) 0 s j (request method path body s)) /\
  (forall status text sig,
      In sig retrySignatures -> includes (bestEffortMessage text) sig = true ->
      isRetryable (apiError status text) (status_of (apiError status text)) = true).
Proof.
  split; [exact isRetryable_iff|split; [|split; [|split; [|split]]]].
  - intros c method path body s s1 e Hs Hr E. split.
    + intros Hn. split; [now apply (request_first_attempt_final c)|].
      pose proof (attemptOf_state c method path body s Hs) as [_ Ht].
      now rewrite E in Ht.
    + intros Hy Hpos. now apply (request_first_attempt_retried c _ _ _ s s1 e).
  - intros e st Hst H4 H429 Hsig.
    destruct (isRetryable e (status_of e)) eqn:Hy; [|reflexivity].
    apply isRetryable_iff in Hy as [(st' & Hst' & H)|(sig & Hin & H)].
    + rewrite Hst in Hst'. injection Hst' as <-. lia.
    + rewrite (Hsig sig Hin) in H. discriminate.
  - intros c method path body s s1 e Hs Hr E.
    rewrite request_unfold, Hs, Hr. change (Z.to_nat (0 + 1)) with 1%nat.
    rewrite (attemptLoop_last c method path body 0 _ s Hs) by lia. exact E.
  - exact request_Attempts.
  - intros status text sig Hin Htext.
    apply isRetryable_iff. right. exists sig. split; [assumption|].
    now apply apiError_holds_text.
Qed.

(** C1 (amended). An operation of the workflow family addressed to a scope
    (the profile's [projectId]; for create, its own [projectId] argument)
    first sends its request to [projects/{id}/workflows...].  When that
    request throws an error whose text [String(err)] contains [404] (for
    every operation but list, also when it contains [not found]), one
    request to the unscoped path follows and its outcome, value or error,
    is the outcome of the operation; the error of every HTTP 404 response
    passes this test; any other error is thrown on and no unscoped request
    is made.  No operation of the executions family requests anything but
    [executions...] paths. *)
Theorem scoped_request_falls_back_on_not_found_text :
  (forall (op : PrimaryOp) c pid (s : State W),
      self s = c -> op_scope c op = Some pid -> nonEmpty pid = true ->
      perform op s = scopedThenUnscoped op pid s) /\
  (forall (op : PrimaryOp) text, fallsBack op (apiError 404 text) = true) /\
  (forall (op : ExecutionOp) c (s : State W),
      self s = c -> extends c (isExecutionsUrl c) s (snd (performExecution op s))).
Proof.
  split; [exact perform_fallback|split; [exact apiError_404_fallsBack|]].
  intros op c s Hs.
  apply (stable_performExecution c (isExecutionsUrl c) op); [|assumption].
  intros. apply stable_executions.
Qed.

(** ** Running a workflow *)

(** C5. [runWorkflow] posts to [workflows/{id}/run]; when that request
    throws, whatever the error, it posts the same data with the workflow id
    to [executions].  The identifier is the first present of
    [data.executionId], [data.id], [id] of the response.  A response
    without a usable identifier ends the operation with the error
    [Workflow run returned no execution ID ...], thrown without a further
    request; an error of the second request is thrown as it is.  When the
    first request throws and the second returns [{data: {id: exec-2}}],
    the result is [{executionId: exec-2}]. *)
Theorem runWorkflow_primary_then_secondary :
  (forall workflowId data c (s : State W),
      self s = c ->
      let body := if truthy data then [("data", data)] else [] in
      runWorkflow workflowId data s =
        match request "POST" ("workflows/" ++ workflowId ++ "/run") (JObj body) s with
        | (inr res, s1) => (runOutcome c res, s1)
        | (inl _, s1) =>
            match request "POST" "executions"
                          (JObj (("workflowId", JStr workflowId) :: body)) s1 with
            | (inr res, s2) => (runOutcome c res, s2)
            | (inl e, s2) => (inl e, s2)
            end
        end) /\
  (forall res,
      extractId res =
        firstPresent [get (get res "data") "executionId"; get (get res "data") "id";
                      get res "id"] (JStr "")) /\
  (forall c, includes (String_of (noExecutionIdError c)) "no execution ID" = true) /\
  (forall workflowId data c (s s1 s2 : State W) e,
      self s = c ->
      request "POST" ("workflows/" ++ workflowId ++ "/run")
              (JObj (if truthy data then [("data", data)] else [])) s = (inl e, s1) ->
      request "POST" "executions"
              (JObj (("workflowId", JStr workflowId)
                       :: (if truthy data then [("data", data)] else []))) s1
        = (inr (JObj [("data", JObj [("id", JStr "exec-2")])]), s2) ->
      runWorkflow workflowId data s = (inr (JObj [("executionId", JStr "exec-2")]), s2)).
Proof.
  assert (Hmain : forall workflowId data c (s : State W),
      self s = c ->
      runWorkflow workflowId data s =
        match request "POST" ("workflows/" ++ workflowId ++ "/run")
                      (JObj (if truthy data then [("data", data)] else [])) s with
        | (inr res, s1) => (runOutcome c res, s1)
        | (inl _, s1) =>
            match request "POST" "executions"
                          (JObj (("workflowId", JStr workflowId)
                                   :: (if truthy data then [("data", data)] else []))) s1 with
            | (inr res, s2) => (runOutcome c res, s2)
            | (inl e, s2) => (inl e, s2)
            end
        end).
  { intros workflowId data c s Hs.
    unfold runWorkflow, runOutcome, bind, try_catch, this, ret, throw.
    destruct (request "POST" ("workflows/" ++ workflowId ++ "/run") _ s)
      as [[e|res] s1] eqn:E1.
    - pose proof (request_self_eq _ _ _ _ _ _ _ Hs E1) as H1.
      destruct (request "POST" "executions" _ s1) as [[e2|res2] s2] eqn:E2; [reflexivity|].
      pose proof (request_self_eq _ _ _ _ _ _ _ H1 E2) as H2.
      destruct (truthy (extractId res2)); [reflexivity | now rewrite H2].
    - pose proof (request_self_eq _ _ _ _ _ _ _ Hs E1) as H1.
      destruct (truthy (extractId res)); [reflexivity | now rewrite H1]. }
  split; [exact Hmain|split; [|split]].
  - intros res. unfold extractId, orElse. cbn [firstPresent].
    destruct (get (get res "data") "executionId"), (get (get res "data") "id"),
      (get res "id"); reflexivity.
  - intros c. vm_compute. reflexivity.
  - intros workflowId data c s s1 s2 e Hs E1 E2.
    rewrite (Hmain workflowId data c s Hs), E1, E2. reflexivity.
Qed.

(** ** Responses *)


(** C6. A response that is not 2xx makes the attempt throw an [Error] with
    the response's status and the message [n8n API error <status>: <m>],
    where [m] is the [message] field of the JSON body, else its
    [error.message] field, else the raw text (in particular when the body
    is not JSON).  A 2xx response with a JSON content type and a non-empty
    body that parses is returned parsed; a 2xx response with an empty body
    or another content type yields [undefined], not an error; [request]
    returns what that attempt returned. *)
Theorem response_handling :
  forall c method path body (s : State W) res w',
    self s = c ->
    fetch (requestOf c method path body) (world s) = (Resolved res, w') ->
    let s' := {| self := c; world := w';
                 trace := trace s ++ [Fetched (requestOf c method path body)];
                 output := output s ++ attemptLines c method path (Resolved res) |} in
    (res_ok res = true <-> 200 <= res_status res <= 299) /\
    (res_ok res = false ->
       attemptOf c method path body s =
         (inl (ThrownError
                 {| err_name := "Error";
                    err_message :=
                      "n8n API error " ++ Z_to_string (res_status res) ++ ": "
                      ++ bestEffortMessage (res_text res);
                    err_status := Some (res_status res);
                    err_cause := None |}), s')) /\
    (res_ok res = true -> isJsonContentType (res_contentType res) = true ->
     nonEmpty (res_text res) = true ->
     forall data, JSON_parse (res_text res) = inr data ->
       attemptOf c method path body s = (inr data, s') /\
       (0 <= retries c -> request method path body s = (inr data, s'))) /\
    (res_ok res = true ->
     nonEmpty (res_text res) = false \/ isJsonContentType (res_contentType res) = false ->
       attemptOf c method path body s = (inr JUndefined, s') /\
       (0 <= retries c -> request method path body s = (inr JUndefined, s'))).
Proof.
  intros c method path body s res w' Hs F s'.
  pose proof (attemptOf_eq c method path body s Hs) as E.
  rewrite F in E. cbn [fst snd] in E. fold s' in E.
  split; [|split; [|split]].
  - unfold res_ok. rewrite andb_true_iff, Z.leb_le, Z.leb_le. tauto.
  - intros Hok. rewrite E. unfold settle. rewrite Hok. cbn [negb].
    unfold apiError. rewrite parseApiError_message. reflexivity.
  - intros Hok Hct Htext data Hparse.
    assert (E' : attemptOf c method path body s = (inr data, s')).
    { rewrite E. unfold settle. now rewrite Hok, Hct, Htext, Hparse. }
    split; [assumption|]. intros Hr. now apply (request_first_attempt_returns c).
  - intros Hok Hor.
    assert (E' : attemptOf c method path body s = (inr JUndefined, s')).
    { rewrite E. unfold settle. rewrite Hok. cbn [negb].
      destruct (isJsonContentType (res_contentType res)); [|reflexivity].
      destruct Hor as [-> | Hf]; [reflexivity | discriminate]. }
    split; [assumption|]. intros Hr. now apply (request_first_attempt_returns c).
Qed.

(** ** Health check *)

(** C10. [ping] never throws: it returns [true] when the single-page
    workflow list call [listWorkflowsPaginated()] returns, [false] when
    that call throws, whatever the error, and does nothing else. *)
Theorem ping_is_total :
  forall s : State W,
    (exists b s', ping s = (inr b, s')) /\
    match listWorkflowsPaginated None JUndefined None s with
    | (inr _, s') => ping s = (inr true, s')
    | (inl _, s') => ping s = (inr false, s')
    end.
Proof.
  intros s. unfold ping, try_catch, bind, ret.
  destruct (listWorkflowsPaginated None JUndefined None s) as [[e|v] s'];
    (split; [eauto | reflexivity]).
Qed.

(** ** Listing all pages *)

Lemma collectPages_Serves (page : jsval -> Client W jsval) :
  forall cursor s pages s',
    Serves page cursor s pages s' ->
    forall fuel all, (List.length pages <= fuel)%nat ->
      collectPages page fuel all cursor s = (inr (Some (all ++ List.concat pages)%list), s').
Proof.
  induction 1 as [cursor s res s' items E Hd Hn
                 | cursor s res s1 items rest s' E Hd Hn HS IH];
    intros fuel all Hf; (destruct fuel as [|fuel]; [simpl in Hf; lia|]);
    simpl; unfold bind; rewrite E, Hd, Hn.
  - simpl. now rewrite app_nil_r.
  - rewrite IH by (simpl in Hf; lia). now rewrite <- app_assoc.
Qed.

Lemma collectPages_finished (page : jsval -> Client W jsval) :
  forall fuel all cursor s result s',
    collectPages page fuel all cursor s = (inr (Some result), s') ->
    exists pages,
      Serves page cursor s pages s' /\ result = (all ++ List.concat pages)%list /\
      (List.length pages <= fuel)%nat.
Proof.
  induction fuel as [|fuel IH]; intros all cursor s result s' H; simpl in H.
  - discriminate.
  - unfold bind in H.
    destruct (page cursor s) as [[e|res] s1] eqn:E; [discriminate|].
    destruct (spreadElements _) as [e|items] eqn:Hd; [discriminate|].
    destruct (truthy (get res "nextCursor")) eqn:Hn.
    + destruct (IH _ _ _ _ _ H) as (pages & HS & -> & Hlen).
      exists (items :: pages). repeat split.
      * eapply Serves_more; eauto.
      * simpl. now rewrite app_assoc.
      * simpl. lia.
    + injection H as <- <-. exists [items]. repeat split.
      * eapply Serves_last; eauto.
      * simpl. now rewrite app_nil_r.
      * simpl. lia.
Qed.

Lemma collectPages_pending (page : jsval -> Client W jsval) :
  forall fuel all cursor s s',
    collectPages page fuel all cursor s = (inr None, s') ->
    forall pages s'', Serves page cursor s pages s'' -> (fuel < List.length pages)%nat.
Proof.
  intros fuel all cursor s s' H pages s'' HS.
  destruct (Nat.lt_ge_cases fuel (List.length pages)) as [Hlt|Hge]; [assumption|].
  rewrite (collectPages_Serves page _ _ _ _ HS fuel all Hge) in H. discriminate.
Qed.

(** C7. The two "list all" methods run the same loop over their paginated
    primitive.  When the primitive returns pages of which all but the last
    carry a next cursor, the loop (given fuel for them) returns the records
    of the pages concatenated in the order received, nothing dropped or
    reordered, and stops after the first page without a next cursor (one
    that is absent, [null] or empty); conversely a finished loop has seen
    exactly such a sequence of pages, and a loop cut short by its fuel has
    not yet seen a page without a next cursor.  Pages [{data: [A, B], nextCursor:
    c1}] and [{data: [C]}] give [[A, B, C]]. *)
Theorem list_all_concatenates_pages :
  (forall fuel active name,
      listWorkflowsAll fuel active name =
      collectPages (fun cursor => listWorkflowsPaginated active cursor name)
                   fuel [] JUndefined) /\
  (forall fuel workflowId status,
      listExecutionsAll fuel workflowId status =
      collectPages (fun cursor => listExecutionsPaginated workflowId cursor status)
                   fuel [] JUndefined) /\
  (forall (page : jsval -> Client W jsval) s pages s' fuel,
      Serves page JUndefined s pages s' -> (List.length pages <= fuel)%nat ->
      collectPages page fuel [] JUndefined s = (inr (Some (List.concat pages)), s')) /\
  (forall (page : jsval -> Client W jsval) fuel s result s',
      collectPages page fuel [] JUndefined s = (inr (Some result), s') ->
      exists pages,
        Serves page JUndefined s pages s' /\ result = List.concat pages /\
        (List.length pages <= fuel)%nat) /\
  (forall (page : jsval -> Client W jsval) fuel s s',
      collectPages page fuel [] JUndefined s = (inr None, s') ->
      forall pages s'', Serves page JUndefined s pages s'' ->
                        (fuel < List.length pages)%nat) /\
  (forall (page : jsval -> Client W jsval) s s1 s2 p1 p2 A B C fuel,
      page JUndefined s = (inr p1, s1) ->
      get p1 "data" = JArr [A; B] -> get p1 "nextCursor" = JStr "c1" ->
      page (JStr "c1") s1 = (inr p2, s2) ->
      get p2 "data" = JArr [C] -> get p2 "nextCursor" = JUndefined ->
      (2 <= fuel)%nat ->
      collectPages page fuel [] JUndefined s = (inr (Some [A; B; C]), s2)).
Proof.
  split; [reflexivity|split; [reflexivity|split; [|split; [|split]]]].
  - intros page s pages s' fuel HS Hf.
    now rewrite (collectPages_Serves page _ _ _ _ HS fuel [] Hf).
  - intros page fuel s result s' H.
    destruct (collectPages_finished page _ _ _ _ _ _ H) as (pages & HS & -> & Hlen).
    now exists pages.
  - intros page fuel s s' H pages s'' HS.
    exact (collectPages_pending page _ _ _ _ _ H pages s'' HS).
  - intros page s s1 s2 p1 p2 A B C fuel E1 D1 N1 E2 D2 N2 Hf.
    assert (HS : Serves page JUndefined s [[A; B]; [C]] s2).
    { eapply Serves_more; [exact E1 | now rewrite D1 | now rewrite N1 |].
      rewrite N1. eapply Serves_last; [exact E2 | now rewrite D2 | now rewrite N2]. }
    now rewrite (collectPages_Serves page _ _ _ _ HS fuel [] Hf).
Qed.

(** ** The profile *)

(** C9 (amended). The client object is fixed by its constructor and no
    operation changes any of its fields, a fallback included.  Every
    request an operation sends to a project-scoped path is scoped by the
    profile's [projectId], except for create, whose scoped request is
    scoped by the [projectId] argument of the call, whatever the profile
    holds. *)
Theorem profile_is_never_changed :
  (forall config,
      let c := new_N8nClient config in
      baseUrl c = stripTrailingSlash (cfg_baseUrl config) /\
      apiKey c = cfg_apiKey config /\
      projectId c = cfg_projectId config /\
      rejectUnauthorized c = withDefault (cfg_rejectUnauthorized config) true /\
      timeoutMs c = withDefault (cfg_timeoutMs config) 30000 /\
      retries c = withDefault (cfg_retries config) 3) /\
  (forall (op : Operation) c (s : State W),
      self s = c -> self (snd (run op s)) = c) /\
  (forall (op : Operation) c (s : State W),
      self s = c -> extends c (scopedOnlyBy c (scopeOf c op)) s (snd (run op s))) /\
  (forall (op : Operation) c,
      scopeOf c op =
        match op with
        | Primary (CreateWorkflow _ projectIdArg) => projectIdArg
        | _ => projectId c
        end).
Proof.
  split; [|split; [|split]].
  - intros config c. repeat split.
  - intros op c s Hs. now destruct (stable_run c op s Hs).
  - intros op c s Hs. now apply stable_run.
  - intros op c. destruct op as [[]| | | | | | | | | | | | | | |]; reflexivity.
Qed.

End Theory.

(** ** Configuration loading *)

Section LoadConfigTheory.

Context {W : Type} {P : Platform W}.

Lemma searchNames_firstConfig rootDir names :
  searchNames rootDir names = firstConfig (map (configPathOf rootDir) names).
Proof.
  induction names as [|name rest IH]; simpl; [reflexivity|].
  destruct (readConfigAt (configPathOf rootDir name)); [reflexivity | exact IH].
Qed.

Lemma firstConfig_app l1 l2 :
  firstConfig (l1 ++ l2) =
    match firstConfig l1 with Some config => Some config | None => firstConfig l2 end.
Proof.
  induction l1 as [|p l1 IH]; simpl; [now destruct (firstConfig l2)|].
  destruct (readConfigAt p); [reflexivity | exact IH].
Qed.

Lemma searchRoots_firstConfig roots names :
  searchRoots roots names =
    firstConfig (flat_map (fun rootDir => map (configPathOf rootDir) names) roots).
Proof.
  induction roots as [|rootDir rest IH]; simpl; [reflexivity|].
  rewrite firstConfig_app, <- searchNames_firstConfig.
  destruct (searchNames rootDir names); [reflexivity | exact IH].
Qed.

Lemma firstConfig_Some paths config :
  firstConfig paths = Some config <->
  exists before p after,
    paths = (before ++ p :: after)%list /\
    Forall (fun q => readConfigAt q = None) before /\
    readConfigAt p = Some config.
Proof.
  induction paths as [|q rest IH]; simpl.
  - split; [discriminate|]. intros (before & p & after & H & _). now destruct before.
  - destruct (readConfigAt q) as [cfg|] eqn:E.
    + split.
      * intros [= <-]. exists [], q, rest. repeat split; [constructor | assumption].
      * intros (before & p & after & H & HF & Hp).
        destruct before as [|b before]; simpl in H; injection H as <- ->.
        -- congruence.
        -- inversion HF; congruence.
    + rewrite IH. split.
      * intros (before & p & after & -> & HF & Hp).
        exists (q :: before), p, after. repeat split; [now constructor | assumption].
      * intros (before & p & after & H & HF & Hp).
        destruct before as [|b before]; simpl in H; injection H as <- ->.
        -- congruence.
        -- inversion HF; subst. now exists before, p, after.
Qed.

Lemma firstConfig_None paths :
  firstConfig paths = None <-> forall p, In p paths -> readConfigAt p = None.
Proof.
  induction paths as [|q rest IH]; simpl.
  - split; [intros _ p [] | reflexivity].
  - destruct (readConfigAt q) eqn:E.
    + split; [discriminate|]. intros H. specialize (H q (or_introl eq_refl)). congruence.
    + rewrite IH. split.
      * intros H p [<-|Hin]; [assumption | now apply H].
      * intros H p Hin. apply H. now right.
Qed.

Lemma readConfigAt_Some p config :
  readConfigAt p = Some config <->
  exists content,
    readFile p = Some content /\ JSON_parse content = inr config /\
    truthy (get config "baseUrl") = true /\ truthy (get config "apiKey") = true.
Proof.
  unfold readConfigAt. split.
  - destruct (readFile p) as [content|]; [|discriminate].
    destruct (JSON_parse content) as [e|cfg] eqn:Hj; [discriminate|].
    destruct (nullish cfg); [discriminate|].
    destruct (truthy (get cfg "baseUrl")) eqn:Hb; [|discriminate].
    destruct (truthy (get cfg "apiKey")) eqn:Hk; [|discriminate].
    intros [= <-]. exists content. repeat split; assumption.
  - intros (content & -> & -> & Hb & Hk).
    rewrite Hb, Hk.
    destruct config; try reflexivity; discriminate.
Qed.

Lemma tlsFlag_false (o : option string) :
  negb match o with Some x => String.eqb x "false" | None => false end = false <->
  o = Some "false".
Proof.
  destruct o as [x|]; [|split; discriminate].
  rewrite negb_false_iff, String.eqb_eq. split; congruence.
Qed.

Lemma tlsFlag_true (o : option string) :
  negb match o with Some x => String.eqb x "false" | None => false end = true <->
  o <> Some "false".
Proof.
  destruct o as [x|]; [|split; [discriminate | reflexivity]].
  rewrite negb_true_iff, <- not_true_iff_false, String.eqb_eq. split; congruence.
Qed.

(** C8 (amended). [loadConfig] looks at N8N_BASE_URL and N8N_API_KEY first:
    when both are non-empty after trimming it returns at once the object
    built from them, with [rejectUnauthorized] true unless
    N8N_REJECT_UNAUTHORIZED is exactly [false].  Otherwise it returns,
    verbatim, the parsed content of the first candidate file, in the order
    directories then names, that can be read, parses as JSON and holds
    truthy [baseUrl] and [apiKey].  When there is none it throws an
    [Error] whose message is fixed text, naming the two environment
    variables, the file to create and the variable N8N_CONFIG_FILE,
    followed by a hint computed from the working directory alone; the
    message does not repeat the override path that was tried. *)
Theorem loadConfig_resolution :
  (forall b k,
      envTrimmed "N8N_BASE_URL" = Some b -> nonEmpty b = true ->
      envTrimmed "N8N_API_KEY" = Some k -> nonEmpty k = true ->
      loadConfig = inr (envConfig b k) /\
      (get (envConfig b k) "rejectUnauthorized" = JBool false <->
       env "N8N_REJECT_UNAUTHORIZED" = Some "false") /\
      (get (envConfig b k) "rejectUnauthorized" = JBool true <->
       env "N8N_REJECT_UNAUTHORIZED" <> Some "false")) /\
  (truthyStr (envTrimmed "N8N_BASE_URL") && truthyStr (envTrimmed "N8N_API_KEY") = false ->
      (forall config,
          loadConfig = inr config <->
          exists before p after,
            candidatePaths = (before ++ p :: after)%list /\
            Forall (fun q => readConfigAt q = None) before /\
            readConfigAt p = Some config) /\
      ((forall p, In p candidatePaths -> readConfigAt p = None) ->
       loadConfig = inl (ThrownError (newError (CONFIG_ERROR ++ configHint))))) /\
  (forall p config,
      readConfigAt p = Some config <->
      exists content,
        readFile p = Some content /\ JSON_parse content = inr config /\
        truthy (get config "baseUrl") = true /\ truthy (get config "apiKey") = true) /\
  (includes CONFIG_ERROR "Use N8N_BASE_URL + N8N_API_KEY env vars" = true /\
   includes CONFIG_ERROR "or create config/n8n-config.local.json" = true /\
   includes CONFIG_ERROR "Use N8N_CONFIG_FILE for a specific config file" = true) /\
  (configHint = "" \/
   configHint = " Create config/n8n-config.local.json in " ++ path_basename cwd ++
                " (copy from config/n8n-config.example.json).").
Proof.
  split; [|split; [|split; [|split]]].
  - intros b k Hb Hbne Hk Hkne.
    assert (Hr : forall v : bool,
               get (envConfig b k) "rejectUnauthorized" = JBool v <->
               negb match env "N8N_REJECT_UNAUTHORIZED" with
                    | Some x => String.eqb x "false" | None => false end = v).
    { intros v. unfold envConfig. cbn [get lookup String.eqb Ascii.eqb Bool.eqb].
      split; [now intros [= <-] | now intros <-]. }
    split; [|split].
    + unfold loadConfig, envConfig. rewrite Hb, Hk. cbn [truthyStr withDefault].
      rewrite Hbne, Hkne. cbn [andb]. repeat f_equal.
      unfold truthyStr. destruct (envTrimmed "N8N_PROJECT_ID"); reflexivity.
    + rewrite Hr. apply tlsFlag_false.
    + rewrite Hr. apply tlsFlag_true.
  - intros Henv. unfold loadConfig. rewrite Henv.
    rewrite searchRoots_firstConfig. fold candidatePaths. split.
    + intros config. rewrite <- firstConfig_Some.
      destruct (firstConfig candidatePaths); split; congruence.
    + intros Hnone. apply firstConfig_None in Hnone. now rewrite Hnone.
  - exact readConfigAt_Some.
  - repeat split; vm_compute; reflexivity.
  - unfold configHint. destruct (_ || _); [now right | now left].
Qed.

End LoadConfigTheory.

(** ** Error classification *)

Lemma remediations_distinct :
  NoDup [MSG_UNAUTHORIZED; MSG_FORBIDDEN; MSG_NOT_FOUND; MSG_UNRESOLVED; MSG_REFUSED;
         MSG_SELF_SIGNED; MSG_TIMEOUT].
Proof.
  repeat (constructor;
          [ simpl; intros H;
            repeat (destruct H as [H|H];
                    [apply String.eqb_eq in H; vm_compute in H; discriminate|]);
            exact H
          | ]).
  constructor.
Qed.

Lemma whether_or3 {A : Type} (a x c : bool) (yes rest : thrown + A) :
  whether (orElseTry a (tryOr (inr x) c)) yes rest = if a || x || c then yes else rest.
Proof. now destruct a, x, c. Qed.

Lemma whether_or2 {A : Type} (a x : bool) (yes rest : thrown + A) :
  whether (orElseTry a (inr x)) yes rest = if a || x then yes else rest.
Proof. now destruct a, x. Qed.

Lemma toFriendlyApiError_classify (err : thrown) (causeMsg causeCode : string) :
  causeMsgOf err = JStr causeMsg -> causeCodeOf err = JStr causeCode ->
  toFriendlyApiError (Caught err) = inr (classify_spec (messageOf err) causeMsg causeCode).
Proof.
  intros Hm Hc.
  unfold toFriendlyApiError, classify_spec, priority. rewrite Hm, Hc.
  cbn [isString includesOf truthy toStr].
  rewrite !whether_or3, !whether_or2.
  cbn [find triggers remediation].
  repeat match goal with
         | |- context [if ?b then _ else _] => destruct b; try reflexivity
         end.
Qed.

Lemma causedBy_message message code : get (causedBy message code) "message" = JStr message.
Proof. reflexivity. Qed.

Lemma causedBy_code message code :
  orElse (get (causedBy message code) "code") (JStr "") = JStr (withDefault code "").
Proof. destruct code; reflexivity. Qed.

(** C4 (amended). On the values the client and the transport produce,
    [toFriendlyApiError] returns, and what it returns is a function of the
    error's message, the message of its cause and the code of its cause: an
    [Error] without cause, an [Error] whose cause is an [Error] with a
    message and possibly a code, and any value that is not an [Error] and
    whose conversion to a string returns, read through [String(err)].  It
    answers with the remediation of the first category that applies, in the
    order unauthorized (401), forbidden (403), not found (404), unresolved
    host (ENOTFOUND), connection refused (ECONNREFUSED), self-signed
    certificate, timeout or abort, branded n8n API error, other transport
    failure; the seven fixed remediation texts are pairwise distinct; when
    no category applies the message is returned as it is, so a plain string
    that none recognises comes back unchanged.  More generally it returns
    whenever the message of the cause is absent or a string.  It is not
    total on its parameter type: a value whose conversion to a string
    throws makes it throw, and so does an [Error] whose cause has a
    [message] that is a number, a boolean or an object, unless the error's
    message decides for one of the first three categories or the code of
    the cause is [ENOTFOUND]. *)
Theorem friendly_error_classification :
  (forall name msg status,
      toFriendlyApiError (Caught (ThrownError (mkError name msg status None)))
        = inr (classify_spec msg "" "")) /\
  (forall name msg status causeMsg code,
      toFriendlyApiError
        (Caught (ThrownError (mkError name msg status (Some (causedBy causeMsg code)))))
        = inr (classify_spec msg causeMsg (withDefault code ""))) /\
  (forall v,
      toFriendlyApiError (Caught (ThrownValue v)) = inr (classify_spec (toStr v) "" "")) /\
  NoDup [MSG_UNAUTHORIZED; MSG_FORBIDDEN; MSG_NOT_FOUND; MSG_UNRESOLVED; MSG_REFUSED;
         MSG_SELF_SIGNED; MSG_TIMEOUT] /\
  (forall msg causeMsg causeCode,
      (forall c, In c priority -> triggers c msg causeMsg causeCode = false) ->
      classify_spec msg causeMsg causeCode = msg) /\
  (forall s,
      (forall c, In c priority -> triggers c s "" "" = false) ->
      toFriendlyApiError (Caught (ThrownValue (JStr s))) = inr s) /\
  (forall name msg status cause,
      nullish (get cause "message") = true \/ (exists m, get cause "message" = JStr m) ->
      exists text,
        toFriendlyApiError (Caught (ThrownError (mkError name msg status (Some cause))))
          = inr text) /\
  (forall raised, toFriendlyApiError (Unprintable raised) = inl raised) /\
  (forall name msg status cause,
      (forall c, In c [Unauthorized; Forbidden; NotFound] -> triggers c msg "" "" = false) ->
      isString (get cause "code") "ENOTFOUND" = false ->
      match get cause "message" with
      | JNum _ | JBool _ | JObj _ => True
      | _ => False
      end ->
      toFriendlyApiError (Caught (ThrownError (mkError name msg status (Some cause))))
        = inl (typeError "causeMsg.includes is not a function")).
Proof.
  assert (Hraw : forall msg causeMsg causeCode,
             (forall c, In c priority -> triggers c msg causeMsg causeCode = false) ->
             classify_spec msg causeMsg causeCode = msg).
  { intros msg cm cc Hnone. unfold classify_spec.
    destruct (find (fun c => triggers c msg cm cc) priority) as [c|] eqn:Hf; [|reflexivity].
    apply find_some in Hf as [Hin Ht]. rewrite (Hnone c Hin) in Ht. discriminate. }
  assert (Hvalue : forall v,
             toFriendlyApiError (Caught (ThrownValue v))
               = inr (classify_spec (toStr v) "" "")).
  { intros v. now apply (toFriendlyApiError_classify (ThrownValue v)). }
  repeat apply conj.
  - intros name msg status.
    now apply (toFriendlyApiError_classify (ThrownError (mkError name msg status None))).
  - intros name msg status causeMsg code.
    apply (toFriendlyApiError_classify
             (ThrownError (mkError name msg status (Some (causedBy causeMsg code))))).
    + reflexivity.
    + apply causedBy_code.
  - exact Hvalue.
  - exact remediations_distinct.
  - exact Hraw.
  - intros s Hnone. rewrite Hvalue. cbn [toStr]. now rewrite (Hraw _ _ _ Hnone).
  - intros name msg status cause Hm.
    assert (exists cm, causeMsgOf (ThrownError (mkError name msg status (Some cause)))
                       = JStr cm) as (cm & Hcm).
    { unfold causeMsgOf, causeOf, orElse. cbn [err_cause].
      destruct Hm as [-> | (m & ->)]; cbn [nullish]; eauto. }
    unfold toFriendlyApiError. rewrite Hcm.
    cbn [includesOf truthy toStr].
    rewrite !whether_or3, !whether_or2.
    repeat match goal with
           | |- context [if ?b then _ else _] => destruct b; eauto
           end.
  - reflexivity.
  - intros name msg status cause Hnone Hcode Hmsg.
    pose proof (Hnone Unauthorized ltac:(simpl; tauto)) as H1.
    pose proof (Hnone Forbidden ltac:(simpl; tauto)) as H2.
    pose proof (Hnone NotFound ltac:(simpl; tauto)) as H3.
    cbn [triggers] in H1, H2, H3.
    unfold toFriendlyApiError. cbn [messageOf err_message]. rewrite H1, H2, H3.
    unfold causeCodeOf, causeMsgOf, causeOf. cbn [err_cause].
    assert (isString (orElse (get cause "code") (JStr "")) "ENOTFOUND" = false) as ->.
    { unfold orElse. destruct (nullish (get cause "code")); [reflexivity|assumption]. }
    unfold orElse.
    destruct (get cause "message"); try contradiction; reflexivity.
Qed.

(** * Scenarios

    The properties above, run on the scripted host. *)

(** A plain string no category recognises comes back unchanged; a refused
    connection and an unresolved host as the [fetch] of Node reports them
    are recognised by the code of their cause, and another transport
    failure is shown with the message of its cause. *)
Lemma friendly_error_classification_witness :
  toFriendlyApiError (Caught (ThrownValue (JStr "string error"))) = inr "string error" /\
  toFriendlyApiError (Caught connectionRefused) = inr MSG_REFUSED /\
  toFriendlyApiError
    (Caught (ThrownError
               (mkError "TypeError" "fetch failed" None
                  (Some (causedBy "getaddrinfo ENOTFOUND n8n.example.com"
                                  (Some "ENOTFOUND"))))))
    = inr MSG_UNRESOLVED /\
  toFriendlyApiError
    (Caught (ThrownError
               (mkError "TypeError" "fetch failed" None
                  (Some (causedBy "other side closed" None)))))
    = inr ("Connection failed: other side closed" ++ CONNECTION_HINT).
Proof.
  destruct friendly_error_classification as (_ & Caused & _ & _ & _ & Plain & _).
  split; [|split; [|split]].
  - apply (Plain "string error").
    intros c Hin. simpl in Hin.
    repeat (destruct Hin as [<-|Hin]; [reflexivity|]). destruct Hin.
  - exact (Caused "TypeError" "fetch failed" None "connect ECONNREFUSED 127.0.0.1:5678"
                  (Some "ECONNREFUSED")).
  - exact (Caused "TypeError" "fetch failed" None "getaddrinfo ENOTFOUND n8n.example.com"
                  (Some "ENOTFOUND")).
  - exact (Caused "TypeError" "fetch failed" None "other side closed" None).
Defined.

(** One retry allowed, a 500 then a 200: two attempts, one second apart. *)
Lemma request_retry_schedule_witness :
  let c := exampleClient None 1 in
  let s := start c [failed 500 "Internal error"; okJson emptyPage] in
  (exists j : nat,
      (1 <= j)%nat /\ Z.of_nat j <= 2 /\
      trace (snd (request (P := Host) "GET" "workflows" JUndefined s))
        = schedule (requestOf (P := Host) c "GET" "workflows" JUndefined) j 0) /\
  (exists req,
      listWorkflowsPaginated (P := Host) None JUndefined None s =
        (inr (JObj [("data", JArr [])]),
         {| self := c; world := []; trace := [Fetched req; Slept 1000; Fetched req];
            output := [] |})).
Proof.
  intros c s.
  destruct (@request_retry_schedule _ Host) as (General & _ & _ & Scenario). split.
  - destruct (General c "GET" "workflows" JUndefined s eq_refl ltac:(vm_compute; discriminate))
      as (j & H1 & H2 & _ & H4 & _).
    exists j. repeat split; assumption.
  - destruct (Scenario c s (mkResponse 500 (Some "text/plain") "Internal error")
                (mkResponse 200 (Some "application/json") (stringify emptyPage))
                [okJson emptyPage] []
                eq_refl eq_refl (fun _ => eq_refl) eq_refl (fun _ => eq_refl) eq_refl
                eq_refl eq_refl) as (req & path & H & _).
    exists req. exact H.
Defined.

(** A 404 is thrown after one attempt with three retries allowed. *)
Lemma retry_decision_witness :
  let c := exampleClient None 3 in
  let s := start c [failed 404 "no such workflow"; okJson emptyPage] in
  exists e s1,
    request (P := Host) "GET" "workflows/w1" JUndefined s = (inl e, s1) /\
    status_of e = Some 404 /\
    trace s1 = [Fetched (requestOf (P := Host) c "GET" "workflows/w1" JUndefined)].
Proof.
  intros c s.
  destruct (@retry_decision _ Host) as (_ & Step & _).
  destruct (Step c "GET" "workflows/w1" JUndefined s _ _ eq_refl
              ltac:(vm_compute; discriminate) eq_refl) as (Final & _).
  destruct (Final eq_refl) as (H1 & H2).
  eexists _, _. split; [exact H1|split; [reflexivity | exact H2]].
Defined.

(** A 404 on the scoped path of [getWorkflow], then the unscoped answer. *)
Lemma scoped_request_falls_back_witness :
  let c := exampleClient (Some "p1") 0 in
  let s := start c [failed 404 "no such project"; okJson recA] in
  getWorkflow (P := Host) "w1" s
    = scopedThenUnscoped (P := Host) (GetWorkflow "w1") "p1" s /\
  fst (getWorkflow (P := Host) "w1" s) = inr recA.
Proof.
  intros c s.
  destruct (@scoped_request_falls_back_on_not_found_text _ Host) as (Fallback & _ & _).
  split; [exact (Fallback (GetWorkflow "w1") c "p1" s eq_refl eq_refl eq_refl)|].
  reflexivity.
Defined.

(** The run endpoint throws, the executions endpoint answers. *)
Lemma runWorkflow_primary_then_secondary_witness :
  let c := exampleClient None 0 in
  let s := start c [Rejected (ThrownError (newError "404")); okJson execResponse] in
  fst (runWorkflow (P := Host) "w1" JUndefined s) = inr (JObj [("executionId", JStr "exec-2")]).
Proof.
  intros c s.
  destruct (@runWorkflow_primary_then_secondary _ Host) as (_ & _ & _ & Scenario).
  rewrite (Scenario "w1" JUndefined c s
             (snd (request (P := Host) "POST" "workflows/w1/run" (JObj []) s))
             (snd (runWorkflow (P := Host) "w1" JUndefined s))
             (ThrownError (newError "404")) eq_refl eq_refl eq_refl).
  reflexivity.
Defined.

(** A 400 with a plain-text body becomes an API error carrying the text. *)
Lemma response_handling_witness :
  let c := exampleClient None 0 in
  let s := start c [failed 400 "bad request"] in
  attemptOf (P := Host) c "GET" "workflows" JUndefined s =
    (inl (ThrownError (mkError "Error" "n8n API error 400: bad request" (Some 400) None)),
     {| self := c; world := [];
        trace := [Fetched (requestOf (P := Host) c "GET" "workflows" JUndefined)];
        output := [] |}).
Proof.
  intros c s.
  destruct (@response_handling _ Host c "GET" "workflows" JUndefined s
              (mkResponse 400 (Some "text/plain") "bad request") [] eq_refl eq_refl)
    as (_ & NotOk & _ & _).
  exact (NotOk eq_refl).
Defined.

(** Two pages, the first with a next cursor. *)
Lemma list_all_concatenates_pages_witness :
  let c := exampleClient None 0 in
  let s := start c [okJson page1; okJson page2] in
  fst (listWorkflowsAll (P := Host) 5 None None s) = inr (Some [recA; recB; recC]).
Proof.
  intros c s.
  destruct (@list_all_concatenates_pages _ Host) as (Same & _ & _ & _ & _ & Scenario).
  rewrite Same.
  rewrite (Scenario (fun cursor => listWorkflowsPaginated (P := Host) None cursor None) s
             (snd (listWorkflowsPaginated (P := Host) None JUndefined None s))
             (snd (listWorkflowsAll (P := Host) 5 None None s))
             page1 page2 recA recB recC 5%nat
             eq_refl eq_refl eq_refl eq_refl eq_refl eq_refl ltac:(lia)).
  reflexivity.
Defined.

(** A profile from the environment, and a failure with nothing to read. *)
Lemma loadConfig_resolution_witness :
  loadConfig (P := HostWithEnv) =
    inr (JObj [("baseUrl", JStr "https://n8n.example.com"); ("apiKey", JStr "key");
               ("projectId", JUndefined); ("rejectUnauthorized", JBool true)]) /\
  (exists msg, loadConfig (P := HostWithOverride) = inl (ThrownError (newError msg))).
Proof.
  destruct (@loadConfig_resolution _ HostWithEnv) as (FromEnv & _).
  destruct (@loadConfig_resolution _ HostWithOverride) as (_ & FromFiles & _).
  split.
  - destruct (FromEnv "https://n8n.example.com" "key" eq_refl eq_refl eq_refl eq_refl)
      as (H & _).
    exact H.
  - destruct (FromFiles eq_refl) as (_ & Fails).
    eexists. apply Fails.
    intros p Hin. simpl in Hin.
    repeat (destruct Hin as [<-|Hin]; [reflexivity|]). destruct Hin.
Defined.

(** A fallback leaves the client object as it was. *)
Lemma profile_is_never_changed_witness :
  let c := exampleClient (Some "p1") 0 in
  let s := start c [failed 404 "no such project"; okJson recA] in
  self (snd (run (P := Host) (Primary (GetWorkflow "w1")) s)) = c.
Proof.
  intros c s.
  destruct (@profile_is_never_changed _ Host) as (_ & Same & _).
  exact (Same (Primary (GetWorkflow "w1")) c s eq_refl).
Defined.

(** The failure of a scoped request with status 403, whose text holds
    [not found], is followed by a request to the unscoped path. *)
Lemma forbidden_not_found_text_is_retried_unscoped :
  let c := exampleClient (Some "p1") 0 in
  let s := start c [failed 403 "Project not found"; okJson recA] in
  request (P := Host) "GET" "projects/p1/workflows/w1" JUndefined s =
    (inl (ThrownError (mkError "Error" "n8n API error 403: Project not found"
                               (Some 403) None)),
     {| self := c; world := [okJson recA];
        trace := [Fetched (requestOf (P := Host) c "GET" "projects/p1/workflows/w1"
                                     JUndefined)];
        output := [] |}) /\
  map req_url (fetches (trace (snd (getWorkflow (P := Host) "w1" s)))) =
    ["https://n8n.example.com/api/v1/projects/p1/workflows/w1";
     "https://n8n.example.com/api/v1/workflows/w1"] /\
  fst (getWorkflow (P := Host) "w1" s) = inr recA.
Proof. repeat split. Qed.

(** With one retry allowed, the failure of a response with status 400 whose
    body holds [timed out] does not propagate: a second attempt is made
    after one second, and its result is returned. *)
Lemma bad_request_holding_a_signature_is_retried :
  let c := exampleClient None 1 in
  let s := start c [failed 400 "upstream timed out"; okJson emptyPage] in
  let req := requestOf (P := Host) c "GET" "workflows" JUndefined in
  attemptOf (P := Host) c "GET" "workflows" JUndefined s =
    (inl (ThrownError (mkError "Error" "n8n API error 400: upstream timed out"
                               (Some 400) None)),
     {| self := c; world := [okJson emptyPage]; trace := [Fetched req]; output := [] |}) /\
  request (P := Host) "GET" "workflows" JUndefined s =
    (inr emptyPage,
     {| self := c; world := []; trace := [Fetched req; Slept 1000; Fetched req];
        output := [] |}).
Proof. repeat split. Qed.

(** A refused connection, as the [fetch] of Node reports it, is retried:
    its text holds [fetch failed]. *)
Lemma refused_connection_is_retried :
  let c := exampleClient None 1 in
  let s := mkState c tt [] [] in
  isRetryable connectionRefused (status_of connectionRefused) = true /\
  List.length
    (fetches (trace (snd (request (P := Down connectionRefused) "GET" "workflows"
                                  JUndefined s)))) = 2%nat.
Proof. repeat split. Qed.

(** With [debug] set the attempts and the retry are logged on standard
    error. *)
Lemma debug_client_logs_its_attempts :
  let c := new_N8nClient
             (mkConfig "https://n8n.example.com" "key" None None None (Some 1) (Some true)) in
  let s := start c [failed 500 "Internal error"; okJson emptyPage] in
  output (snd (request (P := Host) "GET" "workflows" JUndefined s)) =
    [debugLine [JStr "GET workflows"];
     debugLine [JStr "Retry 1/1 in 1000ms:"; JStr "n8n API error 500: Internal error"];
     debugLine [JStr "GET workflows"];
     debugLine [JStr "GET workflows -> 200"]].
Proof. reflexivity. Qed.

(** An [Error] whose cause carries a number as its [message] makes
    [toFriendlyApiError] throw. *)
Lemma cause_message_that_is_not_a_string_throws :
  toFriendlyApiError
    (Caught (ThrownError (mkError "Error" "boom" None (Some (JObj [("message", JNum 5)])))))
    = inl (typeError "causeMsg.includes is not a function").
Proof. reflexivity. Qed.

(** The failure message of [loadConfig] does not hold the override path
    that was tried. *)
Lemma override_path_is_not_echoed :
  env (Platform := HostWithOverride) "N8N_CONFIG_FILE" = Some overridePath /\
  candidatePaths (P := HostWithOverride) =
    [overridePath; overridePath; overridePath; overridePath] /\
  exists msg,
    loadConfig (P := HostWithOverride) = inl (ThrownError (newError msg)) /\
    includes msg overridePath = false.
Proof.
  split; [reflexivity|split; [reflexivity|]].
  eexists. split; [reflexivity|]. vm_compute. reflexivity.
Qed.

(** On a client whose profile is scoped to [p1], create called with
    another project id sends its scoped request to that project, and create
    called without one sends no scoped request. *)
Lemma create_is_scoped_by_its_argument :
  let c := exampleClient (Some "p1") 0 in
  let s := start c [okJson recA] in
  projectId c = Some "p1" /\
  map req_url (fetches (trace (snd (createWorkflow (P := Host) recA (Some "other") s)))) =
    ["https://n8n.example.com/api/v1/projects/other/workflows"] /\
  ~ Forall (scopedOnlyBy c (projectId c))
           (trace (snd (createWorkflow (P := Host) recA (Some "other") s))) /\
  map req_url (fetches (trace (snd (createWorkflow (P := Host) recA None s)))) =
    ["https://n8n.example.com/api/v1/workflows"].
Proof.
  intros c s. split; [reflexivity|split; [reflexivity|split; [|reflexivity]]].
  intros H. inversion H as [|ev evs Hhead Htail]; subst.
  vm_compute in Hhead. destruct Hhead as [Hu|Hs]; discriminate.
Qed.

(** * Further properties of the client *)

Section CallTheory.

Context {W : Type} {P : Platform W}.

Ltac stable_any HF HS :=
  repeat lazymatch goal with
  | |- stable _ _ (ret _) => apply stable_ret
  | |- stable _ _ (throw _) => apply stable_throw
  | |- stable _ _ (bind this _) => apply stable_this
  | |- stable _ _ (some _ _) => apply stable_some
  | |- stable _ _ (bind _ _) => apply stable_bind; [|intros ?]
  | |- stable _ _ (try_catch _ _) => apply stable_try; [|intros ?]
  | |- stable _ _ (if ?b then _ else _) => destruct b
  | |- stable _ _ (match ?x with _ => _ end) => destruct x
  | |- stable _ _ (request _ _ _) => apply stable_request; [apply HF | exact HS]
  | |- stable _ _ (collectPages _ _ _ _) => apply stable_collectPages; intros ?
  end.

(** Whatever holds of every call [request] can make on client [c] holds of
    every call of every operation. *)
Lemma stable_run_any c (Q : Event -> Prop) :
  (forall method path body, Q (Fetched (requestOf c method path body))) ->
  (forall ms, Q (Slept ms)) ->
  forall op : Operation, stable c Q (run op).
Proof.
  intros HF HS op.
  destruct op as [[]|[]| | | | | | | | | | | | | |]; simpl run; simpl performExecution;
    unfold perform, listWorkflowsPaginated, createWorkflow, getWorkflow, updateWorkflow,
      deleteWorkflow, activateWorkflow, deactivateWorkflow, listExecutionsPaginated,
      listExecutions, listExecutionsAll, getExecution, retryExecution, stopExecution,
      deleteExecution, listWorkflows, listWorkflowsAll, renameWorkflow, createCredential,
      listCredentials, ping, listTags, audit, listVariables, createTag, getWorkflowTags,
      updateWorkflowTags, transferWorkflow, runWorkflow,
      listWorkflowsPaginated, getWorkflow, updateWorkflow, listExecutionsPaginated;
    stable_any HF HS.
Qed.

Lemma getUrl_prefix c path : startsWith (getUrl c path) (baseUrl c ++ "/api/v1/") = true.
Proof.
  unfold getUrl, API_VERSION.
  destruct (startsWith path "/") eqn:E.
  - destruct path as [|a path]; [discriminate|]. simpl in E.
    apply andb_true_iff in E as [Ea _]. apply Ascii.eqb_eq in Ea. subst a.
    rewrite append_assoc.
    change (startsWith (baseUrl c ++ "/api/v1/" ++ path) (baseUrl c ++ "/api/v1/") = true).
    rewrite <- append_assoc. apply startsWith_self.
  - rewrite append_assoc.
    change (startsWith (baseUrl c ++ "/api/v1/" ++ path) (baseUrl c ++ "/api/v1/") = true).
    rewrite <- append_assoc. apply startsWith_self.
Qed.

(** X1. Every transport call of every operation goes to a URL under
    [<baseUrl>/api/v1/], carries the headers [Accept: application/json] and
    [X-N8N-API-KEY: <apiKey>] of the profile, and carries
    [Content-Type: application/json] exactly when it has a body. *)
Theorem every_call_carries_the_profile :
  forall (op : Operation) c (s : State W),
    self s = c -> extends c (carriesProfile c) s (snd (run op s)).
Proof.
  intros op c s Hs. apply (stable_run_any c (carriesProfile c)); [|intros; exact I|assumption].
  intros method path body. simpl. split; [apply getUrl_prefix|].
  unfold requestHeaders. split; [now left|split; [right; now left|]].
  destruct body; simpl; split; intros H;
    try discriminate; try (now elim H); try (right; right; now left);
    repeat (destruct H as [H|H]; try discriminate H); try contradiction.
Qed.

(** X2. Every transport call of every operation, retries and fallbacks
    included, is handed the same dispatcher option, fixed by the profile
    and the proxy variables: with a proxy variable set, an
    [EnvHttpProxyAgent], and without one an [Agent], built with
    [connect: { rejectUnauthorized: false }] exactly when the profile's
    [rejectUnauthorized] is false; without proxy variable and with
    [rejectUnauthorized] set, no dispatcher at all. *)
Theorem every_call_is_dispatched_as_configured :
  forall (op : Operation) c (s : State W),
    self s = c -> extends c (dispatchedAsConfigured c) s (snd (run op s)).
Proof.
  intros op c s Hs.
  apply (stable_run_any c (dispatchedAsConfigured c)); [|intros; exact I|assumption].
  intros method path body. unfold dispatchedAsConfigured, requestOf, fetchOptionsFor.
  cbn [req_dispatcher].
  destruct hasProxy; [now split|]. destruct (rejectUnauthorized c); now split.
Qed.

End CallTheory.

(** ** URLs *)

Lemma stripTrailingSlash_app (s : string) : stripTrailingSlash (s ++ "/") = s.
Proof.
  induction s as [|c s IH]; [reflexivity|].
  simpl. rewrite IH. destruct s; reflexivity.
Qed.

Lemma stripTrailingSlash_id (s : string) :
  (forall t, s <> t ++ "/") -> stripTrailingSlash s = s.
Proof.
  induction s as [|c s IH]; intros H; [reflexivity|].
  destruct s as [|d r].
  - simpl. destruct (Ascii.eqb_spec c "/") as [->|Hc]; [|reflexivity].
    now elim (H "").
  - change (String c (stripTrailingSlash (String d r)) = String c (String d r)).
    rewrite IH; [reflexivity|].
    intros t Ht. apply (H (String c t)). simpl. now rewrite Ht.
Qed.

(** X3. The constructor drops one trailing slash of the base URL, and only
    one, and leaves a base URL without trailing slash as it is; a request
    path is resolved to [<baseUrl>/api/v1/<path>] whether or not it is
    written with a leading slash. *)
Theorem base_url_normalisation :
  (forall s, stripTrailingSlash (s ++ "/") = s) /\
  (forall s, stripTrailingSlash ((s ++ "/") ++ "/") = s ++ "/") /\
  (forall s, (forall t, s <> t ++ "/") -> stripTrailingSlash s = s) /\
  (forall c path,
      startsWith path "/" = false ->
      getUrl c path = baseUrl c ++ "/api/v1/" ++ path /\
      getUrl c ("/" ++ path) = getUrl c path).
Proof.
  split; [exact stripTrailingSlash_app|split; [|split]].
  - intros s. apply stripTrailingSlash_app.
  - exact stripTrailingSlash_id.
  - intros c path H. split; [now apply getUrl_relative|].
    unfold getUrl. rewrite H. reflexivity.
Qed.

Section ErrorTheory.

Context {W : Type} {P : Platform W}.

(** ** API errors as the user sees them *)

Lemma apiError_branded status text :
  includes (messageOf (apiError status text)) "n8n API error" = true.
Proof.
  unfold apiError. rewrite parseApiError_message. reflexivity.
Qed.

(** X4. The error of a response that is not 2xx carries the response's
    status; [toFriendlyApiError] returns on it and never shows it raw: the
    user gets one
    of the seven fixed remediation texts or the message followed by the
    configuration hint, never the connection-failure text; a 401 is always
    shown as an invalid API key.  Such an error is retryable whenever its
    status is 429 or 5xx, whatever the body says. *)
Theorem api_error_is_never_shown_raw :
  forall status text,
    status_of (apiError status text) = Some status /\
    (exists shown,
        toFriendlyApiError (Caught (apiError status text)) = inr shown /\
        (In shown
            [MSG_UNAUTHORIZED; MSG_FORBIDDEN; MSG_NOT_FOUND; MSG_UNRESOLVED; MSG_REFUSED;
             MSG_SELF_SIGNED; MSG_TIMEOUT] \/
         shown = messageOf (apiError status text) ++ API_ERROR_HINT)) /\
    (status = 401 ->
       toFriendlyApiError (Caught (apiError status text)) = inr MSG_UNAUTHORIZED) /\
    (status = 429 \/ 500 <= status < 600 ->
       isRetryable (apiError status text) (status_of (apiError status text)) = true).
Proof.
  intros status text.
  assert (Hst : status_of (apiError status text) = Some status) by reflexivity.
  assert (Hshown : toFriendlyApiError (Caught (apiError status text))
                   = inr (classify_spec (messageOf (apiError status text)) "" "")).
  { unfold apiError. rewrite parseApiError_message.
    now apply toFriendlyApiError_classify. }
  split; [exact Hst|split; [|split]].
  - eexists. split; [exact Hshown|].
    pose proof (apiError_branded status text) as Hb.
    unfold classify_spec, priority. cbn [find triggers]. rewrite Hb.
    repeat match goal with
           | |- context [if ?b then _ else _] => destruct b
           end; simpl; tauto.
  - intros ->. rewrite Hshown. unfold apiError. rewrite parseApiError_message. reflexivity.
  - intros H. rewrite Hst. apply isRetryable_iff. left. exists status. split; [reflexivity|].
    exact H.
Qed.

(** ** Giving up *)

Lemma attemptOf_rejected c method path body (s : State W) e0 :
  self s = c ->
  (forall req w, fst (fetch req w) = Rejected e0) ->
  fst (attemptOf c method path body s) = inl (rethrown c e0).
Proof.
  intros Hs Hdown. rewrite (attemptOf_eq c method path body s Hs). cbn [fst].
  now rewrite Hdown.
Qed.

Lemma Attempts_rejected c method path body e0 :
  (forall req w, fst (fetch req w) = Rejected e0) ->
  forall k (s : State W) j out,
    Attempts c (attemptOf c method path body) k s j out ->
    self s = c -> fst out = inl (rethrown c e0).
Proof.
  intros Hdown. induction 1 as [k s v s' E | k s e s' E Hc | k s e s1 j out E Hc HA IH];
    intros Hs.
  - pose proof (attemptOf_rejected c method path body s e0 Hs Hdown) as H.
    rewrite E in H. discriminate.
  - pose proof (attemptOf_rejected c method path body s e0 Hs Hdown) as H.
    now rewrite E in H.
  - apply IH. rewrite record_self, noted_self.
    pose proof (attemptOf_state c method path body s Hs) as [H _]. now rewrite E in H.
Qed.

Lemma delays_schedule req n k :
  delays (schedule req (S n) k) = map (fun i => backoff (k + Z.of_nat i)) (seq 0 n).
Proof.
  revert k. induction n as [|n IH]; intros k; [reflexivity|].
  change (delays (schedule req (S (S n)) k))
    with (backoff k :: delays (schedule req (S n) (k + 1))).
  rewrite IH. cbn [seq map]. rewrite Z.add_0_r. f_equal.
  rewrite <- seq_shift, map_map. apply map_ext. intros i. f_equal. lia.
Qed.

(** X5. When the transport rejects every call with the same error,
    [request] throws that error (an abort as the timeout error): after one
    call when the error is not retryable, and otherwise after exactly
    [retries + 1] calls, having waited [backoff 0], ..., [backoff (retries -
    1)] in between, which with the default of three retries is 7000
    milliseconds in all. *)
Theorem request_gives_up_after_all_attempts :
  forall c method path body (s : State W) e0,
    self s = c -> 0 <= retries c ->
    (forall req w, fst (fetch req w) = Rejected e0) ->
    let e := rethrown c e0 in
    let out := request method path body s in
    fst out = inl e /\
    (isRetryable e (status_of e) = false ->
       trace (snd out) = (trace s ++ [Fetched (requestOf c method path body)])%list) /\
    (isRetryable e (status_of e) = true ->
       trace (snd out)
         = (trace s ++ schedule (requestOf c method path body)
                                (S (Z.to_nat (retries c))) 0)%list /\
       delays (schedule (requestOf c method path body) (S (Z.to_nat (retries c))) 0)
         = map (fun i => backoff (Z.of_nat i)) (seq 0 (Z.to_nat (retries c))) /\
       (retries c = 3 ->
          totalDelay (schedule (requestOf c method path body)
                               (S (Z.to_nat (retries c))) 0) = 7000)).
Proof.
  intros c method path body s e0 Hs Hr Hdown e out. subst e out.
  destruct (request_Attempts c method path body s Hs Hr) as (j & Hj1 & Hj2 & HA).
  pose proof (Attempts_rejected c method path body e0 Hdown _ _ _ _ HA Hs) as Hout.
  destruct (Attempts_trace c method path body _ _ _ _ HA Hs) as [_ Htrace].
  split; [exact Hout|split].
  - intros Hn.
    pose proof (attemptOf_rejected c method path body s e0 Hs Hdown) as H1.
    destruct (attemptOf c method path body s) as [r s1] eqn:E. simpl in H1. subst r.
    rewrite (request_first_attempt_final c _ _ _ s s1 _ Hs Hr E Hn). simpl.
    pose proof (attemptOf_state c method path body s Hs) as [_ Ht]. now rewrite E in Ht.
  - intros Hy.
    pose proof (Attempts_exhausted c _ _ _ _ _ HA _ Hout Hy Hr) as Hj.
    assert (j = S (Z.to_nat (retries c))) as -> by lia.
    split; [exact Htrace|split].
    + rewrite delays_schedule. apply map_ext. intros i. reflexivity.
    + intros ->. reflexivity.
Qed.

(** X6. The bounds of [retries].  With [retries = 0] a request is a single
    attempt, never followed by a delay.  With a negative [retries] no
    transport call is made at all: [request] throws [undefined] at once and
    [ping] answers [false] without having tried. *)
Theorem retries_bounds :
  forall c method path body (s : State W),
    self s = c ->
    (retries c = 0 -> request method path body s = attemptOf c method path body s) /\
    (retries c < 0 ->
       request method path body s = (inl (ThrownValue JUndefined), s) /\
       ping s = (inr false, s)).
Proof.
  intros c method path body s Hs. split.
  - intros H0. rewrite request_unfold, Hs, H0.
    apply (attemptLoop_last c method path body 0 _ s Hs). lia.
  - intros Hneg.
    assert (Hreq : forall m p b, request m p b s = (inl (ThrownValue JUndefined), s)).
    { intros m p b. rewrite request_unfold, Hs.
      assert (Z.to_nat (retries c + 1) = 0%nat) as -> by lia. reflexivity. }
    split; [apply Hreq|].
    unfold ping, listWorkflowsPaginated, try_catch, bind, this.
    rewrite Hs. destruct (truthyStr (projectId c)); rewrite !Hreq; simpl;
      rewrite ?andb_false_r; reflexivity.
Qed.

(** X7. A transport call that rejects with an [AbortError] makes the attempt
    throw [Error: n8n API request timed out after <timeoutMs>ms] (with
    [debug] set, after the line that logs the call); that
    error is retryable whatever the timeout is, so with at least one retry
    allowed a second attempt follows. *)
Theorem timeout_is_retried :
  forall c method path body (s : State W) e w',
    self s = c ->
    fetch (requestOf c method path body) (world s) = (Rejected e, w') ->
    isAbortError e = true ->
    attemptOf c method path body s =
      (inl (ThrownError (newError ("n8n API request timed out after "
                                     ++ Z_to_string (timeoutMs c) ++ "ms"))),
       {| self := c; world := w';
          trace := trace s ++ [Fetched (requestOf c method path body)];
          output := output s ++ notes c [JStr (method ++ " " ++ path)] |}) /\
    isRetryable (timeoutError (timeoutMs c)) (status_of (timeoutError (timeoutMs c))) = true /\
    (0 < retries c ->
       exists j : nat,
         Attempts c (attemptOf c method path body) 0 s (S (S j))
                  (request method path body s)).
Proof.
  intros c method path body s e w' Hs F Ha.
  assert (E : attemptOf c method path body s =
              (inl (timeoutError (timeoutMs c)),
               {| self := c; world := w';
                  trace := trace s ++ [Fetched (requestOf c method path body)];
                  output := output s ++ notes c [JStr (method ++ " " ++ path)] |})).
  { rewrite (attemptOf_eq c method path body s Hs), F. cbn [fst snd settle].
    unfold rethrown. now rewrite Ha. }
  assert (Hy : isRetryable (timeoutError (timeoutMs c))
                 (status_of (timeoutError (timeoutMs c))) = true) by reflexivity.
  split; [exact E|split; [exact Hy|]].
  intros Hpos. now apply (request_first_attempt_retried c _ _ _ s _ _ Hs Hpos E).
Qed.

End ErrorTheory.

Section OperationTheory.

Context {W : Type} {P : Platform W}.

(** ** Without a scope *)

Ltac unscoped_case Hs Hscope :=
  unfold workflowPath, bind, this, try_catch, liftResult, notFoundText, ret, throw;
  rewrite ?Hs; rewrite ?Hscope; cbn -[request includes String_of queryString];
  match goal with
  | |- context [request ?m ?p ?b ?s] =>
      let E := fresh "E" in
      destruct (request m p b s) as [[?|?] ?] eqn:E; [|reflexivity];
      rewrite ?(request_self_eq _ _ _ _ _ _ _ Hs E), ?Hscope;
      cbn -[request includes String_of queryString]
  end;
  reflexivity.

(** X8. An operation of the workflow family that is not scoped (the
    profile has no [projectId], or an empty one; create is called without
    one) is a single [request] on the unscoped path: its error is thrown
    as it is, a 404 included, and nothing is tried a second time. *)
Theorem unscoped_operation_is_one_request :
  forall (op : PrimaryOp) c (s : State W),
    self s = c -> truthyStr (op_scope c op) = false ->
    perform op s =
      liftResult (op_result op)
        (request (op_method op) (unscopedPath op) (op_body op) s).
Proof.
  intros op c s Hs Hscope.
  destruct op; simpl in Hscope; unfold perform.
  - unfold listWorkflowsPaginated. unscoped_case Hs Hscope.
  - unfold createWorkflow. rewrite Hscope. cbn -[request].
    destruct (request "POST" "workflows" workflow s) as [[?|?] ?]; reflexivity.
  - unfold getWorkflow. unscoped_case Hs Hscope.
  - unfold updateWorkflow. unscoped_case Hs Hscope.
  - unfold deleteWorkflow. unscoped_case Hs Hscope.
  - unfold activateWorkflow. unscoped_case Hs Hscope.
  - unfold deactivateWorkflow. unscoped_case Hs Hscope.
Qed.

(** ** Lists are never null *)

Lemma orElse_present (a d : jsval) : nullish d = false -> nullish (orElse a d) = false.
Proof. intros H. unfold orElse. destruct (nullish a) eqn:E; assumption. Qed.

Lemma dataOrArray_present (res : jsval) : nullish (dataOrArray res) = false.
Proof. destruct res; try reflexivity; now apply orElse_present. Qed.

Lemma bind_ret_present {A : Type} (m : Client W A) (f : A -> jsval) (s s' : State W) v :
  (forall a, nullish (f a) = false) ->
  (x <- m ;; ret (f x)) s = (inr v, s') -> nullish v = false.
Proof.
  intros Hf. unfold bind, ret. destruct (m s) as [[e|a] s1]; [discriminate|].
  intros [= <- _]. apply Hf.
Qed.

Lemma lifted (m : Client W jsval) (f : jsval -> jsval) (s : State W) :
  (x <- m ;; ret (f x)) s = liftResult f (m s).
Proof. unfold bind, ret, liftResult. now destruct (m s) as [[e|v] s1]. Qed.

(** X9. What the list-shaped operations return.  [listCredentials],
    [getWorkflowTags] and [updateWorkflowTags] return the [data] of the
    response of their one request when it is neither [undefined] nor
    [null], and the empty list otherwise, in particular for a response
    without body; [listTags] and [listVariables] do the same, but return
    the response itself when it is an array; [listWorkflows] and
    [listExecutions] return in that way the [data] of the page their
    paginated call returned.  The paginated calls return the body of the
    response as it is when there is one, also when it has no [data], and
    the page [{data: []}] when there is none.  An error of the request is
    thrown as it is.  So none of them ever returns [undefined] or
    [null]. *)
Theorem list_results_are_never_null :
  forall s : State W,
    (forall workflowId cursor status,
        listExecutionsPaginated workflowId cursor status s =
          liftResult pageOf
            (request "GET"
               ("executions" ++ queryString (executionListParams workflowId cursor status))
               JUndefined s)) /\
    (forall active cursor name,
        truthyStr (projectId (self s)) = false ->
        listWorkflowsPaginated active cursor name s =
          liftResult pageOf
            (request "GET"
               ("workflows" ++ queryString (workflowListParams active cursor name))
               JUndefined s)) /\
    (forall active cursor name v s',
        listWorkflowsPaginated active cursor name s = (inr v, s') ->
        exists path s0 res,
          request "GET" path JUndefined s0 = (inr res, s') /\ v = pageOf res) /\
    (forall active name,
        listWorkflows active name s =
          liftResult dataList (listWorkflowsPaginated active JUndefined name s)) /\
    (forall workflowId status,
        listExecutions workflowId status s =
          liftResult dataList (listExecutionsPaginated workflowId JUndefined status s)) /\
    listCredentials s = liftResult dataList (request "GET" "credentials" JUndefined s) /\
    listTags s = liftResult listOrDataList (request "GET" "tags" JUndefined s) /\
    listVariables s = liftResult listOrDataList (request "GET" "variables" JUndefined s) /\
    (forall workflowId,
        getWorkflowTags workflowId s =
          liftResult dataList
            (request "GET" ("workflows/" ++ workflowId ++ "/tags") JUndefined s)) /\
    (forall workflowId tagIds,
        updateWorkflowTags workflowId tagIds s =
          liftResult dataList
            (request "PUT" ("workflows/" ++ workflowId ++ "/tags")
                     (JObj [("tagIds", JArr (map JStr tagIds))]) s)) /\
    (forall res,
        nullish (pageOf res) = false /\ nullish (dataList res) = false /\
        nullish (listOrDataList res) = false) /\
    (forall v s',
        (forall active cursor name,
            listWorkflowsPaginated active cursor name s = (inr v, s') -> nullish v = false) /\
        (forall workflowId cursor status,
            listExecutionsPaginated workflowId cursor status s = (inr v, s') ->
            nullish v = false) /\
        (forall active name,
            listWorkflows active name s = (inr v, s') -> nullish v = false) /\
        (forall workflowId status,
            listExecutions workflowId status s = (inr v, s') -> nullish v = false) /\
        (listCredentials s = (inr v, s') -> nullish v = false) /\
        (listTags s = (inr v, s') -> nullish v = false) /\
        (listVariables s = (inr v, s') -> nullish v = false) /\
        (forall workflowId,
            getWorkflowTags workflowId s = (inr v, s') -> nullish v = false) /\
        (forall workflowId tagIds,
            updateWorkflowTags workflowId tagIds s = (inr v, s') -> nullish v = false)).
Proof.
  intros s.
  assert (Hd : forall res, nullish (orElse (get res "data") (JArr [])) = false)
    by (intros; now apply orElse_present).
  assert (Hp : forall res, nullish (orElse res emptyPage) = false)
    by (intros; now apply orElse_present).
  assert (Hshape : forall active cursor name v s',
             listWorkflowsPaginated active cursor name s = (inr v, s') ->
             exists path s0 res,
               request "GET" path JUndefined s0 = (inr res, s') /\ v = pageOf res).
  { intros active cursor name v s'.
    unfold listWorkflowsPaginated, bind at 1, this, try_catch. rewrite lifted.
    destruct (request "GET" _ JUndefined s) as [[e|res] s1] eqn:E; cbn [liftResult].
    - unfold bind at 1. cbn [self].
      destruct (truthyStr _ && includes _ _); [|discriminate].
      rewrite lifted.
      destruct (request "GET" _ JUndefined s1) as [[e2|res2] s2] eqn:E2; cbn [liftResult];
        [discriminate|].
      intros [= <- <-]. eauto.
    - intros [= <- <-]. eauto. }
  repeat apply conj.
  - intros. apply lifted.
  - intros active cursor name Hu.
    unfold listWorkflowsPaginated, bind at 1, this, try_catch. rewrite Hu, lifted.
    destruct (request "GET" _ JUndefined s) as [[e|res] s1] eqn:E; cbn [liftResult];
      [|reflexivity].
    unfold bind at 1, this. cbn [self].
    assert (self s1 = self s) as ->.
    { pose proof (request_self (self s) "GET"
                    ("workflows" ++ queryString (workflowListParams active cursor name))
                    JUndefined s eq_refl) as H.
      now rewrite E in H. }
    now rewrite Hu.
  - exact Hshape.
  - intros. apply lifted.
  - intros. apply lifted.
  - apply lifted.
  - apply lifted.
  - apply lifted.
  - intros. apply lifted.
  - intros. apply lifted.
  - intros res. unfold pageOf, dataList, listOrDataList.
    repeat split.
    + now destruct (nullish res) eqn:E.
    + now destruct (nullish (get res "data")) eqn:E.
    + destruct res as [| | | | | |props]; try reflexivity.
      unfold dataList. now destruct (nullish (get (JObj props) "data")) eqn:E.
  - intros v s'. repeat split; intros.
    + destruct (Hshape _ _ _ _ _ H) as (path & s0 & res & _ & ->). apply Hp.
    + apply (bind_ret_present _ (fun res => orElse res emptyPage) _ _ _ Hp H).
    + apply (bind_ret_present _ (fun res => orElse (get res "data") (JArr [])) _ _ _ Hd H).
    + apply (bind_ret_present _ (fun res => orElse (get res "data") (JArr [])) _ _ _ Hd H).
    + apply (bind_ret_present _ (fun res => orElse (get res "data") (JArr [])) _ _ _ Hd H).
    + apply (bind_ret_present _ dataOrArray _ _ _ dataOrArray_present H).
    + apply (bind_ret_present _ dataOrArray _ _ _ dataOrArray_present H).
    + apply (bind_ret_present _ (fun res => orElse (get res "data") (JArr [])) _ _ _ Hd H).
    + apply (bind_ret_present _ (fun res => orElse (get res "data") (JArr [])) _ _ _ Hd H).
Qed.

(** ** Renaming *)

Lemma lookup_setProp_same k x props : lookup k (setProp k x props) = Some x.
Proof.
  induction props as [|[k' v] rest IH]; simpl.
  - now rewrite String.eqb_refl.
  - destruct (String.eqb k k') eqn:E; simpl; rewrite E; [reflexivity | exact IH].
Qed.

Lemma lookup_setProp_other k k' x props :
  k' <> k -> lookup k' (setProp k x props) = lookup k' props.
Proof.
  intros Hne. induction props as [|[k0 v] rest IH]; simpl.
  - apply String.eqb_neq in Hne. now rewrite Hne.
  - destruct (String.eqb k k0) eqn:E; simpl.
    + apply String.eqb_eq in E. subst k0.
      apply String.eqb_neq in Hne. now rewrite Hne.
    + now rewrite IH.
Qed.

Lemma setProp_keys k x props :
  In k (map fst props) -> map fst (setProp k x props) = map fst props.
Proof.
  induction props as [|[k0 v] rest IH]; simpl; [intros []|].
  intros H. destruct (String.eqb k k0) eqn:E; simpl; [reflexivity|].
  f_equal. apply IH. destruct H as [->|H]; [|assumption].
  rewrite String.eqb_refl in E. discriminate.
Qed.

Lemma stable_getWorkflow c (Q : Event -> Prop) id :
  (forall path body, Q (Fetched (requestOf c "GET" path body))) ->
  (forall ms, Q (Slept ms)) ->
  stable c Q (getWorkflow id).
Proof.
  intros HF HS. unfold getWorkflow. apply stable_this.
  apply stable_try; [now apply stable_request|].
  intros e. apply stable_this.
  destruct (_ && _); [now apply stable_request | apply stable_throw].
Qed.

(** X10. [renameWorkflow] reads the workflow and writes it back with the
    new name: the body it sends has [name] set to the new name and every
    other property as it was read, in the same order when a name was
    already there.  When reading fails the error is thrown on and nothing
    is written: every call made was a GET. *)
Theorem rename_changes_only_the_name :
  (forall w newName,
      get (withName w newName) "name" = JStr newName /\
      (forall k, k <> "name" -> get (withName w newName) k = get w k) /\
      (forall props, w = JObj props -> In "name" (map fst props) ->
         exists props', withName w newName = JObj props' /\
                        map fst props' = map fst props)) /\
  (forall id newName (s s1 : State W) w,
      getWorkflow id s = (inr w, s1) ->
      renameWorkflow id newName s = updateWorkflow id (withName w newName) s1) /\
  (forall id newName c (s s1 : State W) e,
      self s = c ->
      getWorkflow id s = (inl e, s1) ->
      renameWorkflow id newName s = (inl e, s1) /\
      extends c (fun ev => match ev with
                           | Fetched r => req_method r = "GET"
                           | Slept _ => True
                           end) s s1).
Proof.
  split; [|split].
  - intros w newName. unfold withName, get. split; [|split].
    + now rewrite lookup_setProp_same.
    + intros k Hk. rewrite lookup_setProp_other by assumption.
      destruct w; reflexivity.
    + intros props -> Hin. eexists. split; [reflexivity|]. now apply setProp_keys.
  - intros id newName s s1 w E. unfold renameWorkflow, bind. now rewrite E.
  - intros id newName c s s1 e Hs E. split.
    + unfold renameWorkflow, bind. now rewrite E.
    + pose proof (stable_getWorkflow c
                    (fun ev => match ev with
                               | Fetched r => req_method r = "GET"
                               | Slept _ => True
                               end) id) as H.
      specialize (H (fun _ _ => eq_refl) (fun _ => I) s Hs). now rewrite E in H.
Qed.

(** ** Retrying an execution *)

(** X11. [retryExecution] is one request to [executions/{id}/retry], whose
    error is thrown as it is.  The new identifier is the first present of
    [data.id], [data.executionId], [id], [executionId] of the response, so
    that, unlike [runWorkflow], it prefers [data.id] to [data.executionId];
    it never returns an empty identifier: a response without a usable one
    makes it throw [Retry returned no execution ID]. *)
Theorem retryExecution_picks_the_new_id :
  (forall id (s : State W),
      retryExecution id s =
        match request "POST" ("executions/" ++ id ++ "/retry") (JObj []) s with
        | (inl e, s1) => (inl e, s1)
        | (inr res, s1) =>
            let found := firstPresent [get (get res "data") "id";
                                       get (get res "data") "executionId";
                                       get res "id"; get res "executionId"] (JStr "") in
            if truthy found then (inr (JObj [("executionId", found)]), s1)
            else (inl (ThrownError (newError "Retry returned no execution ID")), s1)
        end) /\
  (forall id (s s1 : State W) v,
      retryExecution id s = (inr v, s1) -> truthy (get v "executionId") = true) /\
  (forall res,
      nullish (get (get res "data") "id") = false ->
      nullish (get (get res "data") "executionId") = false ->
      firstPresent [get (get res "data") "id"; get (get res "data") "executionId";
                    get res "id"; get res "executionId"] (JStr "")
        = get (get res "data") "id" /\
      extractId res = get (get res "data") "executionId").
Proof.
  assert (Hmain : forall id (s : State W),
      retryExecution id s =
        match request "POST" ("executions/" ++ id ++ "/retry") (JObj []) s with
        | (inl e, s1) => (inl e, s1)
        | (inr res, s1) =>
            let found := firstPresent [get (get res "data") "id";
                                       get (get res "data") "executionId";
                                       get res "id"; get res "executionId"] (JStr "") in
            if truthy found then (inr (JObj [("executionId", found)]), s1)
            else (inl (ThrownError (newError "Retry returned no execution ID")), s1)
        end).
  { intros id s. unfold retryExecution, bind.
    destruct (request _ _ _ s) as [[e|res] s1]; [reflexivity|].
    assert (Hf : orElse (orElse (orElse (orElse (get (get res "data") "id")
                                   (get (get res "data") "executionId"))
                           (get res "id")) (get res "executionId")) (JStr "")
                 = firstPresent [get (get res "data") "id";
                                 get (get res "data") "executionId";
                                 get res "id"; get res "executionId"] (JStr "")).
    { unfold orElse. cbn [firstPresent].
      destruct (get (get res "data") "id"), (get (get res "data") "executionId"),
        (get res "id"), (get res "executionId"); reflexivity. }
    rewrite Hf. cbv zeta.
    destruct (truthy (firstPresent _ _)); reflexivity. }
  split; [exact Hmain|split].
  - intros id s s1 v H. rewrite Hmain in H.
    destruct (request _ _ _ s) as [[e|res] s2]; [discriminate|].
    cbv zeta in H.
    destruct (truthy (firstPresent _ _)) eqn:Ht; [|discriminate].
    injection H as <- _. exact Ht.
  - intros res Ha Hb. unfold extractId, orElse. cbn [firstPresent].
    rewrite Ha. split; [reflexivity|]. repeat (rewrite Hb; cbv iota). reflexivity.
Qed.

End OperationTheory.

Section LoadConfigMore.

Context {W : Type} {P : Platform W}.

(** X12. Whatever its source, a configuration that [loadConfig] returns has
    a truthy [baseUrl] and a truthy [apiKey]; built from the environment,
    both are non-empty strings. *)
Theorem loadConfig_result_is_usable :
  forall config,
    loadConfig = inr config ->
    truthy (get config "baseUrl") = true /\ truthy (get config "apiKey") = true /\
    (truthyStr (envTrimmed "N8N_BASE_URL") && truthyStr (envTrimmed "N8N_API_KEY") = true ->
       exists b k, get config "baseUrl" = JStr b /\ get config "apiKey" = JStr k /\
                   nonEmpty b = true /\ nonEmpty k = true).
Proof.
  intros config. unfold loadConfig.
  destruct (truthyStr (envTrimmed "N8N_BASE_URL") && truthyStr (envTrimmed "N8N_API_KEY"))
    eqn:Henv.
  - apply andb_true_iff in Henv as [Hb Hk].
    destruct (envTrimmed "N8N_BASE_URL") as [b|]; [|discriminate].
    destruct (envTrimmed "N8N_API_KEY") as [k|]; [|discriminate].
    simpl in Hb, Hk. intros [= <-]. cbn [get lookup String.eqb Ascii.eqb Bool.eqb withDefault].
    repeat split; try assumption. intros _. now exists b, k.
  - rewrite searchRoots_firstConfig.
    destruct (firstConfig _) as [cfg|] eqn:Hf; [|discriminate].
    intros [= <-].
    apply firstConfig_Some in Hf as (before & p & after & _ & _ & Hp).
    apply readConfigAt_Some in Hp as (content & _ & _ & Hb & Hk).
    repeat split; try assumption. discriminate.
Qed.

(** X13. With N8N_CONFIG_FILE set (non-empty after trimming) the two
    default file names are not consulted: the only files tried are the
    override resolved against each candidate directory, and for an absolute
    override that one file alone, whose content, when valid, is the
    configuration returned. *)
Theorem override_replaces_default_files :
  forall f,
    envTrimmed "N8N_CONFIG_FILE" = Some f -> nonEmpty f = true ->
    candidatePaths = map (fun rootDir => configPathOf rootDir f) configCandidates /\
    (path_isAbsolute f = true ->
       (forall p, In p candidatePaths -> p = f) /\
       (truthyStr (envTrimmed "N8N_BASE_URL") && truthyStr (envTrimmed "N8N_API_KEY") = false ->
          loadConfig = match readConfigAt f with
                       | Some config => inr config
                       | None => inl (ThrownError (newError (CONFIG_ERROR ++ configHint)))
                       end)).
Proof.
  intros f Hf Hne.
  assert (Hnames : configNames = [f]).
  { unfold configNames. rewrite Hf. simpl. now rewrite Hne. }
  assert (Hpaths : candidatePaths = map (fun rootDir => configPathOf rootDir f) configCandidates).
  { unfold candidatePaths. rewrite Hnames. unfold configCandidates. reflexivity. }
  split; [exact Hpaths|]. intros Habs.
  assert (Hall : candidatePaths = [f; f; f; f]).
  { rewrite Hpaths. unfold configCandidates, configPathOf. rewrite Habs. reflexivity. }
  split.
  - intros p Hin. rewrite Hall in Hin. simpl in Hin. intuition congruence.
  - intros Henv. unfold loadConfig. rewrite Henv, searchRoots_firstConfig.
    fold candidatePaths. rewrite Hall. simpl.
    destruct (readConfigAt f); reflexivity.
Qed.

End LoadConfigMore.

(** * The command line *)

Section CommandLineTheory.

Context {W : Type} {P : Platform W}.

(** ** Resolving a workflow by id or name *)

Lemma prop_present w key : nullish w = false -> prop w key = inr (get w key).
Proof. destruct w; try reflexivity; discriminate. Qed.

Lemma findByProp_none key x items :
  Forall (fun w => nullish w = false /\ get w key <> JStr x) items ->
  findByProp key x items = inr None.
Proof.
  induction 1 as [|w rest [Hw Hne] _ IH]; [reflexivity|].
  simpl. rewrite (prop_present w key Hw).
  destruct (get w key) as [| | | |s| |] eqn:E; try exact IH.
  destruct (String.eqb_spec s x) as [->|Hsx]; [now elim Hne | exact IH].
Qed.

Lemma findByProp_first key x before w after :
  Forall (fun v => nullish v = false /\ get v key <> JStr x) before ->
  get w key = JStr x ->
  findByProp key x (before ++ w :: after) = inr (Some w).
Proof.
  intros Hbefore Hw. induction Hbefore as [|v rest [Hv Hne] _ IH]; simpl.
  - assert (Hnn : nullish w = false) by (destruct w; try reflexivity; discriminate).
    rewrite (prop_present w key Hnn), Hw. now rewrite String.eqb_refl.
  - rewrite (prop_present v key Hv).
    destruct (get v key) as [| | | |s| |] eqn:E; try exact IH.
    destruct (String.eqb_spec s x) as [->|Hsx]; [now elim Hne | exact IH].
Qed.

Lemma first_match key x items :
  Exists (fun w => get w key = JStr x) items ->
  exists before w after,
    items = (before ++ w :: after)%list /\ get w key = JStr x /\
    Forall (fun v => get v key <> JStr x) before.
Proof.
  induction items as [|v rest IH]; intros H; [inversion H|].
  destruct (get v key) as [| | | |s| |] eqn:E;
    try (inversion H as [? ? Hv|? ? Hr]; subst; [congruence|];
         destruct (IH Hr) as (before & w & after & -> & Hw & Hb);
         exists (v :: before), w, after;
         repeat split; [assumption | constructor; [congruence | assumption]]).
  destruct (String.eqb_spec s x) as [->|Hsx].
  - exists [], v, rest. repeat split; [assumption | constructor].
  - inversion H as [? ? Hv|? ? Hr]; subst; [congruence|].
    destruct (IH Hr) as (before & w & after & -> & Hw & Hb).
    exists (v :: before), w, after.
    repeat split; [assumption | constructor; [congruence | assumption]].
Qed.

Lemma Forall_both {A : Type} (Q R : A -> Prop) (l : list A) :
  Forall Q l -> Forall R l -> Forall (fun a => Q a /\ R a) l.
Proof. induction 1; intros HR; inversion HR; subst; constructor; auto. Qed.

(** X14. [resolveWorkflowId] answers the empty string for an empty argument
    without asking the server.  Otherwise it lists the workflows once, and
    over a list of workflow records: an argument that is the [id] of some
    workflow is returned as it is, even when another workflow bears it as
    its name; failing that, the [id] of the first workflow so named is
    returned; when neither matches, the argument itself. *)
Theorem resolveWorkflowId_prefers_ids :
  (forall s : State W, resolveWorkflowId "" s = (inr (JStr ""), s)) /\
  (forall x (s s1 : State W) e,
      nonEmpty x = true ->
      listWorkflows None None s = (inl e, s1) ->
      resolveWorkflowId x s = (inl e, s1)) /\
  (forall x (s s1 : State W) items,
      nonEmpty x = true ->
      listWorkflows None None s = (inr (JArr items), s1) ->
      Forall (fun w => nullish w = false) items ->
      (Exists (fun w => get w "id" = JStr x) items ->
         resolveWorkflowId x s = (inr (JStr x), s1)) /\
      (forall before w after,
          Forall (fun v => get v "id" <> JStr x) items ->
          items = (before ++ w :: after)%list ->
          Forall (fun v => get v "name" <> JStr x) before ->
          get w "name" = JStr x ->
          resolveWorkflowId x s = (inr (orElse (get w "id") (JStr x)), s1)) /\
      (Forall (fun v => get v "id" <> JStr x) items ->
       Forall (fun v => get v "name" <> JStr x) items ->
       resolveWorkflowId x s = (inr (JStr x), s1))).
Proof.
  split; [reflexivity|split].
  - intros x s s1 e Hx E. unfold resolveWorkflowId. rewrite Hx. cbn [negb].
    unfold bind. now rewrite E.
  - intros x s s1 items Hx E Hnn.
    assert (Hres : resolveWorkflowId x s =
                   (match pickWorkflowId (JArr items) x with
                    | inl e => inl e | inr id => inr id end, s1)).
    { unfold resolveWorkflowId. rewrite Hx. cbn [negb]. unfold bind. rewrite E.
      destruct (pickWorkflowId (JArr items) x); reflexivity. }
    rewrite Hres. unfold pickWorkflowId, findIn. split; [|split].
    + intros Hex.
      destruct (first_match "id" x items Hex) as (before & w & after & -> & Hw & Hb).
      apply Forall_app in Hnn as [Hnb _].
      rewrite (findByProp_first "id" x before w after (Forall_both _ _ _ Hnb Hb) Hw).
      now rewrite Hw.
    + intros before w after Hid -> Hb Hw.
      rewrite (findByProp_none "id" x _ (Forall_both _ _ _ Hnn Hid)).
      apply Forall_app in Hnn as [Hnb _].
      now rewrite (findByProp_first "name" x before w after (Forall_both _ _ _ Hnb Hb) Hw).
    + intros Hid Hname.
      rewrite (findByProp_none "id" x _ (Forall_both _ _ _ Hnn Hid)).
      now rewrite (findByProp_none "name" x _ (Forall_both _ _ _ Hnn Hname)).
Qed.


(** ** Proper errors *)

Lemma sound_ret {A : Type} c (a : A) : sound c (ret a : Client W A).
Proof. intros s Hs. now repeat split. Qed.

Lemma sound_throw {A : Type} c (e : thrown) : properError e -> sound c (throw e : Client W A).
Proof. intros He s Hs. now repeat split. Qed.

Lemma sound_bind {A B : Type} c (m : Client W A) (k : A -> Client W B) :
  sound c m -> (forall a, sound c (k a)) -> sound c (bind m k).
Proof.
  intros Hm Hk s Hs. unfold bind. specialize (Hm s Hs).
  destruct (m s) as [[e|a] s1]; simpl in *; [assumption|].
  destruct Hm as (H1 & _ & H3).
  destruct (Hk a s1 H1) as (K1 & K2 & K3).
  split; [assumption|split; [assumption|]].
  intros Hd. now rewrite (K3 Hd), (H3 Hd).
Qed.

Lemma sound_try {A : Type} c (m : Client W A) (h : thrown -> Client W A) :
  sound c m -> (forall e, properError e -> sound c (h e)) -> sound c (try_catch m h).
Proof.
  intros Hm Hh s Hs. unfold try_catch. specialize (Hm s Hs).
  destruct (m s) as [[e|a] s1]; simpl in *; [|assumption].
  destruct Hm as (H1 & H2 & H3).
  destruct (Hh e H2 s1 H1) as (K1 & K2 & K3).
  split; [assumption|split; [assumption|]].
  intros Hd. now rewrite (K3 Hd), (H3 Hd).
Qed.

Lemma sound_this {A : Type} c (k : N8nClient -> Client W A) :
  sound c (k c) -> sound c (bind this k).
Proof. intros Hk s Hs. unfold bind, this. rewrite Hs. now apply Hk. Qed.

Lemma sound_attemptOf c method path body :
  properTransport -> sound c (attemptOf c method path body).
Proof.
  intros Ht s Hs. rewrite (attemptOf_eq c method path body s Hs).
  split; [reflexivity|split].
  - cbn [fst]. destruct (fetch _ (world s)) as [[res|e] w'] eqn:F; cbn [fst settle].
    + destruct (negb (res_ok res)); [exact I|].
      destruct (isJsonContentType _); [|exact I].
      destruct (nonEmpty _); [|exact I].
      destruct (JSON_parse _); [|exact I].
      unfold rethrown. destruct (isAbortError _); exact I.
    + unfold rethrown. destruct (isAbortError e); [exact I|]. exact (Ht _ _ _ _ F).
  - intros Hd. cbn [snd output]. unfold attemptLines. rewrite Hd. apply app_nil_r.
Qed.

Lemma attemptLoop_step c (once : Client W jsval) n k lastErr (s : State W) :
  self (snd (once s)) = c ->
  attemptLoop once (S n) k lastErr s =
    match once s with
    | (inr v, s1) => (inr v, s1)
    | (inl e, s1) =>
        if (k <? retries c) && isRetryable e (status_of e)
        then attemptLoop once n (k + 1) e
               (record (Slept (backoff k)) (noted c (retryNote c k e) s1))
        else (inl e, s1)
    end.
Proof.
  intros H1. cbn [attemptLoop]. unfold try_catch.
  destruct (once s) as [[e|v] s1]; cbn [snd] in H1; [|reflexivity].
  unfold bind at 1, this. rewrite H1.
  destruct ((k <? retries c) && isRetryable e (status_of e)) eqn:Hc; [|reflexivity].
  apply andb_true_iff in Hc as [_ Hy]. cbv zeta.
  apply (retry_step c once n k e s1 H1 Hy).
Qed.

Lemma sound_attemptLoop c (once : Client W jsval) :
  sound c once ->
  forall n k lastErr,
    (n = 0%nat -> properError lastErr) -> sound c (attemptLoop once n k lastErr).
Proof.
  intros Honce. induction n as [|n IH]; intros k lastErr Hlast.
  - now apply sound_throw, Hlast.
  - intros s Hs.
    destruct (Honce s Hs) as (H1 & H2 & H3).
    rewrite (attemptLoop_step c once n k lastErr s H1).
    destruct (once s) as [[e|v] s1]; cbn [fst snd] in *; [|repeat split; auto].
    destruct ((k <? retries c) && isRetryable e (status_of e)) eqn:Hc;
      [|cbn [fst snd]; repeat split; auto].
    destruct (IH (k + 1) e (fun _ => H2)
                 (record (Slept (backoff k)) (noted c (retryNote c k e) s1)))
      as (K1 & K2 & K3); [now rewrite record_self, noted_self|].
    split; [assumption|split; [assumption|]].
    intros Hd. rewrite (K3 Hd). cbn [record output].
    rewrite noted_output. unfold notes. rewrite Hd, app_nil_r. now apply H3.
Qed.

Lemma sound_request c method path body :
  properTransport -> 0 <= retries c -> sound c (request method path body).
Proof.
  intros Ht Hr. unfold request. apply sound_this.
  apply (sound_attemptLoop c (attemptOf c method path body));
    [now apply sound_attemptOf|]. lia.
Qed.

Lemma sound_activateWorkflow c id :
  properTransport -> 0 <= retries c -> sound c (activateWorkflow id).
Proof.
  intros Ht Hr. unfold activateWorkflow. apply sound_this.
  apply sound_try.
  - apply sound_bind; [now apply sound_request|]. intros _. apply sound_ret.
  - intros e He. apply sound_this. destruct (_ && _); [|now apply sound_throw].
    apply sound_bind; [now apply sound_request|]. intros _. apply sound_ret.
Qed.

Lemma sound_deactivateWorkflow c id :
  properTransport -> 0 <= retries c -> sound c (deactivateWorkflow id).
Proof.
  intros Ht Hr. unfold deactivateWorkflow. apply sound_this.
  apply sound_try.
  - apply sound_bind; [now apply sound_request|]. intros _. apply sound_ret.
  - intros e He. apply sound_this. destruct (_ && _); [|now apply sound_throw].
    apply sound_bind; [now apply sound_request|]. intros _. apply sound_ret.
Qed.

(** ** Switching every workflow *)

Lemma messageField_proper e : properError e -> messageField e = inr (messageArg e).
Proof.
  destruct e as [e|v]; simpl; intros H; [reflexivity|].
  now rewrite (prop_present v "message" H).
Qed.

(** One turn of the loop: the call, then the line that tells how it ended;
    the count goes up exactly when the call returned. *)
Lemma switchOne_returns c (switch : string -> Client W jsval) w ok (s : State W) :
  (forall id, sound c (switch id)) ->
  self s = c -> nullish w = false ->
  switchOne switch w ok s =
    (Returned (ok + match fst (switch (toStr (get w "id")) s) with
                    | inr _ => 1
                    | inl _ => 0
                    end),
     say (reportLine w (fst (switch (toStr (get w "id")) s)))
         (snd (switch (toStr (get w "id")) s))).
Proof.
  intros Hsw Hs Hw.
  unfold switchOne, ctry, cbind, evaluated, await, print, cret, cthrow.
  rewrite !(prop_present w _ Hw).
  destruct (Hsw (toStr (get w "id")) s Hs) as (_ & Hproper & _).
  destruct (switch (toStr (get w "id")) s) as [[e|v] st]; cbn [fst snd] in *.
  - rewrite (messageField_proper e Hproper). rewrite Z.add_0_r. reflexivity.
  - reflexivity.
Qed.

Lemma say_self line (s : State W) : self (say line s) = self s.
Proof. reflexivity. Qed.

Lemma switchEach_returns c (switch : string -> Client W jsval) :
  (forall id, sound c (switch id)) ->
  forall ws ok (s : State W),
    self s = c -> Forall (fun w => nullish w = false) ws ->
    switchEach switch ws ok s =
      (Returned (ok + successes switch ws s), switched switch ws s).
Proof.
  intros Hsw. induction ws as [|w rest IH]; intros ok s Hs Hnn.
  - cbn [switchEach successes switched]. unfold cret. now rewrite Z.add_0_r.
  - pose proof (Forall_inv Hnn) as Hw. pose proof (Forall_inv_tail Hnn) as Hrest.
    cbn [switchEach successes switched]. unfold cbind at 1.
    rewrite (switchOne_returns c switch w ok s Hsw Hs Hw).
    rewrite IH;
      [| rewrite say_self; now destruct (Hsw (toStr (get w "id")) s Hs) | assumption].
    now rewrite Z.add_assoc.
Qed.

(** What the loop is to do: as many lines as workflows, as many successes
    as lines on standard output and, without [debug], nothing else on the
    console. *)
Lemma switched_spec c (switch : string -> Client W jsval) :
  (forall id, sound c (switch id)) ->
  forall ws (s : State W),
    self s = c ->
    self (switched switch ws s) = c /\
    0 <= successes switch ws s <= Z.of_nat (List.length ws) /\
    successes switch ws s
      = Z.of_nat (List.length (filter (printedOn Stdout) (reports switch ws s))) /\
    List.length (reports switch ws s) = List.length ws /\
    (debug c = false ->
       output (switched switch ws s) = (output s ++ reports switch ws s)%list).
Proof.
  intros Hsw. induction ws as [|w rest IH]; intros s Hs.
  - cbn [switched successes reports List.length filter]. rewrite app_nil_r.
    repeat split; try assumption; lia.
  - cbn [switched successes reports List.length filter].
    destruct (Hsw (toStr (get w "id")) s Hs) as (H1 & _ & H3).
    destruct (IH (say (reportLine w (fst (switch (toStr (get w "id")) s)))
                      (snd (switch (toStr (get w "id")) s))))
      as (I1 & I2 & I3 & I4 & I5); [now rewrite say_self|].
    split; [assumption|].
    destruct (fst (switch (toStr (get w "id")) s)) as [e|v];
      cbn [reportLine printedOn printed_on List.length] in *.
    + repeat split; try lia.
      intros Hd. rewrite (I5 Hd). cbn [say output]. rewrite (H3 Hd).
      now rewrite <- app_assoc.
    + repeat split; try lia.
      intros Hd. rewrite (I5 Hd). cbn [say output]. rewrite (H3 Hd).
      now rewrite <- app_assoc.
Qed.

Lemma listWorkflowsAll_self c fuel active name (s st : State W) r :
  self s = c -> listWorkflowsAll fuel active name s = (r, st) -> self st = c.
Proof.
  intros Hs E.
  pose proof (stable_run_any c (fun _ => True) (fun _ _ _ => I) (fun _ => I)
                (ListWorkflowsAll fuel active name) s Hs) as [H _].
  simpl run in H. unfold bind in H. rewrite E in H. now destruct r as [e|[all|]].
Qed.

(** X15. [activate:all] and [deactivate:all], once the listing has returned
    workflow records, on a profile with [retries >= 0] and a transport that
    never rejects with [undefined] or [null]: the command returns; it has
    called the client method once for every workflow listed, in the order
    of the list, and after each call has printed one line for it, on
    standard output with a check mark and its name when the call returned,
    on standard error with a cross, its name and the message of the error
    when the call threw, a failure not stopping the loop; the last line
    counts the calls that returned, which are as many as the lines on
    standard output, out of the workflows listed.  With nothing listed no
    call is made and the line that says so is printed.  On a client without
    [debug] nothing else is written to the console in between. *)
Theorem switching_all_visits_every_workflow :
  forall c fuel (s : State W) ws st,
    properTransport -> 0 <= retries c ->
    self s = c -> Forall (fun w => nullish w = false) ws ->
    (listWorkflowsAll fuel (Some false) None
                      (say (startLine "🟢 Activating all workflows...") s)
       = (inr (Some ws), st) ->
     activateAllWorkflows fuel s =
       (Returned tt,
        match ws with
        | [] =>
            say (mkPrinted Stdout
                   [JStr ("  No inactive workflows to activate." ++ String "010" "")]) st
        | _ =>
            say (mkPrinted Stdout
                   [countOf "Activated" (successes activateWorkflow ws st) ws])
                (switched activateWorkflow ws st)
        end) /\
     0 <= successes activateWorkflow ws st <= Z.of_nat (List.length ws) /\
     successes activateWorkflow ws st
       = Z.of_nat (List.length (filter (printedOn Stdout)
                                       (reports activateWorkflow ws st))) /\
     List.length (reports activateWorkflow ws st) = List.length ws /\
     (debug c = false ->
        output (switched activateWorkflow ws st)
          = (output st ++ reports activateWorkflow ws st)%list)) /\
    (listWorkflowsAll fuel (Some true) None
                      (say (startLine "⚪ Deactivating all workflows...") s)
       = (inr (Some ws), st) ->
     deactivateAllWorkflows fuel s =
       (Returned tt,
        match ws with
        | [] =>
            say (mkPrinted Stdout
                   [JStr ("  No active workflows to deactivate." ++ String "010" "")]) st
        | _ =>
            say (mkPrinted Stdout
                   [countOf "Deactivated" (successes deactivateWorkflow ws st) ws])
                (switched deactivateWorkflow ws st)
        end) /\
     0 <= successes deactivateWorkflow ws st <= Z.of_nat (List.length ws) /\
     successes deactivateWorkflow ws st
       = Z.of_nat (List.length (filter (printedOn Stdout)
                                       (reports deactivateWorkflow ws st))) /\
     List.length (reports deactivateWorkflow ws st) = List.length ws /\
     (debug c = false ->
        output (switched deactivateWorkflow ws st)
          = (output st ++ reports deactivateWorkflow ws st)%list)).
Proof.
  intros c fuel s ws st Ht Hr Hs Hnn. split; intros E.
  - assert (Hst : self st = c)
      by (apply (listWorkflowsAll_self c _ _ _ _ _ _ (eq_trans (say_self _ s) Hs) E)).
    pose proof (fun id => sound_activateWorkflow c id Ht Hr) as Hsw.
    destruct (switched_spec c activateWorkflow Hsw ws st Hst) as (_ & S2 & S3 & S4 & S5).
    split; [|now repeat split].
    unfold activateAllWorkflows, cbind at 1, print at 1, cbind at 1, awaitAll.
    unfold startLine in E. rewrite E.
    destruct ws as [|w rest]; [reflexivity|].
    unfold cbind.
    rewrite (switchEach_returns c activateWorkflow Hsw (w :: rest) 0 st Hst Hnn).
    reflexivity.
  - assert (Hst : self st = c)
      by (apply (listWorkflowsAll_self c _ _ _ _ _ _ (eq_trans (say_self _ s) Hs) E)).
    pose proof (fun id => sound_deactivateWorkflow c id Ht Hr) as Hsw.
    destruct (switched_spec c deactivateWorkflow Hsw ws st Hst) as (_ & S2 & S3 & S4 & S5).
    split; [|now repeat split].
    unfold deactivateAllWorkflows, cbind at 1, print at 1, cbind at 1, awaitAll.
    unfold startLine in E. rewrite E.
    destruct ws as [|w rest]; [reflexivity|].
    unfold cbind.
    rewrite (switchEach_returns c deactivateWorkflow Hsw (w :: rest) 0 st Hst Hnn).
    reflexivity.
Qed.

(** X16. The [ping] command never throws: after its first line it makes
    the single-page workflow list call; when that call returns, it prints
    the line that says so and returns; when that call throws, it prints its
    last line on standard error and ends the process with exit code 1.
    What the client logs with [debug] set is on the console in between. *)
Theorem ping_command_exit_code :
  forall s : State W,
    match listWorkflowsPaginated None JUndefined None
            (say (startLine "🏓 Pinging n8n...") s) with
    | (inr _, st) =>
        pingCommand s =
          (Returned tt,
           say (mkPrinted Stdout
                  [JStr ("  ✓ n8n reachable, API key valid" ++ String "010" "")]) st)
    | (inl _, st) =>
        pingCommand s =
          (Exited 1,
           say (mkPrinted Stderr
                  [JStr ("  ✗ n8n not reachable or API key invalid" ++ String "010" "")])
               st)
    end.
Proof.
  intros s. unfold pingCommand, cbind, print, await, exit, ping, try_catch, bind, ret.
  unfold startLine.
  destruct (listWorkflowsPaginated None JUndefined None _) as [[e|v] st]; reflexivity.
Qed.

End CommandLineTheory.

(** ** File names *)

Section FileNames.

Local Open Scope N_scope.

Lemma Forall_firstn' {A : Type} (Q : A -> Prop) n (l : list A) :
  Forall Q l -> Forall Q (firstn n l).
Proof.
  intros H. revert n. induction H as [|a l Ha _ IH]; intros [|n]; simpl; auto.
Qed.

Lemma collapseWhite_safe s :
  Forall (fun u => isReserved u = false) s ->
  forall inRun, Forall (fun u => isReserved u = false /\ isWhite u = false) (collapseWhite inRun s).
Proof.
  induction 1 as [|u rest Hu Hrest IH]; intros inRun; simpl; [constructor|].
  destruct (isWhite u) eqn:Hwhite.
  - destruct inRun; [apply IH|]. constructor; [now split | apply IH].
  - constructor; [now split | apply IH].
Qed.

Lemma replaced_not_reserved name :
  Forall (fun u => isReserved u = false)
         (map (fun u => if isReserved u then hyphen else u) name).
Proof.
  induction name as [|u rest IH]; simpl; constructor; [|assumption].
  destruct (isReserved u) eqn:E; [reflexivity | assumption].
Qed.

Lemma sanitizeFilename_safe name : Forall (fun u => isReserved u = false /\ isWhite u = false) (sanitizeFilename name).
Proof.
  unfold sanitizeFilename. apply Forall_firstn'.
  apply collapseWhite_safe, replaced_not_reserved.
Qed.

Lemma sanitizeFilename_id name :
  Forall (fun u => isReserved u = false /\ isWhite u = false) name ->
  (List.length name <= 80)%nat -> sanitizeFilename name = name.
Proof.
  intros Hsafe. unfold sanitizeFilename.
  assert (map (fun u => if isReserved u then hyphen else u) name = name) as ->.
  { induction Hsafe as [|u rest [Hu _] _ IH]; simpl; [reflexivity|]. now rewrite Hu, IH. }
  assert (forall b, collapseWhite b name = name) as ->.
  { induction Hsafe as [|u rest [_ Hu] _ IH]; intros b; simpl; [reflexivity|].
    now rewrite Hu, IH. }
  intros Hlen.
  now apply firstn_all2.
Qed.

End FileNames.

(** X17. [sanitizeFilename] gives a name of at most 80 UTF-16 code units
    that holds none of the characters less-than, greater-than, colon,
    double quote, slash, backslash, bar, question mark and asterisk and no
    white space; a name that is already such a name is returned as it is,
    so sanitising twice is the same as sanitising once. *)
Theorem sanitizeFilename_result :
  forall name : ustring,
    (List.length (sanitizeFilename name) <= 80)%nat /\
    Forall (fun u => isReserved u = false /\ isWhite u = false) (sanitizeFilename name) /\
    sanitizeFilename (sanitizeFilename name) = sanitizeFilename name /\
    (Forall (fun u => isReserved u = false /\ isWhite u = false) name ->
     (List.length name <= 80)%nat -> sanitizeFilename name = name).
Proof.
  intros name.
  assert (List.length (sanitizeFilename name) <= 80)%nat as Hlen
    by (unfold sanitizeFilename; apply firstn_le_length).
  pose proof (sanitizeFilename_safe name) as Hsafe.
  repeat split; try assumption.
  - now apply sanitizeFilename_id.
  - apply sanitizeFilename_id.
Qed.

(** * Further scenarios *)

(** A fallback: both calls carry the key and go to the profile's server. *)
Lemma every_call_carries_the_profile_witness :
  let c := exampleClient (Some "p1") 0 in
  let s := start c [failed 404 "no such project"; okJson recA] in
  extends c (carriesProfile c) s (snd (run (P := Host) (Primary (GetWorkflow "w1")) s)).
Proof.
  intros c s.
  exact (@every_call_carries_the_profile _ Host (Primary (GetWorkflow "w1")) c s eq_refl).
Defined.

Lemma every_call_is_dispatched_as_configured_witness :
  let c := exampleClient (Some "p1") 0 in
  let s := start c [failed 404 "no such project"; okJson recA] in
  extends c (dispatchedAsConfigured (P := Host) c) s
          (snd (run (P := Host) (Primary (GetWorkflow "w1")) s)).
Proof.
  intros c s.
  exact (@every_call_is_dispatched_as_configured _ Host (Primary (GetWorkflow "w1")) c s
           eq_refl).
Defined.

(** The example profile is written with a trailing slash. *)
Lemma base_url_normalisation_witness :
  let c := exampleClient None 0 in
  getUrl c "workflows" = "https://n8n.example.com/api/v1/workflows" /\
  getUrl c "/workflows" = getUrl c "workflows".
Proof.
  intros c. destruct base_url_normalisation as (_ & _ & _ & H).
  exact (H c "workflows" eq_refl).
Defined.

(** A 401 whose body speaks of a time-out is still an invalid key. *)
Lemma api_error_is_never_shown_raw_witness :
  toFriendlyApiError (Caught (apiError (P := Host) 401 "ETIMEDOUT")) = inr MSG_UNAUTHORIZED.
Proof.
  destruct (@api_error_is_never_shown_raw _ Host 401 "ETIMEDOUT") as (_ & _ & H & _).
  exact (H eq_refl).
Defined.

(** The server is down and three retries are allowed. *)
Lemma request_gives_up_witness :
  let c := exampleClient None 3 in
  let s := mkState c tt [] [] in
  fst (request (P := Down fetchFailed) "GET" "workflows" JUndefined s) = inl fetchFailed /\
  totalDelay (schedule (requestOf (P := Down fetchFailed) c "GET" "workflows" JUndefined)
                       4 0) = 7000.
Proof.
  intros c s.
  destruct (@request_gives_up_after_all_attempts _ (Down fetchFailed) c "GET" "workflows"
              JUndefined s fetchFailed eq_refl ltac:(vm_compute; discriminate)
              (fun _ _ => eq_refl)) as (H1 & _ & H3).
  destruct (H3 eq_refl) as (_ & _ & H4).
  split; [exact H1 | exact (H4 eq_refl)].
Defined.

(** A negative number of retries. *)
Lemma retries_bounds_witness :
  let c := exampleClient None (-1) in
  let s := start c [okJson emptyPage] in
  ping (P := Host) s = (inr false, s).
Proof.
  intros c s.
  destruct (@retries_bounds _ Host c "GET" "workflows" JUndefined s eq_refl) as (_ & Neg).
  exact (proj2 (Neg eq_refl)).
Defined.

(** Every call is aborted and one retry is allowed. *)
Lemma timeout_is_retried_witness :
  let c := exampleClient None 1 in
  let s := mkState c tt [] [] in
  exists j : nat,
    Attempts c (attemptOf (P := Down abortError) c "GET" "workflows" JUndefined) 0 s
             (S (S j)) (request (P := Down abortError) "GET" "workflows" JUndefined s).
Proof.
  intros c s.
  destruct (@timeout_is_retried _ (Down abortError) c "GET" "workflows" JUndefined s
              abortError tt eq_refl eq_refl eq_refl) as (_ & _ & H).
  exact (H eq_refl).
Defined.

(** Without a project a 404 is final. *)
Lemma unscoped_operation_witness :
  let c := exampleClient None 0 in
  let s := start c [failed 404 "not found"; okJson recA] in
  perform (P := Host) (GetWorkflow "w1") s =
    liftResult (op_result (GetWorkflow "w1"))
      (request (P := Host) "GET" "workflows/w1" JUndefined s).
Proof.
  intros c s.
  exact (@unscoped_operation_is_one_request _ Host (GetWorkflow "w1") c s eq_refl eq_refl).
Defined.

(** A 204 without a body. *)
Lemma list_results_are_never_null_witness :
  let c := exampleClient None 0 in
  let s := start c [Resolved (mkResponse 204 None "")] in
  listTags (P := Host) s =
    (inr (JArr []), snd (request (P := Host) "GET" "tags" JUndefined s)) /\
  listWorkflowsPaginated (P := Host) None JUndefined None s =
    (inr (JObj [("data", JArr [])]),
     snd (request (P := Host) "GET" "workflows" JUndefined s)).
Proof.
  intros c s.
  destruct (@list_results_are_never_null _ Host s)
    as (_ & Page & _ & _ & _ & _ & Tags & _).
  split; [rewrite Tags; reflexivity|].
  rewrite (Page None JUndefined None eq_refl). reflexivity.
Defined.

(** The workflow is read, then written back under its new name. *)
Lemma rename_changes_only_the_name_witness :
  let c := exampleClient None 0 in
  let s := start c [okJson recA; okJson recA] in
  renameWorkflow (P := Host) "A" "Renamed" s =
    updateWorkflow (P := Host) "A" (withName recA "Renamed")
                   (snd (getWorkflow (P := Host) "A" s)).
Proof.
  intros c s.
  destruct (@rename_changes_only_the_name _ Host) as (_ & H & _).
  exact (H "A" "Renamed" s (snd (getWorkflow (P := Host) "A" s)) recA eq_refl).
Defined.

(** A response that carries both identifiers. *)
Lemma retryExecution_picks_the_new_id_witness :
  let res := JObj [("data", JObj [("id", JStr "new"); ("executionId", JStr "old")])] in
  firstPresent [get (get res "data") "id"; get (get res "data") "executionId";
                get res "id"; get res "executionId"] (JStr "") = JStr "new" /\
  extractId res = JStr "old".
Proof.
  intros res.
  destruct (@retryExecution_picks_the_new_id _ Host) as (_ & _ & H).
  exact (H res eq_refl eq_refl).
Defined.

(** The profile of the environment. *)
Lemma loadConfig_result_is_usable_witness :
  exists config,
    loadConfig (P := HostWithEnv) = inr config /\
    truthy (get config "baseUrl") = true /\ truthy (get config "apiKey") = true.
Proof.
  eexists. split; [reflexivity|].
  destruct (@loadConfig_result_is_usable _ HostWithEnv _ eq_refl) as (H1 & H2 & _).
  split; [exact H1 | exact H2].
Defined.

(** An absolute override that does not exist. *)
Lemma override_replaces_default_files_witness :
  candidatePaths (P := HostWithOverride)
    = map (fun rootDir => configPathOf (P := HostWithOverride) rootDir overridePath)
          (configCandidates (P := HostWithOverride)) /\
  loadConfig (P := HostWithOverride)
    = inl (ThrownError (newError (CONFIG_ERROR ++ configHint (P := HostWithOverride)))).
Proof.
  destruct (@override_replaces_default_files _ HostWithOverride overridePath eq_refl eq_refl)
    as (H1 & H2).
  split; [exact H1|]. destruct (H2 eq_refl) as (_ & H3). exact (H3 eq_refl).
Defined.

(** [B] is the identifier of the second workflow and the name of the
    first: the identifier wins. *)
Lemma resolveWorkflowId_prefers_ids_witness :
  let c := exampleClient None 0 in
  let s := mkState c [jsonResponse lastPage] [] [] in
  fst (resolveWorkflowId (P := Server) "B" s) = inr (JStr "B") /\
  fst (resolveWorkflowId (P := Server) "Nightly" s) = inr (JStr "B").
Proof.
  intros c s.
  destruct (@resolveWorkflowId_prefers_ids _ Server) as (_ & _ & H).
  destruct (H "B" s (snd (listWorkflows (P := Server) None None s)) [wfA; wfB]
              eq_refl eq_refl ltac:(repeat constructor)) as (ById & _).
  destruct (H "Nightly" s (snd (listWorkflows (P := Server) None None s)) [wfA; wfB]
              eq_refl eq_refl ltac:(repeat constructor)) as (_ & ByName & _).
  split.
  - rewrite ById; [reflexivity|]. apply Exists_cons_tl, Exists_cons_hd. reflexivity.
  - rewrite (ByName [wfA] wfB []); [reflexivity| | reflexivity | | reflexivity].
    + repeat constructor; discriminate.
    + repeat constructor; discriminate.
Defined.

Lemma Answering_proper known : properTransport (P := Answering known).
Proof.
  intros req w e w' H. destruct w as [|r rest]; simpl in H; inversion H. exact I.
Qed.

(** Two inactive workflows; activating the second fails with a 500. *)
Lemma switching_all_witness :
  let c := exampleClient None 0 in
  let s := mkState c [jsonResponse lastPage;
                      jsonResponse wfA;
                      mkResponse 500 (Some "text/plain") "boom"] [] [] in
  fst (activateAllWorkflows (P := Server) 5 s) = Returned tt /\
  output (snd (activateAllWorkflows (P := Server) 5 s)) =
    [startLine "🟢 Activating all workflows...";
     mkPrinted Stdout [JStr "  ✓ B"];
     mkPrinted Stderr [JStr "  ✗ Nightly: n8n API error 500: boom"];
     mkPrinted Stdout [countOf "Activated" 1 [wfA; wfB]]] /\
  map req_url (fetches (trace (snd (activateAllWorkflows (P := Server) 5 s)))) =
    ["https://n8n.example.com/api/v1/workflows?active=false";
     "https://n8n.example.com/api/v1/workflows/A/activate";
     "https://n8n.example.com/api/v1/workflows/B/activate"].
Proof.
  intros c s.
  destruct (@switching_all_visits_every_workflow _ Server c 5%nat s [wfA; wfB]
              (snd (listWorkflowsAll (P := Server) 5 (Some false) None
                      (say (startLine "🟢 Activating all workflows...") s)))
              (Answering_proper _) ltac:(vm_compute; discriminate) eq_refl
              ltac:(repeat constructor)) as (H & _).
  destruct (H eq_refl) as (H1 & _).
  rewrite H1. repeat split.
Defined.

(** A name that needs no change. *)
Lemma sanitizeFilename_result_witness :
  sanitizeFilename [119; 102; 45; 49]%N = [119; 102; 45; 49]%N.
Proof.
  destruct (sanitizeFilename_result [119; 102; 45; 49]%N) as (_ & _ & _ & H).
  apply H; [repeat constructor | simpl; lia].
Defined.
